(** * NBodyGravity: the simulation pipeline and the orbit camera

    A shallow embedding of the WebGPU n-body simulation:
    - [Wgsl]: the two compute kernels, [computeForces] and
      [integrateParticles], over the [Particle] storage buffer;
    - [NBodySimulation]: the host side of the compute version (flat
      [Float32Array] particle upload, dispatch of the two passes, resize);
    - [SimpleNBodySimulation]: the CPU version ([initializeParticles],
      [updatePhysics], [setParticleCount]);
    - [Camera]: the [CameraController] (Rodrigues rotations, smoothed zoom);
    - [GlMatrix]: the vector and matrix functions of gl-matrix.js;
    - [QuadShader]: the vertex shader of the quads, [vs_main];
    - [Layout], [SimpleNBodyRender], [NBodyRender]: the uniform and the
      particle upload, and the frame of the CPU version.

    Numbers are modelled in exact real arithmetic.  An IEEE operation whose
    exact result is not a real number (a division by zero, the square root
    or arc cosine outside its domain, the tangent at a pole) is a
    [Fault NonFinite]: from there on
    the floating-point run carries an infinity or a NaN and the exact model
    says nothing more about it.  Rounding is not modelled. *)

From Stdlib Require Import Reals Lra Psatz ZArith RNsatz.
From stdpp Require Import base option list.

Open Scope R_scope.

(** ** Faults and the result monad *)

Inductive fault : Set :=
  | NonFinite     (* an infinity or a NaN was produced *)
  | OutOfBounds   (* an index outside the array that is read or written *)
  | RangeError    (* a typed array of negative length *)
  | TypeError.    (* a negative size or count handed to the device *)

Inductive result (A : Type) : Type :=
  | Ok (a : A)
  | Fault (f : fault).
Arguments Ok {A} a.
Arguments Fault {A} f.

#[global] Instance result_ret : MRet result := fun A a => Ok a.
#[global] Instance result_bind : MBind result := fun A B k m =>
  match m with
  | Ok a => k a
  | Fault f => Fault f
  end.

(** [a / b] on floats: finite only when the divisor is not zero. *)
Definition fdiv (a b : R) : result R :=
  if Req_dec_T b 0 then Fault NonFinite else Ok (a / b).

(** [sqrt(a)]: NaN on a negative argument. *)
Definition fsqrt (a : R) : result R :=
  if Rlt_dec a 0 then Fault NonFinite else Ok (sqrt a).

(** [Math.acos(a)]: NaN outside [-1, 1]. *)
Definition facos (a : R) : result R :=
  if Rlt_dec a (-1) then Fault NonFinite
  else if Rlt_dec 1 a then Fault NonFinite
  else Ok (acos a).

(** [sign] of WGSL and [Math.sign] of JavaScript. *)
Definition sign (a : R) : R :=
  if Rlt_dec 0 a then 1 else if Rlt_dec a 0 then -1 else 0.

(** Array read and write with the bounds made explicit.  An index outside
    the array is a fault of the model: JavaScript reads [undefined] there
    (and throws at the first field access), WGSL reads or writes an
    unspecified location of the buffer. *)
Definition load {A} (l : list A) (i : nat) : result A :=
  match l !! i with
  | Some a => Ok a
  | None => Fault OutOfBounds
  end.

Definition store {A} (l : list A) (i : nat) (a : A) : result (list A) :=
  if decide (i < length l)%nat then Ok (<[i := a]> l) else Fault OutOfBounds.

(** [l[i] = a] on a JavaScript array: an index equal to the length extends
    the array by one; an index further out would leave holes, which are not
    modelled. *)
Definition assign {A} (l : list A) (i : nat) (a : A) : result (list A) :=
  if decide (i < length l)%nat then Ok (<[i := a]> l)
  else if decide (i = length l) then Ok (l ++ [a])
  else Fault OutOfBounds.

(** [for (i = start; i < start + n; i++) s = body(i, s)], stopping at the
    first fault. *)
Fixpoint for_loop {S : Type} (body : nat -> S -> result S)
    (start n : nat) (s : S) : result S :=
  match n with
  | O => Ok s
  | Datatypes.S n' => s' ← body start s; for_loop body (Datatypes.S start) n' s'
  end.

(** [n] runs of a step (one per animation frame), stopping at the first
    fault. *)
Fixpoint iterate {A : Type} (n : nat) (step : A -> result A) (a : A)
    : result A :=
  match n with
  | O => Ok a
  | Datatypes.S n' => a' ← step a; iterate n' step a'
  end.

(** ** Three-component vectors ([vec3<f32>], and the JS triples) *)

Record vec3 : Type := Vec3 { vec_x : R; vec_y : R; vec_z : R }.

Definition vzero : vec3 := Vec3 0 0 0.
Definition vadd (a b : vec3) : vec3 :=
  Vec3 (vec_x a + vec_x b) (vec_y a + vec_y b) (vec_z a + vec_z b).
Definition vsub (a b : vec3) : vec3 :=
  Vec3 (vec_x a - vec_x b) (vec_y a - vec_y b) (vec_z a - vec_z b).
Definition vneg (a : vec3) : vec3 :=
  Vec3 (- vec_x a) (- vec_y a) (- vec_z a).
(** [a * k], a vector by a scalar *)
Definition vscale (a : vec3) (k : R) : vec3 :=
  Vec3 (vec_x a * k) (vec_y a * k) (vec_z a * k).
(** [k * a], a scalar by a vector *)
Definition smul (k : R) (a : vec3) : vec3 :=
  Vec3 (k * vec_x a) (k * vec_y a) (k * vec_z a).
(** [a / k], component by component *)
Definition vdiv (a : vec3) (k : R) : result vec3 :=
  qx ← fdiv (vec_x a) k;
  qy ← fdiv (vec_y a) k;
  qz ← fdiv (vec_z a) k;
  mret (Vec3 qx qy qz).
Definition dot (a b : vec3) : R :=
  vec_x a * vec_x b + vec_y a * vec_y b + vec_z a * vec_z b.
(** WGSL [length(a)] *)
Definition vlength (a : vec3) : result R := fsqrt (dot a a).
(** WGSL [normalize(a) = a / length(a)] *)
Definition normalize (a : vec3) : result vec3 :=
  len ← vlength a; vdiv a len.

(** The Euclidean norm, for the statements. *)
Definition norm (a : vec3) : R := sqrt (dot a a).

(** ** The compute kernels (force-compute.wgsl, integrate-compute.wgsl) *)

Module Wgsl.

Record Particle : Type := mkParticle {
  position : vec3;
  mass : R;
  velocity : vec3;
  _padding : R
}.

Record SimParams : Type := mkSimParams {
  particleCount : nat;  (* u32 *)
  deltaTime : R;
  gravityStrength : R;
  damping : R
}.

(** The storage buffers the two kernels are bound to. *)
Record Buffers : Type := mkBuffers {
  particles : list Particle;  (* particlesIn / particles *)
  forces : list vec3          (* forcesOut / forces *)
}.

Definition set_position (p : Particle) (v : vec3) : Particle :=
  mkParticle v (mass p) (velocity p) (_padding p).
Definition set_velocity (p : Particle) (v : vec3) : Particle :=
  mkParticle (position p) (mass p) v (_padding p).

(** One iteration of the loop of [computeForces] for [i <> index]: what
    [other] adds to [totalForce]. *)
Definition pairForce (params : SimParams) (particle other : Particle)
    : result vec3 :=
  let r := vsub (position other) (position particle) in
  let distanceSquared := dot r r in
  let epsilon := 0.01 in
  distance ← fsqrt (distanceSquared + epsilon * epsilon);
  forceMagnitude ←
    fdiv (gravityStrength params * mass particle * mass other)
         distanceSquared;
  forceDirection ← normalize r;
  mret (smul forceMagnitude forceDirection).

Definition forceLoopBody (params : SimParams) (particlesIn : list Particle)
    (particle : Particle) (index : nat) (i : nat) (totalForce : vec3)
    : result vec3 :=
  if decide (i = index) then Ok totalForce
  else
    other ← load particlesIn i;
    f ← pairForce params particle other;
    mret (vadd totalForce f).

Definition computeForces (params : SimParams) (index : nat) (b : Buffers)
    : result Buffers :=
  if decide (particleCount params <= index)%nat then Ok b
  else
    particle ← load (particles b) index;
    totalForce ←
      for_loop (forceLoopBody params (particles b) particle index)
               0 (particleCount params) vzero;
    forcesOut ← store (forces b) index totalForce;
    mret (mkBuffers (particles b) forcesOut).

(** Velocity and position update of [integrateParticles], on the local
    copy [particle]. *)
Definition advance (params : SimParams) (force : vec3) (particle : Particle)
    : result Particle :=
  acceleration ← vdiv force (mass particle);
  let particle :=
    set_velocity particle
      (vadd (velocity particle) (vscale acceleration (deltaTime params))) in
  let particle :=
    set_velocity particle (vscale (velocity particle) (damping params)) in
  let particle :=
    set_position particle
      (vadd (position particle)
            (vscale (velocity particle) (deltaTime params))) in
  mret particle.

Definition boundarySize : R := 50.0.
Definition restitution : R := 0.8.

Definition bounce_x (p : Particle) : Particle :=
  if Rlt_dec boundarySize (Rabs (vec_x (position p))) then
    let p :=
      set_position p
        (Vec3 (sign (vec_x (position p)) * boundarySize)
              (vec_y (position p)) (vec_z (position p))) in
    set_velocity p
      (Vec3 (vec_x (velocity p) * - restitution)
            (vec_y (velocity p)) (vec_z (velocity p)))
  else p.

Definition bounce_y (p : Particle) : Particle :=
  if Rlt_dec boundarySize (Rabs (vec_y (position p))) then
    let p :=
      set_position p
        (Vec3 (vec_x (position p))
              (sign (vec_y (position p)) * boundarySize)
              (vec_z (position p))) in
    set_velocity p
      (Vec3 (vec_x (velocity p))
            (vec_y (velocity p) * - restitution)
            (vec_z (velocity p)))
  else p.

Definition bounce_z (p : Particle) : Particle :=
  if Rlt_dec boundarySize (Rabs (vec_z (position p))) then
    let p :=
      set_position p
        (Vec3 (vec_x (position p)) (vec_y (position p))
              (sign (vec_z (position p)) * boundarySize)) in
    set_velocity p
      (Vec3 (vec_x (velocity p)) (vec_y (velocity p))
            (vec_z (velocity p) * - restitution))
  else p.

(** The three boundary tests, in the order of the source. *)
Definition boundary (p : Particle) : Particle :=
  bounce_z (bounce_y (bounce_x p)).

Definition integrateParticles (params : SimParams) (index : nat)
    (b : Buffers) : result Buffers :=
  if decide (particleCount params <= index)%nat then Ok b
  else
    particle ← load (particles b) index;
    force ← load (forces b) index;
    particle ← advance params force particle;
    let particle := boundary particle in
    particles' ← store (particles b) index particle;
    mret (mkBuffers particles' (forces b)).

End Wgsl.

(** ** [Math.random]

    The generator is a global stream: [rng k] is the value the [k]-th call
    returns, and a computation threads the number of calls made so far. *)

Definition Rand (A : Type) : Type := nat -> result (A * nat).

#[global] Instance Rand_ret : MRet Rand := fun A a => fun k => Ok (a, k).
#[global] Instance Rand_bind : MBind Rand := fun A B f m => fun k =>
  match m k with
  | Ok (a, k') => f a k'
  | Fault e => Fault e
  end.

Definition lift {A} (r : result A) : Rand A := fun k =>
  match r with
  | Ok a => Ok (a, k)
  | Fault e => Fault e
  end.

Definition random (rng : nat -> R) : Rand R := fun k => Ok (rng k, S k).

(** [Math.floor] *)
Definition floor (a : R) : Z := Int_part a.

(** ** main.js: the host of the compute version *)

Module NBodySimulation.

Record sim : Type := mkSim {
  particleCount : Z;
  gravityStrength : R;
  timeScale : R;
  damping : R;
  particleBuffer : list R  (* 8 floats per particle *)
}.

Definition set_particleCount (s : sim) (n : Z) : sim :=
  mkSim n (gravityStrength s) (timeScale s) (damping s) (particleBuffer s).
Definition set_particleBuffer (s : sim) (b : list R) : sim :=
  mkSim (particleCount s) (gravityStrength s) (timeScale s) (damping s) b.

(** The body of the loop of [initializeParticles]: fills the eight floats
    of particle [i]. *)
Definition initParticle (rng : nat -> R) (G : R) (i : nat)
    (particles : list R) : Rand (list R) :=
  let offset := (i * 8)%nat in
  u ← random rng;
  let radius := u * 20 + 5 in
  u ← random rng;
  let theta := u * PI * 2 in
  u ← random rng;
  phi ← lift (facos (2 * u - 1));
  let particles := <[(offset + 0)%nat := radius * sin phi * cos theta]> particles in
  let particles := <[(offset + 1)%nat := radius * sin phi * sin theta]> particles in
  let particles := <[(offset + 2)%nat := radius * cos phi]> particles in
  u ← random rng;
  let particles := <[(offset + 3)%nat := u * 0.5 + 0.5]> particles in
  q ← lift (fdiv (G * 100) radius);
  root ← lift (fsqrt q);
  let speed := root * 0.3 in
  let particles := <[(offset + 4)%nat := - speed * sin theta]> particles in
  let particles := <[(offset + 5)%nat := speed * cos theta]> particles in
  let particles := <[(offset + 6)%nat := 0]> particles in
  let particles := <[(offset + 7)%nat := 0]> particles in
  mret particles.

(** The test particle written over particle 0. *)
Definition centerParticle (particles : list R) : list R :=
  let particles := <[0%nat := 0]> particles in
  let particles := <[1%nat := 0]> particles in
  let particles := <[2%nat := 0]> particles in
  let particles := <[3%nat := 1.0]> particles in
  let particles := <[4%nat := 0]> particles in
  let particles := <[5%nat := 0]> particles in
  let particles := <[6%nat := 0]> particles in
  let particles := <[7%nat := 0]> particles in
  particles.

Definition initializeParticles (rng : nat -> R) (s : sim) : Rand sim :=
  fun k =>
  if decide (particleCount s * 8 < 0)%Z then Fault RangeError
  else
    let particles := replicate (Z.to_nat (particleCount s * 8)) 0 in
    r ← for_loop
          (fun i '(particles, k) =>
             initParticle rng (gravityStrength s) i particles k)
          0 (Z.to_nat (particleCount s)) (particles, k);
    let '(particles, k) := r in
    let particles :=
      if decide (0 < particleCount s)%Z then centerParticle particles
      else particles in
    Ok (set_particleBuffer s particles, k).

(** The sizes, in bytes, of the two storage buffers [initResources] asks
    for. *)
Definition particleBufferSize (s : sim) : Z := (particleCount s * 8 * 4)%Z.
Definition forceBufferSize (s : sim) : Z := (particleCount s * 3 * 4)%Z.

(** [initResources].  [createBuffer] refuses a negative size: the call
    throws inside the [async] function, whose promise is then rejected.  The
    buffers themselves are not part of [sim]: [initializeParticles] writes
    the particle buffer anew. *)
Definition initResources (s : sim) : result sim :=
  if decide (particleBufferSize s < 0)%Z then Fault TypeError else Ok s.

(** [setParticleCount], with its promise chain run to its end.  The call
    returns nothing and awaits nothing: when [initResources] rejects, nobody
    handles the rejection, [initializeParticles] is never reached and the
    new count stays. *)
Definition setParticleCount (rng : nat -> R) (count : R) (s : sim)
    : Rand sim :=
  let s := set_particleCount s (floor count) in
  match initResources s with
  | Ok s => initializeParticles rng s
  | Fault _ => mret s
  end.

Definition resetSimulation (rng : nat -> R) (s : sim) : Rand sim :=
  initializeParticles rng s.

(** The particle the kernels see at slot [i] of the uploaded buffer. *)
Definition particleAt (buf : list R) (i : nat) : option Wgsl.Particle :=
  px ← buf !! (i * 8 + 0)%nat;
  py ← buf !! (i * 8 + 1)%nat;
  pz ← buf !! (i * 8 + 2)%nat;
  m ← buf !! (i * 8 + 3)%nat;
  wx ← buf !! (i * 8 + 4)%nat;
  wy ← buf !! (i * 8 + 5)%nat;
  wz ← buf !! (i * 8 + 6)%nat;
  pad ← buf !! (i * 8 + 7)%nat;
  mret (Wgsl.mkParticle (Vec3 px py pz) m (Vec3 wx wy wz) pad).

(** [dispatchWorkgroups(groups)] of a kernel of workgroup size 64: one
    invocation per index below [64 * groups].  An invocation touches its
    own slot only, so the invocations are run one after the other. *)
Definition dispatchWorkgroups
    (kernel : nat -> Wgsl.Buffers -> result Wgsl.Buffers)
    (groups : nat) (b : Wgsl.Buffers) : result Wgsl.Buffers :=
  for_loop kernel 0 (64 * groups) b.

(** [Math.ceil(n / 64)] *)
Definition workgroups (n : nat) : nat := Nat.div (n + 63) 64.

(** The elements the kernels find in the two storage buffers: a [Particle]
    takes 32 bytes, and a [vec3<f32>] in an array takes 16, its alignment. *)
Definition particleSlots (s : sim) : nat :=
  Z.to_nat (particleBufferSize s / 32).
Definition forceSlots (s : sim) : nat :=
  Z.to_nat (forceBufferSize s / 16).

(** The bits of the [Float32Array] element that holds the integer [n]
    (rounded to the nearest float, ties to even), read as a [u32]:
    [updateUniforms] writes [particleCount] into a [Float32Array], and
    [SimParams.particleCount] is declared [u32]. *)
Definition float32Bits (n : Z) : Z :=
  let sign := if decide (n < 0)%Z then (2 ^ 31)%Z else 0%Z in
  let a := Z.abs n in
  if decide (a = 0)%Z then 0%Z
  else
    let e := Z.log2 a in
    if decide (e <= 23)%Z then
      (sign + (e + 127) * 2 ^ 23 + (a - 2 ^ e) * 2 ^ (23 - e))%Z
    else
      let cut := (e - 23)%Z in
      let kept := (a / 2 ^ cut)%Z in
      let rest := (a mod 2 ^ cut)%Z in
      let half := (2 ^ (cut - 1))%Z in
      let up :=
        if decide (half < rest)%Z then 1%Z
        else if decide (rest = half)%Z then (kept mod 2)%Z else 0%Z in
      (sign
       + Z.min ((e + 127) * 2 ^ 23 + (kept - 2 ^ 23) + up) (255 * 2 ^ 23))%Z.

(** The parameter block of [updateUniforms], as the kernels read it. *)
Definition uploadedParams (s : sim) : Wgsl.SimParams :=
  Wgsl.mkSimParams (Z.to_nat (float32Bits (particleCount s)))
    (0.016 * timeScale s) (gravityStrength s) (damping s).

(** [Math.ceil(this.particleCount / 64)], the argument of both dispatches;
    [dispatchWorkgroups] refuses a negative number. *)
Definition frameWorkgroups (s : sim) : result nat :=
  if decide (particleCount s <= -64)%Z then Fault TypeError
  else Ok (workgroups (Z.to_nat (particleCount s))).

(** The two compute passes of [render]: forces, then integration. *)
Definition forcePass (s : sim) (b : Wgsl.Buffers) : result Wgsl.Buffers :=
  groups ← frameWorkgroups s;
  dispatchWorkgroups (Wgsl.computeForces (uploadedParams s)) groups b.

Definition integratePass (s : sim) (b : Wgsl.Buffers)
    : result Wgsl.Buffers :=
  groups ← frameWorkgroups s;
  dispatchWorkgroups (Wgsl.integrateParticles (uploadedParams s)) groups b.

Definition computePasses (s : sim) (b : Wgsl.Buffers)
    : result Wgsl.Buffers :=
  b ← forcePass s b;
  integratePass s b.

End NBodySimulation.

(** ** The CPU version of the simulation *)

Module SimpleNBodySimulation.

Record particle : Type := mkParticle {
  position : vec3;
  mass : R;
  velocity : vec3
}.

Record sim : Type := mkSim {
  particleCount : Z;
  gravityStrength : R;
  timeScale : R;
  damping : R;
  particles : list particle
}.

Definition set_particleCount (s : sim) (n : Z) : sim :=
  mkSim n (gravityStrength s) (timeScale s) (damping s) (particles s).
Definition set_particles (s : sim) (ps : list particle) : sim :=
  mkSim (particleCount s) (gravityStrength s) (timeScale s) (damping s) ps.

Definition set_position (p : particle) (v : vec3) : particle :=
  mkParticle v (mass p) (velocity p).
Definition set_velocity (p : particle) (v : vec3) : particle :=
  mkParticle (position p) (mass p) v.
Definition set_mass (p : particle) (m : R) : particle :=
  mkParticle (position p) m (velocity p).

(** The body of the loop of [initializeParticles], up to the [push]. *)
Definition makeParticle (rng : nat -> R) (G : R) : Rand particle :=
  u ← random rng;
  let radius := u * 20 + 5 in
  u ← random rng;
  let theta := u * PI * 2 in
  u ← random rng;
  phi ← lift (facos (2 * u - 1));
  let pos :=
    Vec3 (radius * sin phi * cos theta)
         (radius * sin phi * sin theta)
         (radius * cos phi) in
  u ← random rng;
  let particle := mkParticle pos (u * 0.5 + 0.5) (Vec3 0 0 0) in
  q ← lift (fdiv (G * 100) radius);
  root ← lift (fsqrt q);
  let speed := root * 0.3 in
  let particle :=
    set_velocity particle
      (Vec3 (- speed * sin theta) (vec_y (velocity particle))
            (vec_z (velocity particle))) in
  let particle :=
    set_velocity particle
      (Vec3 (vec_x (velocity particle)) (speed * cos theta)
            (vec_z (velocity particle))) in
  let particle :=
    set_velocity particle
      (Vec3 (vec_x (velocity particle)) (vec_y (velocity particle)) 0) in
  mret particle.

(** The reference particle written over [particles[0]]. *)
Definition centerParticle (ps : list particle) : list particle :=
  match ps with
  | [] => []
  | p0 :: rest =>
      let p0 := set_position p0 (Vec3 0 0 0) in
      let p0 := set_velocity p0 (Vec3 0 0 0) in
      let p0 := set_mass p0 2.0 in
      p0 :: rest
  end.

Definition initializeParticles (rng : nat -> R) (s : sim) : Rand sim :=
  fun k =>
  r ← for_loop
        (fun _ '(ps, k) =>
           r ← makeParticle rng (gravityStrength s) k;
           let '(p, k) := r in
           Ok (ps ++ [p], k))
        0 (Z.to_nat (particleCount s)) ([], k);
  let '(ps, k) := r in
  let ps := if decide (0 < length ps)%nat then centerParticle ps else ps in
  Ok (set_particles s ps, k).

(** What [other] adds to [forces[i]] in the inner loop of
    [updatePhysics]. *)
Definition pairForce (G : R) (particle other : particle) : result vec3 :=
  let dx := vec_x (position other) - vec_x (position particle) in
  let dy := vec_y (position other) - vec_y (position particle) in
  let dz := vec_z (position other) - vec_z (position particle) in
  let distanceSquared := dx * dx + dy * dy + dz * dz + 0.01 in
  distance ← fsqrt distanceSquared;
  force ← fdiv (G * mass particle * mass other) distanceSquared;
  fx ← fdiv (force * dx) distance;
  fy ← fdiv (force * dy) distance;
  fz ← fdiv (force * dz) distance;
  mret (Vec3 fx fy fz).

Definition forceLoopBody (G : R) (ps : list particle) (particle : particle)
    (i : nat) (j : nat) (acc : vec3) : result vec3 :=
  if decide (i = j) then Ok acc
  else
    other ← load ps j;
    f ← pairForce G particle other;
    mret (vadd acc f).

(** The outer force loop: [forces[i]] is created, then accumulated. *)
Definition forcesBody (s : sim) (i : nat) (forces : list vec3)
    : result (list vec3) :=
  forces ← assign forces i (Vec3 0 0 0);
  particle ← load (particles s) i;
  acc ← load forces i;
  acc ← for_loop (forceLoopBody (gravityStrength s) (particles s) particle i)
                 0 (Z.to_nat (particleCount s)) acc;
  store forces i acc.

Definition boundarySize : R := 50.0.
Definition restitution : R := 0.8.

Definition bounce_x (p : particle) : particle :=
  if Rlt_dec boundarySize (Rabs (vec_x (position p))) then
    let p :=
      set_position p
        (Vec3 (sign (vec_x (position p)) * boundarySize)
              (vec_y (position p)) (vec_z (position p))) in
    set_velocity p
      (Vec3 (vec_x (velocity p) * - restitution)
            (vec_y (velocity p)) (vec_z (velocity p)))
  else p.

Definition bounce_y (p : particle) : particle :=
  if Rlt_dec boundarySize (Rabs (vec_y (position p))) then
    let p :=
      set_position p
        (Vec3 (vec_x (position p))
              (sign (vec_y (position p)) * boundarySize)
              (vec_z (position p))) in
    set_velocity p
      (Vec3 (vec_x (velocity p))
            (vec_y (velocity p) * - restitution)
            (vec_z (velocity p)))
  else p.

Definition bounce_z (p : particle) : particle :=
  if Rlt_dec boundarySize (Rabs (vec_z (position p))) then
    let p :=
      set_position p
        (Vec3 (vec_x (position p)) (vec_y (position p))
              (sign (vec_z (position p)) * boundarySize)) in
    set_velocity p
      (Vec3 (vec_x (velocity p)) (vec_y (velocity p))
            (vec_z (velocity p) * - restitution))
  else p.

Definition boundary (p : particle) : particle :=
  bounce_z (bounce_y (bounce_x p)).

(** Velocity, damping and position update of one particle. *)
Definition advance (dt damp : R) (force : vec3) (p : particle)
    : result particle :=
  ax ← fdiv (vec_x force) (mass p);
  let p := set_velocity p
    (Vec3 (vec_x (velocity p) + ax * dt) (vec_y (velocity p))
          (vec_z (velocity p))) in
  ay ← fdiv (vec_y force) (mass p);
  let p := set_velocity p
    (Vec3 (vec_x (velocity p)) (vec_y (velocity p) + ay * dt)
          (vec_z (velocity p))) in
  az ← fdiv (vec_z force) (mass p);
  let p := set_velocity p
    (Vec3 (vec_x (velocity p)) (vec_y (velocity p))
          (vec_z (velocity p) + az * dt)) in
  let p := set_velocity p
    (Vec3 (vec_x (velocity p) * damp) (vec_y (velocity p) * damp)
          (vec_z (velocity p) * damp)) in
  let p := set_position p
    (Vec3 (vec_x (position p) + vec_x (velocity p) * dt)
          (vec_y (position p) + vec_y (velocity p) * dt)
          (vec_z (position p) + vec_z (velocity p) * dt)) in
  mret p.

Definition integrateBody (dt damp : R) (forces : list vec3) (i : nat)
    (ps : list particle) : result (list particle) :=
  particle ← load ps i;
  force ← load forces i;
  particle ← advance dt damp force particle;
  let particle := boundary particle in
  store ps i particle.

(** The first loop of [updatePhysics]: the array [forces]. *)
Definition calculateForces (s : sim) : result (list vec3) :=
  for_loop (forcesBody s) 0 (Z.to_nat (particleCount s)) [].

Definition updatePhysics (deltaTime : R) (s : sim) : result sim :=
  let dt := deltaTime * timeScale s in
  forces ← calculateForces s;
  ps ← for_loop (integrateBody dt (damping s) forces)
                0 (Z.to_nat (particleCount s)) (particles s);
  mret (set_particles s ps).

Definition setParticleCount (rng : nat -> R) (count : R) (s : sim)
    : Rand sim :=
  let s := set_particleCount s (floor (Rmin count 4000)) in
  initializeParticles rng s.

(** The record [updateParticleBuffer] packs for the shaders: eight floats,
    the last one a zero. *)
Definition pack (p : particle) : Wgsl.Particle :=
  Wgsl.mkParticle (position p) (mass p) (velocity p) 0.

Definition resetSimulation (rng : nat -> R) (s : sim) : Rand sim :=
  initializeParticles rng s.

(** [updateParticleBuffer]: the array of [particleCount * 8] floats that is
    written to the particle buffer of the shaders. *)
Definition packParticle (i : nat) (ps : list particle) (particleData : list R)
    : result (list R) :=
  let offset := (i * 8)%nat in
  particle ← load ps i;
  let particleData :=
    <[(offset + 0)%nat := vec_x (position particle)]> particleData in
  let particleData :=
    <[(offset + 1)%nat := vec_y (position particle)]> particleData in
  let particleData :=
    <[(offset + 2)%nat := vec_z (position particle)]> particleData in
  let particleData := <[(offset + 3)%nat := mass particle]> particleData in
  let particleData :=
    <[(offset + 4)%nat := vec_x (velocity particle)]> particleData in
  let particleData :=
    <[(offset + 5)%nat := vec_y (velocity particle)]> particleData in
  let particleData :=
    <[(offset + 6)%nat := vec_z (velocity particle)]> particleData in
  let particleData := <[(offset + 7)%nat := 0]> particleData in
  mret particleData.

Definition updateParticleBuffer (s : sim) : result (list R) :=
  if decide (particleCount s * 8 < 0)%Z then Fault RangeError
  else
    let particleData := replicate (Z.to_nat (particleCount s * 8)) 0 in
    for_loop (fun i particleData => packParticle i (particles s) particleData)
      0 (Z.to_nat (particleCount s)) particleData.

End SimpleNBodySimulation.

(** ** The camera controller *)

Module Camera.

(** [rotMatrix]: nine numbers, row by row. *)
Record mat3 : Type := Mat3 {
  m0 : R; m1 : R; m2 : R;
  m3 : R; m4 : R; m5 : R;
  m6 : R; m7 : R; m8 : R
}.

Definition identity : mat3 := Mat3 1 0 0 0 1 0 0 0 1.

(** The fields of the shared [camera] object the controller writes. *)
Record camera : Type := mkCamera {
  position : vec3;
  up : vec3
}.

Record CameraController : Type := mkController {
  cam : camera;
  isMouseDown : bool;
  lastMouseX : R;
  lastMouseY : R;
  distance : R;
  targetDistance : R;
  rotMatrix : mat3;
  smoothing : R
}.

Definition set_cam (c : CameraController) (v : camera) :=
  mkController v (isMouseDown c) (lastMouseX c) (lastMouseY c)
    (distance c) (targetDistance c) (rotMatrix c) (smoothing c).
Definition set_isMouseDown (c : CameraController) (v : bool) :=
  mkController (cam c) v (lastMouseX c) (lastMouseY c)
    (distance c) (targetDistance c) (rotMatrix c) (smoothing c).
Definition set_lastMouse (c : CameraController) (x y : R) :=
  mkController (cam c) (isMouseDown c) x y
    (distance c) (targetDistance c) (rotMatrix c) (smoothing c).
Definition set_distance (c : CameraController) (v : R) :=
  mkController (cam c) (isMouseDown c) (lastMouseX c) (lastMouseY c)
    v (targetDistance c) (rotMatrix c) (smoothing c).
Definition set_targetDistance (c : CameraController) (v : R) :=
  mkController (cam c) (isMouseDown c) (lastMouseX c) (lastMouseY c)
    (distance c) v (rotMatrix c) (smoothing c).
Definition set_rotMatrix (c : CameraController) (v : mat3) :=
  mkController (cam c) (isMouseDown c) (lastMouseX c) (lastMouseY c)
    (distance c) (targetDistance c) v (smoothing c).

Definition multiply3x3 (a b : mat3) : mat3 :=
  Mat3
    (m0 a * m0 b + m1 a * m3 b + m2 a * m6 b)
    (m0 a * m1 b + m1 a * m4 b + m2 a * m7 b)
    (m0 a * m2 b + m1 a * m5 b + m2 a * m8 b)
    (m3 a * m0 b + m4 a * m3 b + m5 a * m6 b)
    (m3 a * m1 b + m4 a * m4 b + m5 a * m7 b)
    (m3 a * m2 b + m4 a * m5 b + m5 a * m8 b)
    (m6 a * m0 b + m7 a * m3 b + m8 a * m6 b)
    (m6 a * m1 b + m7 a * m4 b + m8 a * m7 b)
    (m6 a * m2 b + m7 a * m5 b + m8 a * m8 b).

(** The matrix built by [rotateAroundAxis] from Rodrigues' formula. *)
Definition rodrigues (axisX axisY axisZ angle : R) : mat3 :=
  let cos := cos angle in
  let sin := sin angle in
  let oneMinusCos := 1 - cos in
  Mat3
    (cos + axisX * axisX * oneMinusCos)
    (axisX * axisY * oneMinusCos - axisZ * sin)
    (axisX * axisZ * oneMinusCos + axisY * sin)
    (axisY * axisX * oneMinusCos + axisZ * sin)
    (cos + axisY * axisY * oneMinusCos)
    (axisY * axisZ * oneMinusCos - axisX * sin)
    (axisZ * axisX * oneMinusCos - axisY * sin)
    (axisZ * axisY * oneMinusCos + axisX * sin)
    (cos + axisZ * axisZ * oneMinusCos).

Definition rotateAroundAxis (axisX axisY axisZ angle : R)
    (c : CameraController) : CameraController :=
  let rotMatrix' := rodrigues axisX axisY axisZ angle in
  set_rotMatrix c (multiply3x3 rotMatrix' (rotMatrix c)).

Definition rotateAroundCameraUp (angle : R) (c : CameraController)
    : CameraController :=
  let upX := m1 (rotMatrix c) in
  let upY := m4 (rotMatrix c) in
  let upZ := m7 (rotMatrix c) in
  rotateAroundAxis upX upY upZ angle c.

Definition rotateAroundCameraRight (angle : R) (c : CameraController)
    : CameraController :=
  let rightX := m0 (rotMatrix c) in
  let rightY := m3 (rotMatrix c) in
  let rightZ := m6 (rotMatrix c) in
  rotateAroundAxis rightX rightY rightZ angle c.

Definition updateCameraPosition (c : CameraController) : CameraController :=
  let x := m2 (rotMatrix c) * distance c in
  let y := m5 (rotMatrix c) * distance c in
  let z := m8 (rotMatrix c) * distance c in
  set_cam c
    (mkCamera (Vec3 x y z)
       (Vec3 (m1 (rotMatrix c)) (m4 (rotMatrix c)) (m7 (rotMatrix c)))).

(** The state the constructor leaves, for the [camera] it is given. *)
Definition constructor (camera0 : camera) : CameraController :=
  updateCameraPosition (mkController camera0 false 0 0 100 100 identity 0.1).

Definition onMouseDown (clientX clientY : R) (c : CameraController)
    : CameraController :=
  let c := set_isMouseDown c true in
  set_lastMouse c clientX clientY.

(** The part [onMouseMove] and [onTouchMove] share. *)
Definition dragTo (clientX clientY : R) (c : CameraController)
    : CameraController :=
  let deltaX := clientX - lastMouseX c in
  let deltaY := clientY - lastMouseY c in
  let rotationSpeed := 0.01 in
  let c :=
    if Rlt_dec 0.001 (Rabs deltaX)
    then rotateAroundCameraUp (- deltaX * rotationSpeed) c else c in
  let c :=
    if Rlt_dec 0.001 (Rabs deltaY)
    then rotateAroundCameraRight (- deltaY * rotationSpeed) c else c in
  let c := set_lastMouse c clientX clientY in
  updateCameraPosition c.

Definition onMouseMove (clientX clientY : R) (c : CameraController)
    : CameraController :=
  if negb (isMouseDown c) then c else dragTo clientX clientY c.

Definition onMouseUp (c : CameraController) : CameraController :=
  set_isMouseDown c false.

Definition onWheel (deltaY : R) (c : CameraController) : CameraController :=
  let zoomSpeed := 0.1 in
  let zoomDelta := if Rlt_dec 0 deltaY then 1 + zoomSpeed else 1 - zoomSpeed in
  set_targetDistance c
    (Rmax 10 (Rmin 500 (targetDistance c * zoomDelta))).

(** A touch event carries the list of its touch points. *)
Definition onTouchStart (touches : list (R * R)) (c : CameraController)
    : CameraController :=
  match touches with
  | [(clientX, clientY)] =>
      let c := set_isMouseDown c true in
      set_lastMouse c clientX clientY
  | _ => c
  end.

Definition onTouchMove (touches : list (R * R)) (c : CameraController)
    : CameraController :=
  match touches with
  | [(clientX, clientY)] =>
      if isMouseDown c then dragTo clientX clientY c else c
  | _ => c
  end.

Definition onTouchEnd (c : CameraController) : CameraController :=
  set_isMouseDown c false.

Definition update (c : CameraController) : CameraController :=
  let c :=
    set_distance c
      (distance c + (targetDistance c - distance c) * smoothing c) in
  updateCameraPosition c.

Definition reset (c : CameraController) : CameraController :=
  let c := set_distance c 100 in
  let c := set_targetDistance c 100 in
  let c := set_rotMatrix c identity in
  updateCameraPosition c.

(** What can happen to a controller: the listeners it installs and the
    two methods the application calls. *)
Inductive event : Type :=
  | MouseDown (clientX clientY : R)
  | MouseMove (clientX clientY : R)
  | MouseUp
  | Wheel (deltaY : R)
  | TouchStart (touches : list (R * R))
  | TouchMove (touches : list (R * R))
  | TouchEnd
  | Update
  | Reset.

Definition handle (c : CameraController) (e : event) : CameraController :=
  match e with
  | MouseDown x y => onMouseDown x y c
  | MouseMove x y => onMouseMove x y c
  | MouseUp => onMouseUp c
  | Wheel d => onWheel d c
  | TouchStart t => onTouchStart t c
  | TouchMove t => onTouchMove t c
  | TouchEnd => onTouchEnd c
  | Update => update c
  | Reset => reset c
  end.

Definition run (c : CameraController) (es : list event) : CameraController :=
  foldl handle c es.

(** The two rotations a drag is made of. *)
Inductive rotation : Type :=
  | AroundUp (angle : R)
  | AroundRight (angle : R).

Definition rotate (c : CameraController) (r : rotation) : CameraController :=
  match r with
  | AroundUp angle => rotateAroundCameraUp angle c
  | AroundRight angle => rotateAroundCameraRight angle c
  end.

(** Predicates of the statements. *)
Definition transpose (a : mat3) : mat3 :=
  Mat3 (m0 a) (m3 a) (m6 a) (m1 a) (m4 a) (m7 a) (m2 a) (m5 a) (m8 a).

Definition det (a : mat3) : R :=
  m0 a * (m4 a * m8 a - m5 a * m7 a)
  - m1 a * (m3 a * m8 a - m5 a * m6 a)
  + m2 a * (m3 a * m7 a - m4 a * m6 a).

(** Columns of unit length and perpendicular to each other, and the same
    for the rows. *)
Definition orthonormal (a : mat3) : Prop :=
  multiply3x3 (transpose a) a = identity /\
  multiply3x3 a (transpose a) = identity.

Definition proper_rotation (a : mat3) : Prop :=
  orthonormal a /\ det a = 1.

End Camera.

(** * Vocabulary of the statements *)

(** ** Forces *)

(** [a / |a|] *)
Definition unit_vector (a : vec3) : vec3 :=
  Vec3 (vec_x a / norm a) (vec_y a / norm a) (vec_z a / norm a).

(** The squared distance the CPU loop divides by. *)
Definition softened (a : vec3) : R := dot a a + 0.01.

(** The pair force of the CPU loop, as a function of the separation [r]
    from the particle to the other one. *)
Definition softenedPairForce (G m1 m2 : R) (r : vec3) : vec3 :=
  let force := G * m1 * m2 / softened r in
  Vec3 (force * vec_x r / sqrt (softened r))
       (force * vec_y r / sqrt (softened r))
       (force * vec_z r / sqrt (softened r)).

(** The pair force of the kernel for two particles that are apart. *)
Definition kernelPairForce (G m1 m2 : R) (r : vec3) : vec3 :=
  smul (G * m1 * m2 / dot r r) (unit_vector r).

(** The force law of the CPU loop: what the particles [ps], other than the
    one at index [i], exert on [particle]. *)
Definition softenedTerm (G : R) (particle : SimpleNBodySimulation.particle)
    (i : nat) (acc : vec3) (jo : nat * SimpleNBodySimulation.particle) : vec3 :=
  if decide (i = jo.1) then acc
  else vadd acc
         (softenedPairForce G (SimpleNBodySimulation.mass particle)
            (SimpleNBodySimulation.mass jo.2)
            (vsub (SimpleNBodySimulation.position jo.2)
                  (SimpleNBodySimulation.position particle))).

Definition softenedForce (G : R) (ps : list SimpleNBodySimulation.particle)
    (i : nat) (particle : SimpleNBodySimulation.particle) : vec3 :=
  foldl (softenedTerm G particle i) vzero (imap pair ps).

Definition softenedForces (G : R) (ps : list SimpleNBodySimulation.particle)
    : list vec3 :=
  imap (softenedForce G ps) ps.

(** ** The integration step *)

Definition accelerated (force : vec3) (m : R) : vec3 :=
  Vec3 (vec_x force / m) (vec_y force / m) (vec_z force / m).

(** The velocity after the acceleration and the damping. *)
Definition steppedVelocity (dt damp : R) (force : vec3) (m : R) (v : vec3)
    : vec3 :=
  vscale (vadd v (vscale (accelerated force m) dt)) damp.

(** The position after the move with the new velocity. *)
Definition steppedPosition (dt damp : R) (force : vec3) (m : R) (x v : vec3)
    : vec3 :=
  vadd x (vscale (steppedVelocity dt damp force m v) dt).

(** The particle after one CPU step under the force [force]. *)
Definition cpuStepped (dt damp : R) (force : vec3)
    (p : SimpleNBodySimulation.particle) : SimpleNBodySimulation.particle :=
  SimpleNBodySimulation.boundary
    (SimpleNBodySimulation.mkParticle
       (steppedPosition dt damp force (SimpleNBodySimulation.mass p)
          (SimpleNBodySimulation.position p)
          (SimpleNBodySimulation.velocity p))
       (SimpleNBodySimulation.mass p)
       (steppedVelocity dt damp force (SimpleNBodySimulation.mass p)
          (SimpleNBodySimulation.velocity p))).

(** What the boundary tests do to one coordinate and to its velocity. *)
Definition clampAxis (x : R) : R :=
  if Rlt_dec 50 (Rabs x) then sign x * 50 else x.
Definition bounceAxis (x v : R) : R :=
  if Rlt_dec 50 (Rabs x) then v * - (0.8) else v.

(** The rule of one axis: the coordinate and the velocity component after
    the test, [x'] and [v'], from those before, [x] and [v]. *)
Definition axisRule (x v x' v' : R) : Prop :=
  (50 < Rabs x -> x' = sign x * 50 /\ v' = v * - 0.8) /\
  (Rabs x <= 50 -> x' = x /\ v' = v) /\
  (x = 51 -> x' = 50 /\ v' = - 0.8 * v).

(** ** The initial store *)

(** The quantities drawn for one particle when [k] calls of [Math.random]
    have been made before. *)
Definition radiusAt (rng : nat -> R) (k : nat) : R := rng k * 20 + 5.
Definition thetaAt (rng : nat -> R) (k : nat) : R := rng (k + 1)%nat * PI * 2.
Definition phiAt (rng : nat -> R) (k : nat) : R :=
  acos (2 * rng (k + 2)%nat - 1).
Definition massAt (rng : nat -> R) (k : nat) : R :=
  rng (k + 3)%nat * 0.5 + 0.5.
Definition speedAt (rng : nat -> R) (G : R) (k : nat) : R :=
  sqrt (G * 100 / radiusAt rng k) * 0.3.
Definition positionAt (rng : nat -> R) (k : nat) : vec3 :=
  Vec3 (radiusAt rng k * sin (phiAt rng k) * cos (thetaAt rng k))
       (radiusAt rng k * sin (phiAt rng k) * sin (thetaAt rng k))
       (radiusAt rng k * cos (phiAt rng k)).
Definition velocityAt (rng : nat -> R) (G : R) (k : nat) : vec3 :=
  Vec3 (- speedAt rng G k * sin (thetaAt rng k))
       (speedAt rng G k * cos (thetaAt rng k)) 0.

(** The particle the CPU version pushes. *)
Definition sampled (rng : nat -> R) (G : R) (k : nat)
    : SimpleNBodySimulation.particle :=
  SimpleNBodySimulation.mkParticle
    (positionAt rng k) (massAt rng k) (velocityAt rng G k).

(** The particle the compute version uploads. *)
Definition uploaded (rng : nat -> R) (G : R) (k : nat) : Wgsl.Particle :=
  Wgsl.mkParticle (positionAt rng k) (massAt rng k) (velocityAt rng G k) 0.

(** The eight floats of particle [i], written in the order of the source. *)
Definition writeParticle (i : nat) (p : Wgsl.Particle) (buf : list R)
    : list R :=
  let offset := (i * 8)%nat in
  let buf := <[(offset + 0)%nat := vec_x (Wgsl.position p)]> buf in
  let buf := <[(offset + 1)%nat := vec_y (Wgsl.position p)]> buf in
  let buf := <[(offset + 2)%nat := vec_z (Wgsl.position p)]> buf in
  let buf := <[(offset + 3)%nat := Wgsl.mass p]> buf in
  let buf := <[(offset + 4)%nat := vec_x (Wgsl.velocity p)]> buf in
  let buf := <[(offset + 5)%nat := vec_y (Wgsl.velocity p)]> buf in
  let buf := <[(offset + 6)%nat := vec_z (Wgsl.velocity p)]> buf in
  let buf := <[(offset + 7)%nat := Wgsl._padding p]> buf in
  buf.

(** The buffer after the particles [start .. start + n - 1] are written. *)
Fixpoint filled (rng : nat -> R) (G : R) (start n : nat) (buf : list R)
    (k : nat) : list R :=
  match n with
  | O => buf
  | S n' =>
      filled rng G (S start) n' (writeParticle start (uploaded rng G k) buf)
        (k + 4)
  end.

(** An orbiting particle of the initial store, for gravity strength [G]. *)
Definition orbiting (G : R) (p : Wgsl.Particle) : Prop :=
  let radius := norm (Wgsl.position p) in
  5 <= radius < 25 /\
  0.5 <= Wgsl.mass p < 1.0 /\
  norm (Wgsl.velocity p) = sqrt (G * 100 / radius) * 0.3 /\
  dot (Wgsl.velocity p) (Wgsl.position p) = 0 /\
  vec_z (Wgsl.velocity p) = 0.

(** A generator that always returns 0. *)
Definition still : nat -> R := fun _ => 0.

(** ** Mirror symmetry *)

Definition mirrored (x v x' v' : vec3) : Prop := x' = vneg x /\ v' = vneg v.

Definition cpuMirrored (a b : SimpleNBodySimulation.particle) : Prop :=
  mirrored (SimpleNBodySimulation.position a) (SimpleNBodySimulation.velocity a)
           (SimpleNBodySimulation.position b) (SimpleNBodySimulation.velocity b) /\
  SimpleNBodySimulation.mass b = SimpleNBodySimulation.mass a.

Definition wgslMirrored (a b : Wgsl.Particle) : Prop :=
  mirrored (Wgsl.position a) (Wgsl.velocity a)
           (Wgsl.position b) (Wgsl.velocity b) /\
  Wgsl.mass b = Wgsl.mass a.

(** ** Configurations the examples are run on *)

(** Two unit masses one unit apart. *)
Definition cpuA : SimpleNBodySimulation.particle :=
  SimpleNBodySimulation.mkParticle (Vec3 0 0 0) 1 (Vec3 0 0 0).
Definition cpuB : SimpleNBodySimulation.particle :=
  SimpleNBodySimulation.mkParticle (Vec3 1 0 0) 1 (Vec3 0 0 0).
Definition cpu2 : SimpleNBodySimulation.sim :=
  SimpleNBodySimulation.mkSim 2 1 1 1 [cpuA; cpuB].
Definition params2 : Wgsl.SimParams := Wgsl.mkSimParams 2 0.016 1 1.
Definition gpu2 : Wgsl.Buffers :=
  Wgsl.mkBuffers
    [SimpleNBodySimulation.pack cpuA; SimpleNBodySimulation.pack cpuB]
    [vzero; vzero].

(** One frame of the two kernels, for the parameter block [params] as the
    kernels read it: a dispatch of [groups] workgroups of [computeForces],
    then one of [integrateParticles]. *)
Definition kernelFrame (groups : nat) (params : Wgsl.SimParams)
    (b : Wgsl.Buffers) : result Wgsl.Buffers :=
  b ← NBodySimulation.dispatchWorkgroups (Wgsl.computeForces params) groups b;
  NBodySimulation.dispatchWorkgroups (Wgsl.integrateParticles params) groups b.

(** Two unit masses at [(±1, 0, 0)] that approach each other at speed 0.75,
    with a time step, a gravity strength and a damping of 1: the first step
    brings both to the origin. *)
Definition contactParams : Wgsl.SimParams := Wgsl.mkSimParams 2 1 1 1.
Definition contactA : Wgsl.Particle :=
  Wgsl.mkParticle (Vec3 1 0 0) 1 (Vec3 (-0.75) 0 0) 0.
Definition contactB : Wgsl.Particle :=
  Wgsl.mkParticle (Vec3 (-1) 0 0) 1 (Vec3 0.75 0 0) 0.
Definition contact : Wgsl.Buffers :=
  Wgsl.mkBuffers [contactA; contactB] [vzero; vzero].
Definition touchingA : Wgsl.Particle :=
  Wgsl.mkParticle (Vec3 0 0 0) 1 (Vec3 (-1) 0 0) 0.
Definition touchingB : Wgsl.Particle :=
  Wgsl.mkParticle (Vec3 0 0 0) 1 (Vec3 1 0 0) 0.
Definition touching : Wgsl.Buffers :=
  Wgsl.mkBuffers [touchingA; touchingB] [Vec3 (-0.25) 0 0; Vec3 0.25 0 0].

(** The same two bodies in the CPU version ([deltaTime * timeScale = 1]). *)
Definition cpuContactA : SimpleNBodySimulation.particle :=
  SimpleNBodySimulation.mkParticle (Vec3 1 0 0) 1 (Vec3 (-0.75) 0 0).
Definition cpuContactB : SimpleNBodySimulation.particle :=
  SimpleNBodySimulation.mkParticle (Vec3 (-1) 0 0) 1 (Vec3 0.75 0 0).
Definition cpuContact : SimpleNBodySimulation.sim :=
  SimpleNBodySimulation.mkSim 2 1 1 1 [cpuContactA; cpuContactB].

(** The two bodies of the end-to-end scenario. *)
Definition bodyA : SimpleNBodySimulation.particle :=
  SimpleNBodySimulation.mkParticle (Vec3 (-10) 0 0) 1 (Vec3 0 0 0).
Definition bodyB : SimpleNBodySimulation.particle :=
  SimpleNBodySimulation.mkParticle (Vec3 10 0 0) 1 (Vec3 0 0 0).
Definition twoBodies : SimpleNBodySimulation.sim :=
  SimpleNBodySimulation.mkSim 2 1 1 1 [bodyA; bodyB].

(** ** Camera events *)

(** The events that come from the pointer, the wheel and the touch screen. *)
Definition isInput (e : Camera.event) : bool :=
  match e with
  | Camera.Update | Camera.Reset => false
  | _ => true
  end.

(** * The rest of the pipeline: matrices, uniforms, the vertex shader *)

(** A [Float32Array] of sixteen numbers, and the [mat4x4<f32>] the shaders
    read from it: four columns of four rows, [e(4 c + r)] at column [c] and
    row [r]. *)
Record mat4x4 : Type := Mat4x4 {
  e0 : R; e1 : R; e2 : R; e3 : R;
  e4 : R; e5 : R; e6 : R; e7 : R;
  e8 : R; e9 : R; e10 : R; e11 : R;
  e12 : R; e13 : R; e14 : R; e15 : R
}.

Record vec4 : Type := Vec4 { v4_x : R; v4_y : R; v4_z : R; v4_w : R }.

(** [a < b] as a JavaScript condition. *)
Definition Rltb (a b : R) : bool := if Rlt_dec a b then true else false.

(** [Math.tan]: not finite where the cosine vanishes. *)
Definition ftan (a : R) : result R :=
  if Req_dec_T (cos a) 0 then Fault NonFinite else Ok (tan a).

(** ** gl-matrix.js *)

Module GlMatrix.

Module vec3.

Definition fromValues (x y z : R) : vec3 := Vec3 x y z.

Definition length (a : vec3) : result R :=
  fsqrt (vec_x a * vec_x a + vec_y a * vec_y a + vec_z a * vec_z a).

(** [out] is written only when the length is positive. *)
Definition normalize (out a : vec3) : result vec3 :=
  len ← length a;
  if Rlt_dec 0 len then
    o0 ← fdiv (vec_x a) len;
    o1 ← fdiv (vec_y a) len;
    o2 ← fdiv (vec_z a) len;
    mret (Vec3 o0 o1 o2)
  else mret out.

Definition subtract (out a b : vec3) : vec3 :=
  Vec3 (vec_x a - vec_x b) (vec_y a - vec_y b) (vec_z a - vec_z b).

End vec3.

Module mat4.

Definition create : mat4x4 :=
  Mat4x4 1 0 0 0
         0 1 0 0
         0 0 1 0
         0 0 0 1.

(** Every element of [out] is assigned. *)
Definition identity (out : mat4x4) : mat4x4 :=
  Mat4x4 1 0 0 0
         0 1 0 0
         0 0 1 0
         0 0 0 1.

Definition multiply (out a b : mat4x4) : mat4x4 :=
  let a00 := e0 a in let a01 := e1 a in let a02 := e2 a in let a03 := e3 a in
  let a10 := e4 a in let a11 := e5 a in let a12 := e6 a in let a13 := e7 a in
  let a20 := e8 a in let a21 := e9 a in let a22 := e10 a in
  let a23 := e11 a in
  let a30 := e12 a in let a31 := e13 a in let a32 := e14 a in
  let a33 := e15 a in
  let b0 := e0 b in let b1 := e1 b in let b2 := e2 b in let b3 := e3 b in
  let o0 := b0 * a00 + b1 * a10 + b2 * a20 + b3 * a30 in
  let o1 := b0 * a01 + b1 * a11 + b2 * a21 + b3 * a31 in
  let o2 := b0 * a02 + b1 * a12 + b2 * a22 + b3 * a32 in
  let o3 := b0 * a03 + b1 * a13 + b2 * a23 + b3 * a33 in
  let b0 := e4 b in let b1 := e5 b in let b2 := e6 b in let b3 := e7 b in
  let o4 := b0 * a00 + b1 * a10 + b2 * a20 + b3 * a30 in
  let o5 := b0 * a01 + b1 * a11 + b2 * a21 + b3 * a31 in
  let o6 := b0 * a02 + b1 * a12 + b2 * a22 + b3 * a32 in
  let o7 := b0 * a03 + b1 * a13 + b2 * a23 + b3 * a33 in
  let b0 := e8 b in let b1 := e9 b in let b2 := e10 b in let b3 := e11 b in
  let o8 := b0 * a00 + b1 * a10 + b2 * a20 + b3 * a30 in
  let o9 := b0 * a01 + b1 * a11 + b2 * a21 + b3 * a31 in
  let o10 := b0 * a02 + b1 * a12 + b2 * a22 + b3 * a32 in
  let o11 := b0 * a03 + b1 * a13 + b2 * a23 + b3 * a33 in
  let b0 := e12 b in let b1 := e13 b in let b2 := e14 b in let b3 := e15 b in
  let o12 := b0 * a00 + b1 * a10 + b2 * a20 + b3 * a30 in
  let o13 := b0 * a01 + b1 * a11 + b2 * a21 + b3 * a31 in
  let o14 := b0 * a02 + b1 * a12 + b2 * a22 + b3 * a32 in
  let o15 := b0 * a03 + b1 * a13 + b2 * a23 + b3 * a33 in
  Mat4x4 o0 o1 o2 o3 o4 o5 o6 o7 o8 o9 o10 o11 o12 o13 o14 o15.

(** The block that [lookAt] runs twice, for its first and its second axis:
    the vector is normalized, or set to zero when its length is zero. *)
Definition axis (a0 a1 a2 : R) : result vec3 :=
  len ← fsqrt (a0 * a0 + a1 * a1 + a2 * a2);
  if Req_dec_T len 0 then mret (Vec3 0 0 0)
  else
    len ← fdiv 1 len;
    mret (Vec3 (a0 * len) (a1 * len) (a2 * len)).

Definition lookAt (out : mat4x4) (eye center up : vec3) : result mat4x4 :=
  let eyex := vec_x eye in
  let eyey := vec_y eye in
  let eyez := vec_z eye in
  let upx := vec_x up in
  let upy := vec_y up in
  let upz := vec_z up in
  let centerx := vec_x center in
  let centery := vec_y center in
  let centerz := vec_z center in
  if Rltb (Rabs (eyex - centerx)) 0.000001 &&
     Rltb (Rabs (eyey - centery)) 0.000001 &&
     Rltb (Rabs (eyez - centerz)) 0.000001
  then mret (identity out)
  else
    let z0 := eyex - centerx in
    let z1 := eyey - centery in
    let z2 := eyez - centerz in
    root ← fsqrt (z0 * z0 + z1 * z1 + z2 * z2);
    len ← fdiv 1 root;
    let z0 := z0 * len in
    let z1 := z1 * len in
    let z2 := z2 * len in
    x ← axis (upy * z2 - upz * z1) (upz * z0 - upx * z2)
             (upx * z1 - upy * z0);
    let x0 := vec_x x in
    let x1 := vec_y x in
    let x2 := vec_z x in
    y ← axis (z1 * x2 - z2 * x1) (z2 * x0 - z0 * x2) (z0 * x1 - z1 * x0);
    let y0 := vec_x y in
    let y1 := vec_y y in
    let y2 := vec_z y in
    mret (Mat4x4 x0 y0 z0 0
                 x1 y1 z1 0
                 x2 y2 z2 0
                 (- (x0 * eyex + x1 * eyey + x2 * eyez))
                 (- (y0 * eyex + y1 * eyey + y2 * eyez))
                 (- (z0 * eyex + z1 * eyey + z2 * eyez))
                 1).

Definition perspective (out : mat4x4) (fovy aspect near far : R)
    : result mat4x4 :=
  t ← ftan (fovy / 2);
  f ← fdiv 1.0 t;
  nf ← fdiv 1 (near - far);
  o0 ← fdiv f aspect;
  mret (Mat4x4 o0 0 0 0
               0 f 0 0
               0 0 ((far + near) * nf) (-1)
               0 0 (2 * far * near * nf) 0).

End mat4.

End GlMatrix.

(** ** particle-vertex-quad.wgsl *)

Module QuadShader.

Record Uniforms : Type := mkUniforms {
  viewProjectionMatrix : mat4x4;
  viewMatrix : mat4x4;
  cameraPosition : vec3;
  time : R
}.

Record VertexOutput : Type := mkVertexOutput {
  position : vec4;
  color : vec3;
  uv : R * R
}.

Definition QUAD_VERTICES : list (R * R) :=
  [(-1, -1); (1, -1); (-1, 1); (1, -1); (1, 1); (-1, 1)].

Definition QUAD_UVS : list (R * R) :=
  [(0, 0); (1, 0); (0, 1); (1, 0); (1, 1); (0, 1)].

(** WGSL [clamp(e, low, high) = min(max(e, low), high)] *)
Definition clamp (e low high : R) : R := Rmin (Rmax e low) high.

(** WGSL [m * v] for a [mat4x4<f32>] and a [vec4<f32>] *)
Definition transform (m : mat4x4) (v : vec4) : vec4 :=
  Vec4 (e0 m * v4_x v + e4 m * v4_y v + e8 m * v4_z v + e12 m * v4_w v)
       (e1 m * v4_x v + e5 m * v4_y v + e9 m * v4_z v + e13 m * v4_w v)
       (e2 m * v4_x v + e6 m * v4_y v + e10 m * v4_z v + e14 m * v4_w v)
       (e3 m * v4_x v + e7 m * v4_y v + e11 m * v4_z v + e15 m * v4_w v).

(** The two camera axes the billboard is built on: [viewMatrix[c][0]] and
    [viewMatrix[c][1]] for the columns [c = 0, 1, 2]. *)
Definition rightVector (uniforms : Uniforms) : vec3 :=
  Vec3 (e0 (viewMatrix uniforms)) (e4 (viewMatrix uniforms))
       (e8 (viewMatrix uniforms)).
Definition upVector (uniforms : Uniforms) : vec3 :=
  Vec3 (e1 (viewMatrix uniforms)) (e5 (viewMatrix uniforms))
       (e9 (viewMatrix uniforms)).

(** The corner of the quad in world space. *)
Definition worldPos (uniforms : Uniforms) (particle : Wgsl.Particle)
    (quadVertex : R * R) : vec3 :=
  let baseSize := 0.5 in
  let size := baseSize * Wgsl.mass particle in
  let offset :=
    vadd (vscale (rightVector uniforms) (quadVertex.1 * size))
         (vscale (upVector uniforms) (quadVertex.2 * size)) in
  vadd (Wgsl.position particle) offset.

(** The colour, from the speed. *)
Definition speedColor (particle : Wgsl.Particle) : result vec3 :=
  speed ← vlength (Wgsl.velocity particle);
  q ← fdiv speed 10.0;
  let normalizedSpeed := clamp q 0.0 1.0 in
  mret (Vec3 normalizedSpeed
             (0.3 + 0.7 * (1.0 - normalizedSpeed))
             (1.0 - normalizedSpeed)).

Definition vs_main (particles : list Wgsl.Particle) (uniforms : Uniforms)
    (vertexIndex : nat) : result VertexOutput :=
  let particleIndex := (vertexIndex / 6)%nat in
  let quadVertexIndex := (vertexIndex mod 6)%nat in
  particle ← load particles particleIndex;
  quadVertex ← load QUAD_VERTICES quadVertexIndex;
  uv ← load QUAD_UVS quadVertexIndex;
  let worldPos := worldPos uniforms particle quadVertex in
  let position :=
    transform (viewProjectionMatrix uniforms)
      (Vec4 (vec_x worldPos) (vec_y worldPos) (vec_z worldPos) 1.0) in
  color ← speedColor particle;
  mret (mkVertexOutput position color uv).

(** [draw(vertexCount)]: one invocation of [vs_main] per vertex index. *)
Definition draw (particles : list Wgsl.Particle) (uniforms : Uniforms)
    (vertexCount : nat) : result (list VertexOutput) :=
  for_loop
    (fun vertexIndex vertices =>
       output ← vs_main particles uniforms vertexIndex;
       mret (vertices ++ [output]))
    0 vertexCount [].

End QuadShader.

(** ** What the host writes and the shaders read *)

Module Layout.

(** The sixteen numbers of a matrix, as [Float32Array.set] copies them. *)
Definition elements (m : mat4x4) : list R :=
  [e0 m; e1 m; e2 m; e3 m; e4 m; e5 m; e6 m; e7 m;
   e8 m; e9 m; e10 m; e11 m; e12 m; e13 m; e14 m; e15 m].

Definition components (v : vec3) : list R := [vec_x v; vec_y v; vec_z v].

(** [dst.set(src, offset)]: a [RangeError] when [src] does not fit. *)
Definition set (dst src : list R) (offset : nat) : result (list R) :=
  if decide (offset + length src <= length dst)%nat
  then Ok (take offset dst ++ src ++ drop (offset + length src) dst)
  else Fault RangeError.

(** A [mat4x4<f32>] at a float offset of a buffer. *)
Definition matrixAt (data : list R) (offset : nat) : option mat4x4 :=
  match take 16 (drop offset data) with
  | [a0; a1; a2; a3; a4; a5; a6; a7; a8; a9; a10; a11; a12; a13; a14; a15] =>
      Some (Mat4x4 a0 a1 a2 a3 a4 a5 a6 a7 a8 a9 a10 a11 a12 a13 a14 a15)
  | _ => None
  end.

(** The [Uniforms] of particle-vertex-quad.wgsl in a uniform buffer: two
    matrices, then the camera position and the time, 36 floats. *)
Definition uniformsOf (data : list R) : option QuadShader.Uniforms :=
  viewProjectionMatrix ← matrixAt data 0;
  viewMatrix ← matrixAt data 16;
  x ← data !! 32%nat;
  y ← data !! 33%nat;
  z ← data !! 34%nat;
  time ← data !! 35%nat;
  mret (QuadShader.mkUniforms viewProjectionMatrix viewMatrix (Vec3 x y z)
          time).

(** The [array<Particle>] a storage buffer holds: one element per eight
    floats. *)
Definition storage (data : list R) : list Wgsl.Particle :=
  omap (NBodySimulation.particleAt data) (seq 0 (length data / 8)).

End Layout.

(** ** Rendering in the CPU version *)

Module SimpleNBodyRender.

(** The fields of the [camera] object next to [position] and [up]. *)
Record lens : Type := mkLens {
  target : vec3;
  fovy : R;
  aspect : R;
  near : R;
  far : R
}.

(** The values of the constructor, with the [aspect] that [init] sets from
    the size of the canvas. *)
Definition init (width height : R) : result lens :=
  aspect ← fdiv width height;
  mret (mkLens (GlMatrix.vec3.fromValues 0 0 0) (PI / 4) aspect 0.1 1000).

(** The 36 floats written to the uniform buffer. *)
Definition updateUniforms (camera : Camera.camera) (l : lens) (time : R)
    : result (list R) :=
  let viewMatrix := GlMatrix.mat4.create in
  let projMatrix := GlMatrix.mat4.create in
  let viewProjMatrix := GlMatrix.mat4.create in
  viewMatrix ←
    GlMatrix.mat4.lookAt viewMatrix (Camera.position camera) (target l)
      (Camera.up camera);
  projMatrix ←
    GlMatrix.mat4.perspective projMatrix (fovy l) (aspect l) (near l) (far l);
  let viewProjMatrix :=
    GlMatrix.mat4.multiply viewProjMatrix projMatrix viewMatrix in
  let uniformData := replicate 36 0 in
  uniformData ← Layout.set uniformData (Layout.elements viewProjMatrix) 0;
  uniformData ← Layout.set uniformData (Layout.elements viewMatrix) 16;
  uniformData ←
    Layout.set uniformData (Layout.components (Camera.position camera)) 32;
  let uniformData := <[35%nat := time]> uniformData in
  mret uniformData.

(** One frame: the controller, when there is one, the physics step, the
    two uploads and the draw call.  The [camera] object is the one of the
    controller when there is one.  The timers and the frame counter are
    not part of the model. *)
Definition render (time : R) (l : lens)
    (cameraController : option Camera.CameraController)
    (camera : Camera.camera) (s : SimpleNBodySimulation.sim)
    : result (option Camera.CameraController * SimpleNBodySimulation.sim *
              list QuadShader.VertexOutput) :=
  let cameraController := Camera.update <$> cameraController in
  let camera :=
    match cameraController with
    | Some c => Camera.cam c
    | None => camera
    end in
  s ← SimpleNBodySimulation.updatePhysics 0.016 s;
  particleData ← SimpleNBodySimulation.updateParticleBuffer s;
  uniformData ← updateUniforms camera l time;
  uniforms ←
    match Layout.uniformsOf uniformData with
    | Some u => Ok u
    | None => Fault OutOfBounds
    end;
  vertices ←
    QuadShader.draw (Layout.storage particleData) uniforms
      (Z.to_nat (SimpleNBodySimulation.particleCount s * 6));
  mret (cameraController, s, vertices).

End SimpleNBodyRender.

(** ** Rendering in the compute version *)

Module NBodyRender.

(** The two arrays [updateUniforms] writes: the 20 floats of the uniform
    buffer and the four parameters of the kernels. *)
Definition updateUniforms (camera : Camera.camera)
    (l : SimpleNBodyRender.lens) (s : NBodySimulation.sim) (time : R)
    : result (list R * list R) :=
  let viewMatrix := GlMatrix.mat4.create in
  let projMatrix := GlMatrix.mat4.create in
  let viewProjMatrix := GlMatrix.mat4.create in
  viewMatrix ←
    GlMatrix.mat4.lookAt viewMatrix (Camera.position camera)
      (SimpleNBodyRender.target l) (Camera.up camera);
  projMatrix ←
    GlMatrix.mat4.perspective projMatrix (SimpleNBodyRender.fovy l)
      (SimpleNBodyRender.aspect l) (SimpleNBodyRender.near l)
      (SimpleNBodyRender.far l);
  let viewProjMatrix :=
    GlMatrix.mat4.multiply viewProjMatrix projMatrix viewMatrix in
  let uniformData := replicate 20 0 in
  uniformData ← Layout.set uniformData (Layout.elements viewProjMatrix) 0;
  uniformData ←
    Layout.set uniformData (Layout.components (Camera.position camera)) 16;
  let uniformData := <[19%nat := time]> uniformData in
  let paramData :=
    [IZR (NBodySimulation.particleCount s);
     0.016 * NBodySimulation.timeScale s;
     NBodySimulation.gravityStrength s;
     NBodySimulation.damping s] in
  mret (uniformData, paramData).

End NBodyRender.

(** ** The camera frame *)

(** The columns of [rotMatrix]: the right, the up and the forward axis of
    the camera. *)
Definition rightColumn (a : Camera.mat3) : vec3 :=
  Vec3 (Camera.m0 a) (Camera.m3 a) (Camera.m6 a).
Definition upColumn (a : Camera.mat3) : vec3 :=
  Vec3 (Camera.m1 a) (Camera.m4 a) (Camera.m7 a).
Definition forwardColumn (a : Camera.mat3) : vec3 :=
  Vec3 (Camera.m2 a) (Camera.m5 a) (Camera.m8 a).

(** The shared [camera] object agrees with the state of the controller. *)
Definition coherent (c : Camera.CameraController) : Prop :=
  Camera.position (Camera.cam c)
  = vscale (forwardColumn (Camera.rotMatrix c)) (Camera.distance c) /\
  Camera.up (Camera.cam c) = upColumn (Camera.rotMatrix c).

(** Both distances within the clamp of the wheel. *)
Definition zoomRange (c : Camera.CameraController) : Prop :=
  10 <= Camera.targetDistance c <= 500 /\
  10 <= Camera.distance c <= 500 /\
  Camera.smoothing c = 0.1.

(** ** The view and the projection *)

Definition cross (a b : vec3) : vec3 :=
  Vec3 (vec_y a * vec_z b - vec_z a * vec_y b)
       (vec_z a * vec_x b - vec_x a * vec_z b)
       (vec_x a * vec_y b - vec_y a * vec_x b).

(** [a / |a|], and zero for the zero vector. *)
Definition unit_or_zero (a : vec3) : vec3 :=
  if Req_dec_T (norm a) 0 then vzero else vscale a (1 / norm a).

(** The test of [lookAt] for an eye that is at the centre. *)
Definition coincident (eye center : vec3) : Prop :=
  Rabs (vec_x eye - vec_x center) < 0.000001 /\
  Rabs (vec_y eye - vec_y center) < 0.000001 /\
  Rabs (vec_z eye - vec_z center) < 0.000001.

(** The three axes of a view matrix: its rows, as the shaders read them. *)
Definition xAxis (m : mat4x4) : vec3 := Vec3 (e0 m) (e4 m) (e8 m).
Definition yAxis (m : mat4x4) : vec3 := Vec3 (e1 m) (e5 m) (e9 m).
Definition zAxis (m : mat4x4) : vec3 := Vec3 (e2 m) (e6 m) (e10 m).

(** A point of space, as the vertex shader passes it to a matrix. *)
Definition point (a : vec3) : vec4 := Vec4 (vec_x a) (vec_y a) (vec_z a) 1.

(** ** The box *)

(** A position inside the box of the boundary test. *)
Definition inBox (x : vec3) : Prop :=
  Rabs (vec_x x) <= 50 /\ Rabs (vec_y x) <= 50 /\ Rabs (vec_z x) <= 50.

(** ** Sums of forces *)

Definition vsum (l : list vec3) : vec3 := foldr vadd vzero l.

(** What [q] adds to the force on [p] in the CPU loop. *)
Definition cpuPull (G : R) (p q : SimpleNBodySimulation.particle) : vec3 :=
  softenedPairForce G (SimpleNBodySimulation.mass p)
    (SimpleNBodySimulation.mass q)
    (vsub (SimpleNBodySimulation.position q)
          (SimpleNBodySimulation.position p)).

(** * Proofs *)

(** ** The result monad, arrays and loops *)

Lemma bind_Ok_inv {A B} (m : result A) (k : A -> result B) b :
  (m ≫= k) = Ok b -> exists a, m = Ok a /\ k a = Ok b.
Proof. destruct m as [a | f]; simpl; [eauto | discriminate]. Qed.

Lemma fdiv_ok a b : b <> 0 -> fdiv a b = Ok (a / b).
Proof.
  intros H. unfold fdiv.
  destruct (Req_dec_T b 0); [contradiction | reflexivity].
Qed.

Lemma fdiv_zero a : fdiv a 0 = Fault NonFinite.
Proof.
  unfold fdiv. destruct (Req_dec_T 0 0); [reflexivity | contradiction].
Qed.

Lemma fsqrt_ok a : 0 <= a -> fsqrt a = Ok (sqrt a).
Proof.
  intros H. unfold fsqrt. destruct (Rlt_dec a 0); [lra | reflexivity].
Qed.

Lemma facos_ok a : -1 <= a <= 1 -> facos a = Ok (acos a).
Proof.
  intros [H1 H2]. unfold facos.
  destruct (Rlt_dec a (-1)); [lra |].
  destruct (Rlt_dec 1 a); [lra | reflexivity].
Qed.

Lemma load_Some {A} (l : list A) i a : l !! i = Some a -> load l i = Ok a.
Proof. intros H. unfold load. rewrite H. reflexivity. Qed.

Lemma load_Ok_inv {A} (l : list A) i a : load l i = Ok a -> l !! i = Some a.
Proof. unfold load. destruct (l !! i); [congruence | discriminate]. Qed.

Lemma store_ok {A} (l : list A) i a :
  (i < length l)%nat -> store l i a = Ok (<[i := a]> l).
Proof.
  intros H. unfold store.
  destruct (decide (i < length l)%nat); [reflexivity | contradiction].
Qed.

Lemma store_Ok_inv {A} (l l' : list A) i a :
  store l i a = Ok l' -> (i < length l)%nat /\ l' = <[i := a]> l.
Proof.
  unfold store. destruct (decide (i < length l)%nat); [| discriminate].
  intros E. injection E as <-. split; [assumption | reflexivity].
Qed.

Lemma for_loop_app {St} (body : nat -> St -> result St) n m : forall start s,
  for_loop body start (n + m) s =
  (for_loop body start n s ≫= for_loop body (start + n) m).
Proof.
  induction n as [| n IH]; intros start s; simpl.
  - rewrite Nat.add_0_r. reflexivity.
  - destruct (body start s) as [s' | f]; simpl; [| reflexivity].
    rewrite IH. replace (S start + n)%nat with (start + S n)%nat by lia.
    reflexivity.
Qed.

Lemma for_loop_noop {St} (body : nat -> St -> result St) n : forall start s,
  (forall i, (start <= i)%nat -> body i s = Ok s) ->
  for_loop body start n s = Ok s.
Proof.
  induction n as [| n IH]; intros start s H; simpl; [reflexivity |].
  rewrite H by lia. simpl. apply IH. intros i Hi. apply H. lia.
Qed.

(** ** Vectors *)

Lemma vec3_eq x y z x' y' z' :
  x = x' -> y = y' -> z = z' -> Vec3 x y z = Vec3 x' y' z'.
Proof. congruence. Qed.

Lemma vec3_eq_dec (a b : vec3) : {a = b} + {a <> b}.
Proof.
  destruct a as [ax ay az], b as [bx by_ bz].
  destruct (Req_dec_T ax bx) as [-> | Hx]; [| right; congruence].
  destruct (Req_dec_T ay by_) as [-> | Hy]; [| right; congruence].
  destruct (Req_dec_T az bz) as [-> | Hz]; [| right; congruence].
  left. reflexivity.
Qed.

Lemma dot_self_nonneg a : 0 <= dot a a.
Proof. unfold dot. nra. Qed.

Lemma dot_self_zero a : dot a a = 0 -> a = vzero.
Proof.
  destruct a as [x y z]. unfold dot, vzero. simpl. intros H.
  assert (x = 0) by nra. assert (y = 0) by nra. assert (z = 0) by nra.
  subst. reflexivity.
Qed.

Lemma dot_self_pos a : a <> vzero -> 0 < dot a a.
Proof.
  intros H.
  destruct (Rle_lt_or_eq_dec _ _ (dot_self_nonneg a)) as [Hlt | Heq];
    [exact Hlt |].
  exfalso. apply H, dot_self_zero. symmetry. exact Heq.
Qed.

Lemma norm_pos a : a <> vzero -> 0 < norm a.
Proof. intros H. unfold norm. apply sqrt_lt_R0, dot_self_pos, H. Qed.

Lemma vsub_zero_eq a b : vsub a b = vzero -> a = b.
Proof.
  destruct a, b. unfold vsub, vzero. simpl. intros H.
  injection H as H1 H2 H3. f_equal; lra.
Qed.

Lemma vsub_apart a b : a <> b -> vsub a b <> vzero.
Proof. intros H E. apply H, vsub_zero_eq, E. Qed.

Lemma vneg_involutive a : vneg (vneg a) = a.
Proof. destruct a. unfold vneg. simpl. apply vec3_eq; ring. Qed.

Lemma dot_vneg a : dot (vneg a) (vneg a) = dot a a.
Proof. unfold dot, vneg. simpl. ring. Qed.

Lemma norm_vneg a : norm (vneg a) = norm a.
Proof. unfold norm. rewrite dot_vneg. reflexivity. Qed.

Lemma vsub_swap a b : vsub a b = vneg (vsub b a).
Proof. unfold vsub, vneg. simpl. apply vec3_eq; ring. Qed.

Lemma vdiv_ok a k : k <> 0 -> vdiv a k = Ok (accelerated a k).
Proof. intros H. unfold vdiv. rewrite !fdiv_ok by exact H. reflexivity. Qed.

Lemma normalize_ok a : a <> vzero -> normalize a = Ok (unit_vector a).
Proof.
  intros H. unfold normalize, vlength.
  rewrite fsqrt_ok by apply dot_self_nonneg. simpl.
  apply vdiv_ok. pose proof (norm_pos a H) as Hn. unfold norm in Hn. lra.
Qed.

(** ** The force kernel and the force loop *)

Lemma softened_pos a : 0 < softened a.
Proof. unfold softened. pose proof (dot_self_nonneg a). lra. Qed.

Lemma softened_vneg a : softened (vneg a) = softened a.
Proof. unfold softened. rewrite dot_vneg. reflexivity. Qed.

Lemma wgsl_pairForce_kernel params p q :
  Wgsl.position p <> Wgsl.position q ->
  Wgsl.pairForce params p q =
    Ok (kernelPairForce (Wgsl.gravityStrength params) (Wgsl.mass p)
          (Wgsl.mass q) (vsub (Wgsl.position q) (Wgsl.position p))).
Proof.
  intros Hne. unfold Wgsl.pairForce.
  set (r := vsub (Wgsl.position q) (Wgsl.position p)).
  assert (Hr : r <> vzero) by (apply vsub_apart; congruence).
  pose proof (dot_self_pos r Hr) as Hpos.
  rewrite fsqrt_ok by lra. simpl.
  rewrite fdiv_ok by lra. simpl.
  rewrite normalize_ok by exact Hr. reflexivity.
Qed.

Lemma wgsl_pairForce_coincident params p q :
  Wgsl.position p = Wgsl.position q ->
  Wgsl.pairForce params p q = Fault NonFinite.
Proof.
  intros E. unfold Wgsl.pairForce. rewrite E.
  assert (Hz : dot (vsub (Wgsl.position q) (Wgsl.position q))
                   (vsub (Wgsl.position q) (Wgsl.position q)) = 0)
    by (unfold dot, vsub; simpl; ring).
  rewrite Hz. rewrite fsqrt_ok by lra. simpl. rewrite fdiv_zero. reflexivity.
Qed.

Lemma cpu_pairForce_softened G p q :
  SimpleNBodySimulation.pairForce G p q =
    Ok (softenedPairForce G (SimpleNBodySimulation.mass p)
          (SimpleNBodySimulation.mass q)
          (vsub (SimpleNBodySimulation.position q)
                (SimpleNBodySimulation.position p))).
Proof.
  unfold SimpleNBodySimulation.pairForce.
  set (r := vsub (SimpleNBodySimulation.position q)
                 (SimpleNBodySimulation.position p)).
  pose proof (softened_pos r) as Hpos.
  change (vec_x (SimpleNBodySimulation.position q)
          - vec_x (SimpleNBodySimulation.position p)) with (vec_x r).
  change (vec_y (SimpleNBodySimulation.position q)
          - vec_y (SimpleNBodySimulation.position p)) with (vec_y r).
  change (vec_z (SimpleNBodySimulation.position q)
          - vec_z (SimpleNBodySimulation.position p)) with (vec_z r).
  change (vec_x r * vec_x r + vec_y r * vec_y r + vec_z r * vec_z r + 0.01)
    with (softened r).
  rewrite fsqrt_ok by lra. simpl.
  rewrite fdiv_ok by lra. simpl.
  assert (Hs : sqrt (softened r) <> 0).
  { intros E. apply sqrt_eq_0 in E; lra. }
  rewrite !fdiv_ok by exact Hs. reflexivity.
Qed.

Lemma cpu_pairForce_coincident G p q :
  SimpleNBodySimulation.position p = SimpleNBodySimulation.position q ->
  SimpleNBodySimulation.pairForce G p q = Ok vzero.
Proof.
  intros E. rewrite cpu_pairForce_softened, E.
  unfold softenedPairForce, vzero, vsub. simpl.
  f_equal. apply vec3_eq; unfold Rdiv; ring.
Qed.

Lemma softenedPairForce_vneg G m1 m2 r :
  softenedPairForce G m1 m2 (vneg r) = vneg (softenedPairForce G m2 m1 r).
Proof.
  unfold softenedPairForce. rewrite softened_vneg. unfold vneg. simpl.
  apply vec3_eq; unfold Rdiv; ring.
Qed.

Lemma kernelPairForce_vneg G m1 m2 r :
  kernelPairForce G m1 m2 (vneg r) = vneg (kernelPairForce G m2 m1 r).
Proof.
  unfold kernelPairForce, unit_vector. rewrite dot_vneg, norm_vneg.
  unfold smul, vneg. simpl. apply vec3_eq; unfold Rdiv; ring.
Qed.

(** The CPU pair force points the way the kernel's does. *)
Lemma softened_parallel_to_kernel G m1 m2 r :
  r <> vzero ->
  let k := dot r r * norm r / (softened r * sqrt (softened r)) in
  0 < k /\ softenedPairForce G m1 m2 r = smul k (kernelPairForce G m1 m2 r).
Proof.
  intros Hr k.
  pose proof (norm_pos r Hr) as Hn.
  pose proof (softened_pos r) as Hs.
  pose proof (dot_self_pos r Hr) as Hd.
  assert (Hq : 0 < sqrt (softened r)) by (apply sqrt_lt_R0; exact Hs).
  split.
  - unfold k. apply Rdiv_lt_0_compat; apply Rmult_lt_0_compat; assumption.
  - unfold softenedPairForce, kernelPairForce, unit_vector, smul, k. simpl.
    apply vec3_eq; field; repeat split; lra.
Qed.

(** *** The two loops of [calculateForces] *)

Lemma cpu_forceLoopBody_step G ps particle i j acc other :
  ps !! j = Some other ->
  SimpleNBodySimulation.forceLoopBody G ps particle i j acc
  = Ok (softenedTerm G particle i acc (j, other)).
Proof.
  intros Hother. unfold SimpleNBodySimulation.forceLoopBody, softenedTerm.
  cbn [fst snd]. destruct (decide (i = j)); [reflexivity |].
  rewrite (load_Some _ _ _ Hother). cbn [mbind result_bind].
  rewrite cpu_pairForce_softened. reflexivity.
Qed.

Lemma cpu_inner_loop G particle i (ps : list SimpleNBodySimulation.particle) :
  forall (rest pre : list SimpleNBodySimulation.particle) acc,
    ps = pre ++ rest ->
    for_loop (SimpleNBodySimulation.forceLoopBody G ps particle i)
      (length pre) (length rest) acc
    = Ok (foldl (softenedTerm G particle i) acc
            (imap (fun j => pair (length pre + j)%nat) rest)).
Proof.
  induction rest as [| other rest IH]; intros pre acc Hps; [reflexivity |].
  cbn [length for_loop].
  assert (Hother : ps !! length pre = Some other).
  { rewrite Hps. rewrite lookup_app_r by lia. rewrite Nat.sub_diag.
    reflexivity. }
  rewrite (cpu_forceLoopBody_step _ _ _ _ _ _ _ Hother).
  cbn [mbind result_bind].
  specialize (IH (pre ++ [other])).
  rewrite length_app in IH. cbn [length] in IH.
  replace (length pre + 1)%nat with (S (length pre)) in IH by lia.
  rewrite IH by (rewrite Hps, <- app_assoc; reflexivity).
  cbn [imap foldl]. rewrite Nat.add_0_r. do 2 f_equal.
  apply imap_ext. intros j x _. simpl. f_equal. lia.
Qed.

Lemma cpu_forcesBody_ok (s : SimpleNBodySimulation.sim) i particle forces :
  Z.to_nat (SimpleNBodySimulation.particleCount s)
    = length (SimpleNBodySimulation.particles s) ->
  SimpleNBodySimulation.particles s !! i = Some particle ->
  length forces = i ->
  SimpleNBodySimulation.forcesBody s i forces
  = Ok (forces ++ [softenedForce (SimpleNBodySimulation.gravityStrength s)
                     (SimpleNBodySimulation.particles s) i particle]).
Proof.
  intros Hcount Hp Hlen. unfold SimpleNBodySimulation.forcesBody, assign.
  destruct (decide (i < length forces)%nat); [lia |].
  destruct (decide (i = length forces)); [| lia].
  cbn [mbind result_bind]. rewrite (load_Some _ _ _ Hp).
  cbn [mbind result_bind].
  assert (Hnew : (forces ++ [Vec3 0 0 0]) !! i = Some (Vec3 0 0 0)).
  { rewrite lookup_app_r by lia.
    replace (i - length forces)%nat with 0%nat by lia. reflexivity. }
  rewrite (load_Some _ _ _ Hnew). cbn [mbind result_bind].
  rewrite Hcount.
  rewrite (cpu_inner_loop _ particle i (SimpleNBodySimulation.particles s)
             (SimpleNBodySimulation.particles s) [] _ eq_refl).
  cbn [mbind result_bind length Nat.add].
  rewrite store_ok by (rewrite length_app; simpl; lia).
  f_equal. subst i. rewrite insert_app_r_alt by lia.
  rewrite Nat.sub_diag. reflexivity.
Qed.

Lemma cpu_outer_loop (s : SimpleNBodySimulation.sim) :
  Z.to_nat (SimpleNBodySimulation.particleCount s)
    = length (SimpleNBodySimulation.particles s) ->
  forall (rest pre : list SimpleNBodySimulation.particle) forces,
    SimpleNBodySimulation.particles s = pre ++ rest ->
    length forces = length pre ->
    for_loop (SimpleNBodySimulation.forcesBody s)
      (length pre) (length rest) forces
    = Ok (forces ++
          imap (fun j =>
                  softenedForce (SimpleNBodySimulation.gravityStrength s)
                    (SimpleNBodySimulation.particles s) (length pre + j))
               rest).
Proof.
  intros Hcount.
  induction rest as [| particle rest IH]; intros pre forces Hps Hlen.
  - simpl. rewrite app_nil_r. reflexivity.
  - cbn [length for_loop].
    assert (Hp : SimpleNBodySimulation.particles s !! length pre
                 = Some particle).
    { rewrite Hps, lookup_app_r by lia. rewrite Nat.sub_diag. reflexivity. }
    rewrite (cpu_forcesBody_ok s (length pre) particle forces Hcount Hp Hlen).
    cbn [mbind result_bind].
    specialize (IH (pre ++ [particle])).
    rewrite length_app in IH. cbn [length] in IH.
    replace (length pre + 1)%nat with (S (length pre)) in IH by lia.
    rewrite IH;
      [| rewrite Hps, <- app_assoc; reflexivity
       | rewrite length_app; simpl; lia].
    rewrite <- app_assoc. cbn [imap app]. rewrite Nat.add_0_r.
    do 3 f_equal. apply imap_ext. intros j x _. simpl. f_equal. lia.
Qed.

Lemma cpu_calculateForces_ok (s : SimpleNBodySimulation.sim) :
  Z.to_nat (SimpleNBodySimulation.particleCount s)
    = length (SimpleNBodySimulation.particles s) ->
  SimpleNBodySimulation.calculateForces s
  = Ok (softenedForces (SimpleNBodySimulation.gravityStrength s)
          (SimpleNBodySimulation.particles s)).
Proof.
  intros Hcount. unfold SimpleNBodySimulation.calculateForces.
  rewrite Hcount.
  apply (cpu_outer_loop s Hcount (SimpleNBodySimulation.particles s) [] []);
    reflexivity.
Qed.

(** *** The dispatch of a kernel *)

Lemma workgroups_cover n : (n <= 64 * NBodySimulation.workgroups n)%nat.
Proof.
  unfold NBodySimulation.workgroups.
  pose proof (Nat.div_mod (n + 63) 64 ltac:(lia)) as H.
  pose proof (Nat.mod_upper_bound (n + 63) 64 ltac:(lia)). lia.
Qed.

Lemma computeForces_guard params i b :
  (Wgsl.particleCount params <= i)%nat ->
  Wgsl.computeForces params i b = Ok b.
Proof.
  intros H. unfold Wgsl.computeForces.
  destruct (decide (Wgsl.particleCount params <= i)%nat);
    [reflexivity | contradiction].
Qed.

Lemma integrateParticles_guard params i b :
  (Wgsl.particleCount params <= i)%nat ->
  Wgsl.integrateParticles params i b = Ok b.
Proof.
  intros H. unfold Wgsl.integrateParticles.
  destruct (decide (Wgsl.particleCount params <= i)%nat);
    [reflexivity | contradiction].
Qed.

(** With two particles, a dispatch of at least one workgroup is the two
    live invocations. *)
Lemma dispatch_two kernel groups b :
  (1 <= groups)%nat ->
  (forall i b', (2 <= i)%nat -> kernel i b' = Ok b') ->
  NBodySimulation.dispatchWorkgroups kernel groups b =
  (b ← kernel 0%nat b; kernel 1%nat b).
Proof.
  intros Hg Hguard. unfold NBodySimulation.dispatchWorkgroups.
  replace (64 * groups)%nat with (2 + (64 * groups - 2))%nat by lia.
  rewrite for_loop_app. simpl.
  destruct (kernel 0%nat b) as [b1 | f]; simpl; [| reflexivity].
  destruct (kernel 1%nat b1) as [b2 | f]; simpl; [| reflexivity].
  apply for_loop_noop. intros i Hi. apply Hguard. lia.
Qed.

Lemma dispatch_computeForces_two groups params b :
  (1 <= groups)%nat ->
  Wgsl.particleCount params = 2%nat ->
  NBodySimulation.dispatchWorkgroups (Wgsl.computeForces params) groups b =
  (b ← Wgsl.computeForces params 0 b; Wgsl.computeForces params 1 b).
Proof.
  intros Hg Hc. apply dispatch_two; [exact Hg |].
  intros i b' Hi. apply computeForces_guard. lia.
Qed.

Lemma dispatch_integrateParticles_two groups params b :
  (1 <= groups)%nat ->
  Wgsl.particleCount params = 2%nat ->
  NBodySimulation.dispatchWorkgroups (Wgsl.integrateParticles params)
    groups b =
  (b ← Wgsl.integrateParticles params 0 b;
   Wgsl.integrateParticles params 1 b).
Proof.
  intros Hg Hc. apply dispatch_two; [exact Hg |].
  intros i b' Hi. apply integrateParticles_guard. lia.
Qed.

Lemma workgroups_two : NBodySimulation.workgroups 2 = 1%nat.
Proof. reflexivity. Qed.

(** *** Two unit masses one unit apart *)

Lemma cpu2_forces :
  SimpleNBodySimulation.calculateForces cpu2 =
    Ok [Vec3 (1 / 1.01 / sqrt 1.01) 0 0;
        Vec3 (- (1 / 1.01 / sqrt 1.01)) 0 0].
Proof.
  rewrite cpu_calculateForces_ok by reflexivity.
  unfold softenedForces, softenedForce, softenedTerm, cpu2, cpuA, cpuB.
  simpl. unfold softenedPairForce, softened, dot, vsub, vadd, vzero. simpl.
  replace ((1 - 0) * (1 - 0) + (0 - 0) * (0 - 0) + (0 - 0) * (0 - 0) + 0.01)
    with 1.01 by lra.
  replace ((0 - 1) * (0 - 1) + (0 - 0) * (0 - 0) + (0 - 0) * (0 - 0) + 0.01)
    with 1.01 by lra.
  assert (Hs : sqrt 1.01 <> 0) by (intros E; apply sqrt_eq_0 in E; lra).
  f_equal. f_equal; [| f_equal]; apply vec3_eq; field;
    (split; [lra | exact Hs]).
Qed.

Lemma gpu2_forces :
  NBodySimulation.dispatchWorkgroups (Wgsl.computeForces params2)
    (NBodySimulation.workgroups 2) gpu2 =
    Ok (Wgsl.mkBuffers (Wgsl.particles gpu2) [Vec3 1 0 0; Vec3 (-1) 0 0]).
Proof.
  rewrite dispatch_computeForces_two
    by (try reflexivity; rewrite workgroups_two; lia).
  unfold Wgsl.computeForces. simpl. unfold Wgsl.forceLoopBody. simpl.
  rewrite wgsl_pairForce_kernel by (simpl; intros E; injection E; lra).
  simpl.
  rewrite wgsl_pairForce_kernel by (simpl; intros E; injection E; lra).
  simpl.
  unfold kernelPairForce, unit_vector, norm, dot, vsub, vadd, smul, vzero.
  simpl.
  replace ((1 - 0) * (1 - 0) + (0 - 0) * (0 - 0) + (0 - 0) * (0 - 0))
    with 1 by ring.
  replace ((0 - 1) * (0 - 1) + (0 - 0) * (0 - 0) + (0 - 0) * (0 - 0))
    with 1 by ring.
  rewrite sqrt_1.
  f_equal. f_equal. f_equal; [| f_equal]; apply vec3_eq; field.
Qed.

Lemma softening_changes_magnitude : 1 / 1.01 / sqrt 1.01 <> 1.
Proof.
  assert (H1 : 1 <= sqrt 1.01).
  { rewrite <- sqrt_1 at 1. apply sqrt_le_1; lra. }
  intros E.
  assert (H2 : 1 / 1.01 / sqrt 1.01 * sqrt 1.01 = 1 / 1.01) by (field; lra).
  rewrite E in H2. lra.
Qed.

(** C1.  The force kernel leaves its softened distance unused: the
    contribution of one particle to another at the same position is not
    finite, neither as a pair contribution nor as the result of the kernel,
    while the CPU loop, which does soften, adds the zero vector there; and
    one unit apart the kernel's contribution is
    [gravityStrength * m_i * m_j / 1] along the separation: the divisor is
    the squared distance itself, without the softening term. *)
Theorem C1_force_kernel_not_finite_at_zero_separation :
  forall (dt G damp : R) (pos : vec3) (m1 m2 : R) (v1 v2 : vec3)
         (pad1 pad2 : R) (f0 f1 : vec3),
    let params := Wgsl.mkSimParams 2 dt G damp in
    let p := Wgsl.mkParticle pos m1 v1 pad1 in
    let q := Wgsl.mkParticle pos m2 v2 pad2 in
    Wgsl.pairForce params p q = Fault NonFinite /\
    Wgsl.computeForces params 0 (Wgsl.mkBuffers [p; q] [f0; f1])
      = Fault NonFinite /\
    SimpleNBodySimulation.pairForce G
      (SimpleNBodySimulation.mkParticle pos m1 v1)
      (SimpleNBodySimulation.mkParticle pos m2 v2) = Ok vzero /\
    Wgsl.pairForce params
      (Wgsl.mkParticle (Vec3 0 0 0) m1 v1 pad1)
      (Wgsl.mkParticle (Vec3 1 0 0) m2 v2 pad2)
      = Ok (Vec3 (G * m1 * m2 / 1) 0 0).
Proof.
  intros dt G damp pos m1 m2 v1 v2 pad1 pad2 f0 f1 params p q.
  assert (Hpq : Wgsl.pairForce params p q = Fault NonFinite)
    by (apply wgsl_pairForce_coincident; reflexivity).
  split; [exact Hpq |]. split; [| split].
  - unfold Wgsl.computeForces. simpl.
    unfold Wgsl.forceLoopBody. simpl.
    rewrite Hpq. reflexivity.
  - apply cpu_pairForce_coincident. reflexivity.
  - rewrite wgsl_pairForce_kernel by (simpl; intros E; injection E; lra).
    unfold kernelPairForce, unit_vector, norm, dot, vsub, smul. simpl.
    replace ((1 - 0) * (1 - 0) + (0 - 0) * (0 - 0) + (0 - 0) * (0 - 0))
      with 1 by ring.
    rewrite sqrt_1. f_equal. apply vec3_eq; field.
Qed.

(** C5, as stated, fails: for two unit masses one unit apart and
    [gravityStrength = 1] the CPU loop computes the forces
    [(±1/1.01/sqrt 1.01, 0, 0)] and the kernel [(±1, 0, 0)]. *)
Lemma C5_forces_differ :
  SimpleNBodySimulation.calculateForces cpu2
    = Ok [Vec3 (1 / 1.01 / sqrt 1.01) 0 0;
          Vec3 (- (1 / 1.01 / sqrt 1.01)) 0 0] /\
  NBodySimulation.dispatchWorkgroups (Wgsl.computeForces params2)
    (NBodySimulation.workgroups 2) gpu2
    = Ok (Wgsl.mkBuffers (Wgsl.particles gpu2)
            [Vec3 1 0 0; Vec3 (-1) 0 0]) /\
  [Vec3 (1 / 1.01 / sqrt 1.01) 0 0; Vec3 (- (1 / 1.01 / sqrt 1.01)) 0 0]
    <> [Vec3 1 0 0; Vec3 (-1) 0 0].
Proof.
  split; [exact cpu2_forces |]. split; [exact gpu2_forces |].
  intros E. injection E as E _. apply softening_changes_magnitude. exact E.
Qed.

(** C5, amended.  The CPU loop computes, for every store whose length is
    the particle count, the softened law
    [F_i = Σ_{j≠i} G m_i m_j (r_j − r_i) / (|r_j − r_i|² + 0.01)^(3/2)];
    and for two particles at distinct positions its pair contribution is a
    positive multiple of the kernel's: the two agree on the direction of
    every pair contribution, not on its magnitude. *)
Theorem C5_cpu_force_is_softened_and_parallel :
  (forall s : SimpleNBodySimulation.sim,
      Z.to_nat (SimpleNBodySimulation.particleCount s)
        = length (SimpleNBodySimulation.particles s) ->
      SimpleNBodySimulation.calculateForces s
      = Ok (softenedForces (SimpleNBodySimulation.gravityStrength s)
              (SimpleNBodySimulation.particles s))) /\
  (forall (n : nat) (dt G damp : R) (p q : SimpleNBodySimulation.particle),
      SimpleNBodySimulation.position p <> SimpleNBodySimulation.position q ->
      exists (k : R) (g : vec3),
        0 < k /\
        Wgsl.pairForce (Wgsl.mkSimParams n dt G damp)
          (SimpleNBodySimulation.pack p) (SimpleNBodySimulation.pack q)
          = Ok g /\
        SimpleNBodySimulation.pairForce G p q = Ok (smul k g)).
Proof.
  split; [exact cpu_calculateForces_ok |].
  intros n dt G damp p q Hpos.
  set (r := vsub (SimpleNBodySimulation.position q)
                 (SimpleNBodySimulation.position p)).
  assert (Hr : r <> vzero) by (apply vsub_apart; congruence).
  destruct (softened_parallel_to_kernel G (SimpleNBodySimulation.mass p)
              (SimpleNBodySimulation.mass q) r Hr) as [Hk Heq].
  eexists _, _. split; [exact Hk |]. split.
  - apply wgsl_pairForce_kernel. exact Hpos.
  - rewrite cpu_pairForce_softened. f_equal. exact Heq.
Qed.

Lemma C5_witness :
  exists (k : R) (g : vec3),
    0 < k /\
    Wgsl.pairForce (Wgsl.mkSimParams 2 0.016 1 1)
      (SimpleNBodySimulation.pack cpuA) (SimpleNBodySimulation.pack cpuB)
      = Ok g /\
    SimpleNBodySimulation.pairForce 1 cpuA cpuB = Ok (smul k g).
Proof.
  apply (proj2 C5_cpu_force_is_softened_and_parallel 2%nat 0.016 1 1
           cpuA cpuB).
  simpl. intros E. injection E. lra.
Defined.

(** ** The integration step *)

Lemma wgsl_advance_closed params force p :
  Wgsl.mass p <> 0 ->
  Wgsl.advance params force p =
    Ok (Wgsl.mkParticle
          (steppedPosition (Wgsl.deltaTime params) (Wgsl.damping params)
             force (Wgsl.mass p) (Wgsl.position p) (Wgsl.velocity p))
          (Wgsl.mass p)
          (steppedVelocity (Wgsl.deltaTime params) (Wgsl.damping params)
             force (Wgsl.mass p) (Wgsl.velocity p))
          (Wgsl._padding p)).
Proof.
  intros Hm. unfold Wgsl.advance. rewrite vdiv_ok by exact Hm. reflexivity.
Qed.

Lemma wgsl_advance_zero_mass params force p :
  Wgsl.mass p = 0 -> Wgsl.advance params force p = Fault NonFinite.
Proof.
  intros Hm. unfold Wgsl.advance, vdiv. rewrite Hm, !fdiv_zero. reflexivity.
Qed.

Lemma cpu_advance_closed dt damp force p :
  SimpleNBodySimulation.mass p <> 0 ->
  SimpleNBodySimulation.advance dt damp force p =
    Ok (SimpleNBodySimulation.mkParticle
          (steppedPosition dt damp force (SimpleNBodySimulation.mass p)
             (SimpleNBodySimulation.position p)
             (SimpleNBodySimulation.velocity p))
          (SimpleNBodySimulation.mass p)
          (steppedVelocity dt damp force (SimpleNBodySimulation.mass p)
             (SimpleNBodySimulation.velocity p))).
Proof.
  intros Hm. unfold SimpleNBodySimulation.advance.
  rewrite fdiv_ok by exact Hm. simpl.
  rewrite fdiv_ok by exact Hm. simpl.
  rewrite fdiv_ok by exact Hm. simpl.
  reflexivity.
Qed.

Lemma wgsl_integrate_closed params index b p force :
  (index < Wgsl.particleCount params)%nat ->
  Wgsl.particles b !! index = Some p ->
  Wgsl.forces b !! index = Some force ->
  Wgsl.mass p <> 0 ->
  Wgsl.integrateParticles params index b =
    Ok (Wgsl.mkBuffers
          (<[index :=
               Wgsl.boundary
                 (Wgsl.mkParticle
                    (steppedPosition (Wgsl.deltaTime params)
                       (Wgsl.damping params) force (Wgsl.mass p)
                       (Wgsl.position p) (Wgsl.velocity p))
                    (Wgsl.mass p)
                    (steppedVelocity (Wgsl.deltaTime params)
                       (Wgsl.damping params) force (Wgsl.mass p)
                       (Wgsl.velocity p))
                    (Wgsl._padding p))]> (Wgsl.particles b))
          (Wgsl.forces b)).
Proof.
  intros Hi Hp Hf Hm. unfold Wgsl.integrateParticles.
  destruct (decide (Wgsl.particleCount params <= index)%nat); [lia |].
  rewrite (load_Some _ _ _ Hp). simpl.
  rewrite (load_Some _ _ _ Hf). simpl.
  rewrite wgsl_advance_closed by exact Hm. simpl.
  rewrite store_ok by (apply lookup_lt_Some in Hp; exact Hp).
  reflexivity.
Qed.

Lemma cpu_integrateBody_closed dt damp forces i ps p force :
  ps !! i = Some p ->
  forces !! i = Some force ->
  SimpleNBodySimulation.mass p <> 0 ->
  SimpleNBodySimulation.integrateBody dt damp forces i ps =
    Ok (<[i :=
           SimpleNBodySimulation.boundary
             (SimpleNBodySimulation.mkParticle
                (steppedPosition dt damp force (SimpleNBodySimulation.mass p)
                   (SimpleNBodySimulation.position p)
                   (SimpleNBodySimulation.velocity p))
                (SimpleNBodySimulation.mass p)
                (steppedVelocity dt damp force (SimpleNBodySimulation.mass p)
                   (SimpleNBodySimulation.velocity p)))]> ps).
Proof.
  intros Hp Hf Hm. unfold SimpleNBodySimulation.integrateBody.
  rewrite (load_Some _ _ _ Hp). simpl.
  rewrite (load_Some _ _ _ Hf). simpl.
  rewrite cpu_advance_closed by exact Hm. simpl.
  apply store_ok. apply lookup_lt_Some in Hp. exact Hp.
Qed.

(** The integration loop of [updatePhysics], over the whole store. *)
Lemma cpu_integrate_loop dt damp (forces : list vec3) :
  forall (rest done : list SimpleNBodySimulation.particle)
         (fdone frest : list vec3),
    forces = fdone ++ frest ->
    length fdone = length done ->
    length frest = length rest ->
    Forall (fun p => SimpleNBodySimulation.mass p <> 0) rest ->
    for_loop (SimpleNBodySimulation.integrateBody dt damp forces)
      (length done) (length rest) (done ++ rest)
    = Ok (done ++ zip_with (cpuStepped dt damp) frest rest).
Proof.
  induction rest as [| p rest IH]; intros done fdone frest Hf Hld Hlr Hm.
  - destruct frest; [| discriminate]. simpl. reflexivity.
  - destruct frest as [| force frest]; [discriminate |].
    apply Forall_cons in Hm as [Hmp Hm].
    cbn [length for_loop].
    assert (Hp : (done ++ p :: rest) !! length done = Some p).
    { rewrite lookup_app_r by lia. rewrite Nat.sub_diag. reflexivity. }
    assert (Hforce : forces !! length done = Some force).
    { rewrite Hf, lookup_app_r by lia. rewrite Hld, Nat.sub_diag.
      reflexivity. }
    rewrite (cpu_integrateBody_closed dt damp forces (length done)
               (done ++ p :: rest) p force Hp Hforce Hmp).
    cbn [mbind result_bind].
    rewrite insert_app_r_alt by lia. rewrite Nat.sub_diag.
    cbn [list_insert insert]. fold (cpuStepped dt damp force p).
    rewrite (cons_middle (cpuStepped dt damp force p) done rest).
    specialize (IH (done ++ [cpuStepped dt damp force p])
                   (fdone ++ [force]) frest).
    rewrite !length_app in IH. cbn [length] in IH.
    replace (length done + 1)%nat with (S (length done)) in IH by lia.
    rewrite app_assoc.
    rewrite IH; [| rewrite Hf, <- app_assoc; reflexivity | lia
                 | simpl in Hlr; lia | exact Hm].
    rewrite <- app_assoc. reflexivity.
Qed.

Lemma cpu_updatePhysics_closed deltaTime (s : SimpleNBodySimulation.sim) :
  Z.to_nat (SimpleNBodySimulation.particleCount s)
    = length (SimpleNBodySimulation.particles s) ->
  Forall (fun p => SimpleNBodySimulation.mass p <> 0)
    (SimpleNBodySimulation.particles s) ->
  SimpleNBodySimulation.updatePhysics deltaTime s
  = Ok (SimpleNBodySimulation.set_particles s
          (zip_with
             (cpuStepped (deltaTime * SimpleNBodySimulation.timeScale s)
                (SimpleNBodySimulation.damping s))
             (softenedForces (SimpleNBodySimulation.gravityStrength s)
                (SimpleNBodySimulation.particles s))
             (SimpleNBodySimulation.particles s))).
Proof.
  intros Hcount Hm. unfold SimpleNBodySimulation.updatePhysics.
  rewrite cpu_calculateForces_ok by exact Hcount. cbn [mbind result_bind].
  rewrite Hcount.
  rewrite (cpu_integrate_loop _ _ _ (SimpleNBodySimulation.particles s) [] []
             (softenedForces (SimpleNBodySimulation.gravityStrength s)
                (SimpleNBodySimulation.particles s)));
    [reflexivity | reflexivity | reflexivity | | exact Hm].
  unfold softenedForces. rewrite length_imap. reflexivity.
Qed.

(** C2.  For a particle of non-zero mass, one integration step computes
    [acceleration = F / mass], [v1 = velocity + acceleration * deltaTime],
    [v2 = v1 * damping], [x1 = position + v2 * deltaTime], in this order and
    with the damped velocity in the position update; the boundary tests
    come after, on [(x1, v2)].  This holds for the kernel (for every index
    below [particleCount]) and for the integration loop of the CPU
    version, whose [updatePhysics] does it for every particle of the store
    with the forces computed from the positions before the step. *)
Theorem C2_integration_step_order :
  (forall (n : nat) (dt G damp : R) (force x v : vec3) (m pad : R),
      m <> 0 ->
      let acceleration :=
        Vec3 (vec_x force / m) (vec_y force / m) (vec_z force / m) in
      let v1 := vadd v (vscale acceleration dt) in
      let v2 := vscale v1 damp in
      let x1 := vadd x (vscale v2 dt) in
      let params := Wgsl.mkSimParams n dt G damp in
      Wgsl.advance params force (Wgsl.mkParticle x m v pad)
        = Ok (Wgsl.mkParticle x1 m v2 pad) /\
      (forall (index : nat) (b : Wgsl.Buffers),
          (index < n)%nat ->
          Wgsl.particles b !! index = Some (Wgsl.mkParticle x m v pad) ->
          Wgsl.forces b !! index = Some force ->
          Wgsl.integrateParticles params index b
            = Ok (Wgsl.mkBuffers
                    (<[index := Wgsl.boundary (Wgsl.mkParticle x1 m v2 pad)]>
                       (Wgsl.particles b))
                    (Wgsl.forces b))) /\
      SimpleNBodySimulation.advance dt damp force
          (SimpleNBodySimulation.mkParticle x m v)
        = Ok (SimpleNBodySimulation.mkParticle x1 m v2) /\
      cpuStepped dt damp force (SimpleNBodySimulation.mkParticle x m v)
        = SimpleNBodySimulation.boundary
            (SimpleNBodySimulation.mkParticle x1 m v2) /\
      (forall (i : nat) (ps : list SimpleNBodySimulation.particle)
              (forces : list vec3),
          ps !! i = Some (SimpleNBodySimulation.mkParticle x m v) ->
          forces !! i = Some force ->
          SimpleNBodySimulation.integrateBody dt damp forces i ps
            = Ok (<[i := SimpleNBodySimulation.boundary
                            (SimpleNBodySimulation.mkParticle x1 m v2)]> ps))) /\
  (forall (deltaTime : R) (s : SimpleNBodySimulation.sim),
      Z.to_nat (SimpleNBodySimulation.particleCount s)
        = length (SimpleNBodySimulation.particles s) ->
      Forall (fun p => SimpleNBodySimulation.mass p <> 0)
        (SimpleNBodySimulation.particles s) ->
      SimpleNBodySimulation.updatePhysics deltaTime s
      = Ok (SimpleNBodySimulation.set_particles s
              (zip_with
                 (cpuStepped (deltaTime * SimpleNBodySimulation.timeScale s)
                    (SimpleNBodySimulation.damping s))
                 (softenedForces (SimpleNBodySimulation.gravityStrength s)
                    (SimpleNBodySimulation.particles s))
                 (SimpleNBodySimulation.particles s)))).
Proof.
  split.
  - intros n dt G damp force x v m pad Hm acceleration v1 v2 x1 params.
    split; [| split; [| split; [| split]]].
    + apply (wgsl_advance_closed params force (Wgsl.mkParticle x m v pad)).
      exact Hm.
    + intros index b Hi Hp Hf.
      apply (wgsl_integrate_closed params index b _ force Hi Hp Hf).
      exact Hm.
    + apply (cpu_advance_closed dt damp force
               (SimpleNBodySimulation.mkParticle x m v)).
      exact Hm.
    + reflexivity.
    + intros i ps forces Hp Hf.
      apply (cpu_integrateBody_closed dt damp forces i ps _ force Hp Hf).
      exact Hm.
  - intros deltaTime s. apply cpu_updatePhysics_closed.
Qed.

Lemma C2_witness :
  Wgsl.integrateParticles (Wgsl.mkSimParams 1 1 1 (1/2)) 0
    (Wgsl.mkBuffers [Wgsl.mkParticle (Vec3 0 0 0) 2 (Vec3 1 0 0) 0]
       [Vec3 4 0 0])
  = Ok (Wgsl.mkBuffers
          (<[0%nat :=
               Wgsl.boundary
                 (Wgsl.mkParticle
                    (vadd (Vec3 0 0 0)
                       (vscale
                          (vscale
                             (vadd (Vec3 1 0 0)
                                (vscale (Vec3 (4 / 2) (0 / 2) (0 / 2)) 1))
                             (1/2)) 1))
                    2
                    (vscale
                       (vadd (Vec3 1 0 0)
                          (vscale (Vec3 (4 / 2) (0 / 2) (0 / 2)) 1)) (1/2))
                    0)]>
             [Wgsl.mkParticle (Vec3 0 0 0) 2 (Vec3 1 0 0) 0])
          [Vec3 4 0 0]).
Proof.
  assert (H : (2 : R) <> 0) by lra.
  apply (proj1 (proj2 (proj1 C2_integration_step_order 1%nat 1 1 (1/2)
                         (Vec3 4 0 0) (Vec3 0 0 0) (Vec3 1 0 0) 2 0 H)) 0%nat
           (Wgsl.mkBuffers [Wgsl.mkParticle (Vec3 0 0 0) 2 (Vec3 1 0 0) 0]
              [Vec3 4 0 0])).
  - lia.
  - reflexivity.
  - reflexivity.
Defined.

(** ** Boundary handling *)

Lemma sign_pos a : 0 < a -> sign a = 1.
Proof.
  intros H. unfold sign. destruct (Rlt_dec 0 a); [reflexivity | contradiction].
Qed.

Lemma sign_opp a : sign (- a) = - sign a.
Proof.
  unfold sign.
  destruct (Rlt_dec 0 (- a)), (Rlt_dec 0 a), (Rlt_dec (- a) 0), (Rlt_dec a 0);
    lra.
Qed.

Lemma clampAxis_opp x : clampAxis (- x) = - clampAxis x.
Proof.
  unfold clampAxis. rewrite Rabs_Ropp, sign_opp.
  destruct (Rlt_dec 50 (Rabs x)); ring.
Qed.

Lemma bounceAxis_opp x v : bounceAxis (- x) (- v) = - bounceAxis x v.
Proof.
  unfold bounceAxis. rewrite Rabs_Ropp.
  destruct (Rlt_dec 50 (Rabs x)); ring.
Qed.

Lemma wgsl_boundary_closed p :
  Wgsl.boundary p =
    Wgsl.mkParticle
      (Vec3 (clampAxis (vec_x (Wgsl.position p)))
            (clampAxis (vec_y (Wgsl.position p)))
            (clampAxis (vec_z (Wgsl.position p))))
      (Wgsl.mass p)
      (Vec3 (bounceAxis (vec_x (Wgsl.position p)) (vec_x (Wgsl.velocity p)))
            (bounceAxis (vec_y (Wgsl.position p)) (vec_y (Wgsl.velocity p)))
            (bounceAxis (vec_z (Wgsl.position p)) (vec_z (Wgsl.velocity p))))
      (Wgsl._padding p).
Proof.
  destruct p as [[px py pz] m [wx wy wz] pad].
  unfold Wgsl.boundary, Wgsl.bounce_x, Wgsl.bounce_y, Wgsl.bounce_z,
    clampAxis, bounceAxis, Wgsl.restitution.
  replace Wgsl.boundarySize with 50 by (unfold Wgsl.boundarySize; lra).
  simpl.
  destruct (Rlt_dec 50 (Rabs px)); simpl;
    destruct (Rlt_dec 50 (Rabs py)); simpl;
      destruct (Rlt_dec 50 (Rabs pz)); simpl; reflexivity.
Qed.

Lemma cpu_boundary_closed p :
  SimpleNBodySimulation.boundary p =
    SimpleNBodySimulation.mkParticle
      (Vec3 (clampAxis (vec_x (SimpleNBodySimulation.position p)))
            (clampAxis (vec_y (SimpleNBodySimulation.position p)))
            (clampAxis (vec_z (SimpleNBodySimulation.position p))))
      (SimpleNBodySimulation.mass p)
      (Vec3 (bounceAxis (vec_x (SimpleNBodySimulation.position p))
                        (vec_x (SimpleNBodySimulation.velocity p)))
            (bounceAxis (vec_y (SimpleNBodySimulation.position p))
                        (vec_y (SimpleNBodySimulation.velocity p)))
            (bounceAxis (vec_z (SimpleNBodySimulation.position p))
                        (vec_z (SimpleNBodySimulation.velocity p)))).
Proof.
  destruct p as [[px py pz] m [wx wy wz]].
  unfold SimpleNBodySimulation.boundary, SimpleNBodySimulation.bounce_x,
    SimpleNBodySimulation.bounce_y, SimpleNBodySimulation.bounce_z,
    clampAxis, bounceAxis, SimpleNBodySimulation.restitution.
  replace SimpleNBodySimulation.boundarySize with 50
    by (unfold SimpleNBodySimulation.boundarySize; lra).
  simpl.
  destruct (Rlt_dec 50 (Rabs px)); simpl;
    destruct (Rlt_dec 50 (Rabs py)); simpl;
      destruct (Rlt_dec 50 (Rabs pz)); simpl; reflexivity.
Qed.

Lemma axisRule_holds x v : axisRule x v (clampAxis x) (bounceAxis x v).
Proof.
  unfold axisRule, clampAxis, bounceAxis.
  destruct (Rlt_dec 50 (Rabs x)) as [Hbig | Hsmall].
  - split; [intros _; split; [reflexivity | lra] |].
    split; [intros Hle; lra |].
    intros ->. rewrite sign_pos by lra. split; lra.
  - split; [intros Hbig; contradiction |].
    split; [intros _; split; reflexivity |].
    intros ->. rewrite Rabs_pos_eq in Hsmall by lra. lra.
Qed.

(** C3.  The boundary handling treats each axis by itself, from the
    coordinate and the velocity component of that axis only: beyond 50 in
    absolute value the coordinate becomes [sign * 50] and the velocity
    component is multiplied by [-0.8], otherwise both are kept; at
    [x = 51] with velocity [v] the result is [50] and [-0.8 v].  The kernel
    applies it to the moved position and the damped velocity, and stores
    the result; so does the integration loop of the CPU version, for one
    particle ([integrateBody]) and in a whole step ([updatePhysics], under
    the force computed from the positions before the step). *)
Theorem C3_boundary_reflection_per_axis :
  forall (p : Wgsl.Particle) (q : SimpleNBodySimulation.particle),
    let p' := Wgsl.boundary p in
    let q' := SimpleNBodySimulation.boundary q in
    (axisRule (vec_x (Wgsl.position p)) (vec_x (Wgsl.velocity p))
       (vec_x (Wgsl.position p')) (vec_x (Wgsl.velocity p')) /\
     axisRule (vec_y (Wgsl.position p)) (vec_y (Wgsl.velocity p))
       (vec_y (Wgsl.position p')) (vec_y (Wgsl.velocity p')) /\
     axisRule (vec_z (Wgsl.position p)) (vec_z (Wgsl.velocity p))
       (vec_z (Wgsl.position p')) (vec_z (Wgsl.velocity p'))) /\
    (axisRule (vec_x (SimpleNBodySimulation.position q))
       (vec_x (SimpleNBodySimulation.velocity q))
       (vec_x (SimpleNBodySimulation.position q'))
       (vec_x (SimpleNBodySimulation.velocity q')) /\
     axisRule (vec_y (SimpleNBodySimulation.position q))
       (vec_y (SimpleNBodySimulation.velocity q))
       (vec_y (SimpleNBodySimulation.position q'))
       (vec_y (SimpleNBodySimulation.velocity q')) /\
     axisRule (vec_z (SimpleNBodySimulation.position q))
       (vec_z (SimpleNBodySimulation.velocity q))
       (vec_z (SimpleNBodySimulation.position q'))
       (vec_z (SimpleNBodySimulation.velocity q'))) /\
    (forall (params : Wgsl.SimParams) (index : nat) (b : Wgsl.Buffers)
            (force : vec3),
        (index < Wgsl.particleCount params)%nat ->
        Wgsl.particles b !! index = Some p ->
        Wgsl.forces b !! index = Some force ->
        Wgsl.mass p <> 0 ->
        let v2 :=
          steppedVelocity (Wgsl.deltaTime params) (Wgsl.damping params)
            force (Wgsl.mass p) (Wgsl.velocity p) in
        let x1 :=
          steppedPosition (Wgsl.deltaTime params) (Wgsl.damping params)
            force (Wgsl.mass p) (Wgsl.position p) (Wgsl.velocity p) in
        exists b' r,
          Wgsl.integrateParticles params index b = Ok b' /\
          Wgsl.particles b' !! index = Some r /\
          axisRule (vec_x x1) (vec_x v2)
            (vec_x (Wgsl.position r)) (vec_x (Wgsl.velocity r)) /\
          axisRule (vec_y x1) (vec_y v2)
            (vec_y (Wgsl.position r)) (vec_y (Wgsl.velocity r)) /\
          axisRule (vec_z x1) (vec_z v2)
            (vec_z (Wgsl.position r)) (vec_z (Wgsl.velocity r))) /\
    (forall (dt damp : R) (forces : list vec3) (i : nat)
            (ps : list SimpleNBodySimulation.particle) (force : vec3),
        ps !! i = Some q ->
        forces !! i = Some force ->
        SimpleNBodySimulation.mass q <> 0 ->
        let v2 :=
          steppedVelocity dt damp force (SimpleNBodySimulation.mass q)
            (SimpleNBodySimulation.velocity q) in
        let x1 :=
          steppedPosition dt damp force (SimpleNBodySimulation.mass q)
            (SimpleNBodySimulation.position q)
            (SimpleNBodySimulation.velocity q) in
        exists ps' r,
          SimpleNBodySimulation.integrateBody dt damp forces i ps = Ok ps' /\
          ps' !! i = Some r /\
          axisRule (vec_x x1) (vec_x v2)
            (vec_x (SimpleNBodySimulation.position r))
            (vec_x (SimpleNBodySimulation.velocity r)) /\
          axisRule (vec_y x1) (vec_y v2)
            (vec_y (SimpleNBodySimulation.position r))
            (vec_y (SimpleNBodySimulation.velocity r)) /\
          axisRule (vec_z x1) (vec_z v2)
            (vec_z (SimpleNBodySimulation.position r))
            (vec_z (SimpleNBodySimulation.velocity r))) /\
    (forall (deltaTime : R) (s : SimpleNBodySimulation.sim) (i : nat),
        Z.to_nat (SimpleNBodySimulation.particleCount s)
          = length (SimpleNBodySimulation.particles s) ->
        Forall (fun p => SimpleNBodySimulation.mass p <> 0)
          (SimpleNBodySimulation.particles s) ->
        SimpleNBodySimulation.particles s !! i = Some q ->
        let dt := deltaTime * SimpleNBodySimulation.timeScale s in
        let damp := SimpleNBodySimulation.damping s in
        let force :=
          softenedForce (SimpleNBodySimulation.gravityStrength s)
            (SimpleNBodySimulation.particles s) i q in
        let v2 :=
          steppedVelocity dt damp force (SimpleNBodySimulation.mass q)
            (SimpleNBodySimulation.velocity q) in
        let x1 :=
          steppedPosition dt damp force (SimpleNBodySimulation.mass q)
            (SimpleNBodySimulation.position q)
            (SimpleNBodySimulation.velocity q) in
        exists s' r,
          SimpleNBodySimulation.updatePhysics deltaTime s = Ok s' /\
          SimpleNBodySimulation.particles s' !! i = Some r /\
          axisRule (vec_x x1) (vec_x v2)
            (vec_x (SimpleNBodySimulation.position r))
            (vec_x (SimpleNBodySimulation.velocity r)) /\
          axisRule (vec_y x1) (vec_y v2)
            (vec_y (SimpleNBodySimulation.position r))
            (vec_y (SimpleNBodySimulation.velocity r)) /\
          axisRule (vec_z x1) (vec_z v2)
            (vec_z (SimpleNBodySimulation.position r))
            (vec_z (SimpleNBodySimulation.velocity r))).
Proof.
  intros p q p' q'. split; [| split; [| split; [| split]]].
  - subst p'. rewrite wgsl_boundary_closed. simpl.
    split; [apply axisRule_holds |]. split; apply axisRule_holds.
  - subst q'. rewrite cpu_boundary_closed. simpl.
    split; [apply axisRule_holds |]. split; apply axisRule_holds.
  - intros params index b force Hi Hp Hf Hm v2 x1.
    eexists _, _.
    split; [apply (wgsl_integrate_closed params index b p force);
            assumption |].
    simpl. split.
    + apply list_lookup_insert_eq. apply lookup_lt_Some in Hp. exact Hp.
    + rewrite wgsl_boundary_closed. simpl. fold v2 x1.
      split; [apply axisRule_holds |]. split; apply axisRule_holds.
  - intros dt damp forces i ps force Hq Hf Hm v2 x1.
    eexists _, _.
    split; [apply (cpu_integrateBody_closed dt damp forces i ps q force);
            assumption |].
    split.
    + apply list_lookup_insert_eq. apply lookup_lt_Some in Hq. exact Hq.
    + rewrite cpu_boundary_closed. simpl. fold v2 x1.
      split; [apply axisRule_holds |]. split; apply axisRule_holds.
  - intros deltaTime s i Hcount Hmass Hq dt damp force v2 x1.
    assert (Hm : SimpleNBodySimulation.mass q <> 0).
    { rewrite Forall_lookup in Hmass. apply (Hmass i q Hq). }
    eexists _, _.
    split; [apply cpu_updatePhysics_closed; assumption |].
    split.
    + cbn [SimpleNBodySimulation.particles
           SimpleNBodySimulation.set_particles].
      rewrite lookup_zip_with. unfold softenedForces.
      rewrite list_lookup_imap, Hq. reflexivity.
    + unfold cpuStepped. rewrite cpu_boundary_closed. simpl.
      fold dt damp force. fold v2 x1.
      split; [apply axisRule_holds |]. split; apply axisRule_holds.
Qed.

Lemma C3_witness :
  vec_x (Wgsl.position
           (Wgsl.boundary (Wgsl.mkParticle (Vec3 51 60 0) 1 (Vec3 3 1 1) 0)))
    = 50 /\
  vec_x (Wgsl.velocity
           (Wgsl.boundary (Wgsl.mkParticle (Vec3 51 60 0) 1 (Vec3 3 1 1) 0)))
    = - 0.8 * 3.
Proof.
  destruct (C3_boundary_reflection_per_axis
              (Wgsl.mkParticle (Vec3 51 60 0) 1 (Vec3 3 1 1) 0)
              (SimpleNBodySimulation.mkParticle vzero 1 vzero))
    as [[(_ & _ & H51) _] _].
  apply H51. reflexivity.
Defined.

(** ** What the kernels write *)

Lemma wgsl_advance_frame params force p p' :
  Wgsl.advance params force p = Ok p' ->
  Wgsl.mass p' = Wgsl.mass p /\ Wgsl._padding p' = Wgsl._padding p.
Proof.
  destruct (Req_dec_T (Wgsl.mass p) 0) as [Hz | Hnz].
  - rewrite wgsl_advance_zero_mass by exact Hz. discriminate.
  - rewrite wgsl_advance_closed by exact Hnz. intros E. injection E as <-.
    split; reflexivity.
Qed.

Lemma wgsl_boundary_frame p :
  Wgsl.mass (Wgsl.boundary p) = Wgsl.mass p /\
  Wgsl._padding (Wgsl.boundary p) = Wgsl._padding p.
Proof. rewrite wgsl_boundary_closed. split; reflexivity. Qed.

(** An invocation of [integrateParticles] that runs to its end has written
    nothing, or the slot [index] of the particle buffer. *)
Lemma wgsl_integrate_inv params index b b' :
  Wgsl.integrateParticles params index b = Ok b' ->
  b' = b \/
  exists p p',
    Wgsl.particles b !! index = Some p /\
    Wgsl.mass p' = Wgsl.mass p /\ Wgsl._padding p' = Wgsl._padding p /\
    b' = Wgsl.mkBuffers (<[index := p']> (Wgsl.particles b)) (Wgsl.forces b).
Proof.
  unfold Wgsl.integrateParticles.
  destruct (decide (Wgsl.particleCount params <= index)%nat) as [Hge | Hlt].
  - intros E. injection E as <-. left. reflexivity.
  - intros E. right.
    apply bind_Ok_inv in E as (p & Hp & E).
    apply bind_Ok_inv in E as (force & Hf & E).
    apply bind_Ok_inv in E as (p1 & Hadv & E).
    apply bind_Ok_inv in E as (ps & Hst & E).
    injection E as <-.
    apply store_Ok_inv in Hst as [_ ->].
    apply wgsl_advance_frame in Hadv as [Hm Hpad].
    destruct (wgsl_boundary_frame p1) as [Hm' Hpad'].
    exists p, (Wgsl.boundary p1).
    split; [apply load_Ok_inv; exact Hp |].
    split; [congruence |]. split; [congruence | reflexivity].
Qed.

Lemma wgsl_computeForces_inv params index b b' :
  Wgsl.computeForces params index b = Ok b' ->
  b' = b \/
  exists totalForce,
    (index < length (Wgsl.forces b))%nat /\
    b' = Wgsl.mkBuffers (Wgsl.particles b)
           (<[index := totalForce]> (Wgsl.forces b)).
Proof.
  unfold Wgsl.computeForces.
  destruct (decide (Wgsl.particleCount params <= index)%nat) as [Hge | Hlt].
  - intros E. injection E as <-. left. reflexivity.
  - intros E. right.
    apply bind_Ok_inv in E as (p & Hp & E).
    apply bind_Ok_inv in E as (total & Hloop & E).
    apply bind_Ok_inv in E as (fs & Hst & E).
    injection E as <-.
    apply store_Ok_inv in Hst as [Hlen ->].
    exists total. split; [exact Hlen | reflexivity].
Qed.

(** C9.  An invocation of either kernel with [index >= particleCount]
    returns the buffers as they are.  An invocation of [integrateParticles]
    that completes leaves the force buffer, the number of particles, every
    other particle, and the mass and the padding of every particle
    unchanged; it does complete for an index below [particleCount] that is
    in the buffers, when the mass is not zero.  An invocation of
    [computeForces] that completes leaves the particle buffer and every
    other slot of the force buffer unchanged. *)
Theorem C9_kernel_frame :
  forall (params : Wgsl.SimParams) (index : nat) (b : Wgsl.Buffers),
    ((Wgsl.particleCount params <= index)%nat ->
       Wgsl.integrateParticles params index b = Ok b /\
       Wgsl.computeForces params index b = Ok b) /\
    (forall b', Wgsl.integrateParticles params index b = Ok b' ->
       Wgsl.forces b' = Wgsl.forces b /\
       length (Wgsl.particles b') = length (Wgsl.particles b) /\
       (forall j, j <> index ->
          Wgsl.particles b' !! j = Wgsl.particles b !! j) /\
       (forall j, Wgsl.mass <$> Wgsl.particles b' !! j
                  = Wgsl.mass <$> Wgsl.particles b !! j) /\
       (forall j, Wgsl._padding <$> Wgsl.particles b' !! j
                  = Wgsl._padding <$> Wgsl.particles b !! j)) /\
    (forall b', Wgsl.computeForces params index b = Ok b' ->
       Wgsl.particles b' = Wgsl.particles b /\
       length (Wgsl.forces b') = length (Wgsl.forces b) /\
       (forall j, j <> index -> Wgsl.forces b' !! j = Wgsl.forces b !! j)) /\
    (forall p force,
       (index < Wgsl.particleCount params)%nat ->
       Wgsl.particles b !! index = Some p ->
       Wgsl.forces b !! index = Some force ->
       Wgsl.mass p <> 0 ->
       exists b', Wgsl.integrateParticles params index b = Ok b').
Proof.
  intros params index b. split; [| split; [| split]].
  - intros Hge. split;
      [apply integrateParticles_guard | apply computeForces_guard]; exact Hge.
  - intros b' E.
    apply wgsl_integrate_inv in E as [-> | (p & p' & Hp & Hm & Hpad & ->)].
    + repeat split; reflexivity.
    + simpl. split; [reflexivity |].
      split; [apply length_insert |].
      split; [intros j Hj; apply list_lookup_insert_ne; congruence |].
      assert (Hlt : (index < length (Wgsl.particles b))%nat)
        by (apply lookup_lt_Some in Hp; exact Hp).
      split; intros j; destruct (decide (j = index)) as [-> | Hne].
      * rewrite list_lookup_insert_eq by exact Hlt. rewrite Hp. simpl.
        congruence.
      * rewrite list_lookup_insert_ne by congruence. reflexivity.
      * rewrite list_lookup_insert_eq by exact Hlt. rewrite Hp. simpl.
        congruence.
      * rewrite list_lookup_insert_ne by congruence. reflexivity.
  - intros b' E.
    apply wgsl_computeForces_inv in E as [-> | (total & Hlen & ->)].
    + repeat split; reflexivity.
    + simpl. split; [reflexivity |]. split; [apply length_insert |].
      intros j Hj. apply list_lookup_insert_ne. congruence.
  - intros p force Hi Hp Hf Hm. eexists.
    apply (wgsl_integrate_closed params index b p force); assumption.
Qed.

Lemma C9_witness :
  Wgsl.integrateParticles params2 5 gpu2 = Ok gpu2 /\
  Wgsl.computeForces params2 5 gpu2 = Ok gpu2.
Proof.
  apply (proj1 (C9_kernel_frame params2 5 gpu2)). simpl. lia.
Defined.

(** ** The initial store *)

Lemma floor_IZR z : floor (IZR z) = z.
Proof. unfold floor. symmetry. apply Int_part_spec. lra. Qed.

Lemma floor_nonneg a : 0 <= a -> (0 <= floor a)%Z.
Proof.
  intros Ha. unfold floor. destruct (base_Int_part a) as [_ H].
  assert (Hlt : IZR (-1) < IZR (Int_part a)) by lra.
  apply lt_IZR in Hlt. lia.
Qed.

Lemma floor_negative a : a < 0 -> (floor a < 0)%Z.
Proof.
  intros H. unfold floor. destruct (base_Int_part a) as [Hle _].
  apply lt_IZR. lra.
Qed.

Lemma still_range : forall n, 0 <= still n < 1.
Proof. intros n. unfold still. lra. Qed.

Lemma length_writeParticle i p buf :
  length (writeParticle i p buf) = length buf.
Proof. unfold writeParticle. rewrite !length_insert. reflexivity. Qed.

Lemma particleAt_write_same i p buf :
  (i * 8 + 7 < length buf)%nat ->
  NBodySimulation.particleAt (writeParticle i p buf) i = Some p.
Proof.
  intros Hlen. unfold NBodySimulation.particleAt, writeParticle.
  repeat (rewrite ?list_lookup_insert_ne by lia;
          rewrite list_lookup_insert_eq by (rewrite ?length_insert; lia);
          simpl).
  destruct p as [[px py pz] m [wx wy wz] pad]. reflexivity.
Qed.

Lemma particleAt_write_other i j p buf :
  i <> j ->
  NBodySimulation.particleAt (writeParticle i p buf) j
  = NBodySimulation.particleAt buf j.
Proof.
  intros Hne. unfold NBodySimulation.particleAt, writeParticle.
  rewrite !list_lookup_insert_ne by lia. reflexivity.
Qed.

Lemma particleAt_beyond buf i :
  (length buf <= i * 8)%nat -> NBodySimulation.particleAt buf i = None.
Proof.
  intros H. unfold NBodySimulation.particleAt.
  rewrite (lookup_ge_None_2 buf (i * 8 + 0)) by lia. reflexivity.
Qed.

Lemma centerParticle_write buf :
  NBodySimulation.centerParticle buf
  = writeParticle 0 (Wgsl.mkParticle (Vec3 0 0 0) 1.0 (Vec3 0 0 0) 0) buf.
Proof. reflexivity. Qed.

Lemma cpu_center_lookup_0 ps p :
  ps !! 0%nat = Some p ->
  SimpleNBodySimulation.centerParticle ps !! 0%nat
  = Some (SimpleNBodySimulation.mkParticle (Vec3 0 0 0) 2.0 (Vec3 0 0 0)).
Proof. destruct ps as [| p0 rest]; [discriminate | reflexivity]. Qed.

Lemma cpu_center_lookup_S ps i :
  SimpleNBodySimulation.centerParticle ps !! S i = ps !! S i.
Proof. destruct ps as [| p0 rest]; reflexivity. Qed.

Lemma cpu_center_length ps :
  length (SimpleNBodySimulation.centerParticle ps) = length ps.
Proof. destruct ps; reflexivity. Qed.

Lemma length_filled rng G n : forall start buf k,
  length (filled rng G start n buf k) = length buf.
Proof.
  induction n as [| n IH]; intros start buf k; simpl; [reflexivity |].
  rewrite IH. apply length_writeParticle.
Qed.

Lemma particleAt_filled_outside rng G n : forall start buf k j,
  (j < start \/ start + n <= j)%nat ->
  NBodySimulation.particleAt (filled rng G start n buf k) j
  = NBodySimulation.particleAt buf j.
Proof.
  induction n as [| n IH]; intros start buf k j Hj; simpl; [reflexivity |].
  rewrite IH by lia. apply particleAt_write_other. lia.
Qed.

Lemma particleAt_filled_inside rng G n : forall start buf k j,
  ((start + n) * 8 <= length buf)%nat ->
  (start <= j < start + n)%nat ->
  NBodySimulation.particleAt (filled rng G start n buf k) j
  = Some (uploaded rng G (k + 4 * (j - start))).
Proof.
  induction n as [| n IH]; intros start buf k j Hlen Hj; simpl; [lia |].
  destruct (decide (j = start)) as [-> | Hne].
  - rewrite particleAt_filled_outside by lia.
    rewrite particleAt_write_same by lia.
    do 2 f_equal. lia.
  - rewrite IH by (rewrite ?length_writeParticle; lia).
    do 2 f_equal. lia.
Qed.

Section Sampling.

Variable rng : nat -> R.
Variable G : R.
Hypothesis rng_range : forall n, 0 <= rng n < 1.
Hypothesis G_nonneg : 0 <= G.

Lemma radiusAt_range k : 5 <= radiusAt rng k < 25.
Proof. unfold radiusAt. pose proof (rng_range k). lra. Qed.

Lemma massAt_range k : 0.5 <= massAt rng k < 1.
Proof. unfold massAt. pose proof (rng_range (k + 3)). lra. Qed.

Lemma orbit_ratio_nonneg k : 0 <= G * 100 / radiusAt rng k.
Proof.
  pose proof (radiusAt_range k).
  apply Rmult_le_pos; [lra |]. left. apply Rinv_0_lt_compat. lra.
Qed.

Lemma speedAt_nonneg k : 0 <= speedAt rng G k.
Proof.
  unfold speedAt. pose proof (sqrt_pos (G * 100 / radiusAt rng k)). lra.
Qed.

Lemma norm_positionAt k : norm (positionAt rng k) = radiusAt rng k.
Proof.
  pose proof (radiusAt_range k) as Hr.
  unfold norm, dot, positionAt. simpl.
  pose proof (sin2_cos2 (phiAt rng k)) as Hp.
  pose proof (sin2_cos2 (thetaAt rng k)) as Ht.
  unfold Rsqr in Hp, Ht.
  set (sp := sin (phiAt rng k)) in *. set (cp := cos (phiAt rng k)) in *.
  set (st := sin (thetaAt rng k)) in *. set (ct := cos (thetaAt rng k)) in *.
  set (r := radiusAt rng k) in *.
  replace (r * sp * ct * (r * sp * ct) + r * sp * st * (r * sp * st)
           + r * cp * (r * cp))
    with (r * r * (sp * sp * (st * st + ct * ct) + cp * cp)) by ring.
  rewrite Ht, Rmult_1_r, Hp, Rmult_1_r.
  apply sqrt_square. lra.
Qed.

Lemma norm_velocityAt k : norm (velocityAt rng G k) = speedAt rng G k.
Proof.
  pose proof (speedAt_nonneg k) as Hs.
  unfold norm, dot, velocityAt. simpl.
  pose proof (sin2_cos2 (thetaAt rng k)) as Ht. unfold Rsqr in Ht.
  set (st := sin (thetaAt rng k)) in *. set (ct := cos (thetaAt rng k)) in *.
  set (v := speedAt rng G k) in *.
  replace (- v * st * (- v * st) + v * ct * (v * ct) + 0 * 0)
    with (v * v * (st * st + ct * ct)) by ring.
  rewrite Ht, Rmult_1_r. apply sqrt_square. exact Hs.
Qed.

Lemma velocityAt_tangent k :
  dot (velocityAt rng G k) (positionAt rng k) = 0.
Proof. unfold dot, velocityAt, positionAt. simpl. ring. Qed.

Lemma uploaded_orbiting k : orbiting G (uploaded rng G k).
Proof.
  unfold orbiting, uploaded. simpl. rewrite norm_positionAt.
  split; [apply radiusAt_range |].
  split; [pose proof (massAt_range k); lra |].
  split; [apply norm_velocityAt |].
  split; [apply velocityAt_tangent | reflexivity].
Qed.

Lemma makeParticle_ok k :
  SimpleNBodySimulation.makeParticle rng G k
  = Ok (sampled rng G k, (k + 4)%nat).
Proof.
  pose proof (rng_range (k + 2)) as H2. pose proof (radiusAt_range k) as Hr.
  unfold SimpleNBodySimulation.makeParticle, mbind, Rand_bind, random, lift.
  replace (S k) with (k + 1)%nat by lia.
  replace (S (k + 1)) with (k + 2)%nat by lia.
  rewrite facos_ok by lra.
  replace (S (k + 2)) with (k + 3)%nat by lia.
  fold (radiusAt rng k).
  rewrite fdiv_ok by lra.
  rewrite fsqrt_ok by apply orbit_ratio_nonneg.
  unfold mret, Rand_ret. replace (S (k + 3)) with (k + 4)%nat by lia.
  reflexivity.
Qed.

Lemma makeParticle_loop n : forall start ps k,
  for_loop
    (fun (_ : nat) '(ps, k) =>
       r ← SimpleNBodySimulation.makeParticle rng G k;
       let '(p, k) := r in Ok (ps ++ [p], k))
    start n (ps, k)
  = Ok (ps ++ map (fun i => sampled rng G (k + 4 * i)) (seq 0 n),
        (k + 4 * n)%nat).
Proof.
  induction n as [| n IH]; intros start ps k; simpl.
  - rewrite app_nil_r, Nat.add_0_r. reflexivity.
  - rewrite makeParticle_ok. simpl. rewrite IH.
    rewrite <- app_assoc. simpl.
    f_equal. f_equal; [| lia]. f_equal. f_equal.
    + f_equal. lia.
    + rewrite <- seq_shift, map_map. apply map_ext. intros i. f_equal. lia.
Qed.

Lemma initParticle_ok i buf k :
  NBodySimulation.initParticle rng G i buf k
  = Ok (writeParticle i (uploaded rng G k) buf, (k + 4)%nat).
Proof.
  pose proof (rng_range (k + 2)) as H2. pose proof (radiusAt_range k) as Hr.
  unfold NBodySimulation.initParticle, mbind, Rand_bind, random, lift.
  replace (S k) with (k + 1)%nat by lia.
  replace (S (k + 1)) with (k + 2)%nat by lia.
  rewrite facos_ok by lra.
  replace (S (k + 2)) with (k + 3)%nat by lia.
  fold (radiusAt rng k).
  rewrite fdiv_ok by lra.
  rewrite fsqrt_ok by apply orbit_ratio_nonneg.
  unfold mret, Rand_ret. replace (S (k + 3)) with (k + 4)%nat by lia.
  reflexivity.
Qed.

Lemma initParticle_loop n : forall start buf k,
  for_loop
    (fun i '(particles, k) =>
       NBodySimulation.initParticle rng G i particles k)
    start n (buf, k)
  = Ok (filled rng G start n buf k, (k + 4 * n)%nat).
Proof.
  induction n as [| n IH]; intros start buf k.
  - simpl. rewrite Nat.add_0_r. reflexivity.
  - cbn [for_loop]. rewrite initParticle_ok. cbn [mbind result_bind].
    rewrite IH. cbn [filled]. do 2 f_equal. lia.
Qed.

End Sampling.

Section InitialStore.

Variable rng : nat -> R.
Hypothesis rng_range : forall n, 0 <= rng n < 1.

Lemma cpu_initializeParticles_ok (s : SimpleNBodySimulation.sim) k :
  0 <= SimpleNBodySimulation.gravityStrength s ->
  let n := Z.to_nat (SimpleNBodySimulation.particleCount s) in
  SimpleNBodySimulation.initializeParticles rng s k
  = Ok (SimpleNBodySimulation.set_particles s
          (SimpleNBodySimulation.centerParticle
             (map (fun i =>
                     sampled rng (SimpleNBodySimulation.gravityStrength s)
                       (k + 4 * i)) (seq 0 n))),
        (k + 4 * n)%nat).
Proof.
  intros HG n. unfold SimpleNBodySimulation.initializeParticles.
  rewrite (makeParticle_loop rng _ rng_range HG).
  cbn [mbind result_bind app].
  fold n. destruct (decide (0 < length _)%nat) as [Hpos | Hzero];
    [reflexivity |].
  rewrite length_map, length_seq in Hzero.
  assert (n = 0%nat) as -> by lia. reflexivity.
Qed.

Lemma gpu_initializeParticles_ok (s : NBodySimulation.sim) k :
  0 <= NBodySimulation.gravityStrength s ->
  (0 <= NBodySimulation.particleCount s)%Z ->
  let n := Z.to_nat (NBodySimulation.particleCount s) in
  let buf := filled rng (NBodySimulation.gravityStrength s) 0 n
               (replicate (n * 8) 0) k in
  NBodySimulation.initializeParticles rng s k
  = Ok (NBodySimulation.set_particleBuffer s
          (if decide (0 < NBodySimulation.particleCount s)%Z
           then NBodySimulation.centerParticle buf else buf),
        (k + 4 * n)%nat).
Proof.
  intros HG Hc n buf. unfold NBodySimulation.initializeParticles.
  destruct (decide (NBodySimulation.particleCount s * 8 < 0)%Z); [lia |].
  rewrite (initParticle_loop rng _ rng_range HG). cbn [mbind result_bind].
  replace (Z.to_nat (NBodySimulation.particleCount s * 8)) with (n * 8)%nat
    by (unfold n; lia).
  reflexivity.
Qed.

Lemma cpu_setParticleCount_capped count s k :
  0 <= SimpleNBodySimulation.gravityStrength s ->
  4000 < count ->
  exists s' k',
    SimpleNBodySimulation.setParticleCount rng count s k = Ok (s', k') /\
    SimpleNBodySimulation.particleCount s' = 4000%Z /\
    length (SimpleNBodySimulation.particles s') = 4000%nat.
Proof.
  intros HG Hc.
  unfold SimpleNBodySimulation.setParticleCount.
  rewrite Rmin_right by lra. rewrite floor_IZR.
  rewrite cpu_initializeParticles_ok by exact HG.
  eexists _, _. split; [reflexivity |]. split; [reflexivity |].
  cbn [SimpleNBodySimulation.particles SimpleNBodySimulation.set_particles
       SimpleNBodySimulation.particleCount
       SimpleNBodySimulation.set_particleCount].
  rewrite cpu_center_length, length_map, length_seq. reflexivity.
Qed.

(** [setParticleCount] reaches [initializeParticles] exactly when the
    floor of the request is not negative. *)
Lemma gpu_setParticleCount_cases count s :
  NBodySimulation.setParticleCount rng count s =
  if decide (floor count < 0)%Z
  then mret (NBodySimulation.set_particleCount s (floor count))
  else NBodySimulation.initializeParticles rng
         (NBodySimulation.set_particleCount s (floor count)).
Proof.
  unfold NBodySimulation.setParticleCount, NBodySimulation.initResources,
    NBodySimulation.particleBufferSize.
  cbn [NBodySimulation.particleCount NBodySimulation.set_particleCount].
  destruct (decide (floor count * 8 * 4 < 0)%Z),
    (decide (floor count < 0)%Z); try reflexivity; lia.
Qed.

Lemma gpu_setParticleCount_uncapped count s k :
  0 <= NBodySimulation.gravityStrength s ->
  0 <= count ->
  exists s' k',
    NBodySimulation.setParticleCount rng count s k = Ok (s', k') /\
    NBodySimulation.particleCount s' = floor count /\
    length (NBodySimulation.particleBuffer s')
    = (Z.to_nat (floor count) * 8)%nat.
Proof.
  intros HG Hc. pose proof (floor_nonneg count Hc) as Hfl.
  rewrite gpu_setParticleCount_cases.
  destruct (decide (floor count < 0)%Z) as [Hneg | _]; [lia |].
  rewrite gpu_initializeParticles_ok by (try exact HG; exact Hfl).
  eexists _, _. split; [reflexivity |]. split; [reflexivity |].
  cbn [NBodySimulation.particleBuffer NBodySimulation.set_particleBuffer
       NBodySimulation.particleCount NBodySimulation.set_particleCount
       NBodySimulation.gravityStrength].
  destruct (decide (0 < floor count)%Z);
    rewrite ?centerParticle_write, ?length_writeParticle, length_filled,
      length_replicate; reflexivity.
Qed.

End InitialStore.

(** C4, as stated, fails on the CPU version: with one particle, the store
    after [initializeParticles] holds a particle of mass 2 at the origin. *)
Lemma C4_cpu_center_mass_is_not_one :
  SimpleNBodySimulation.initializeParticles still
    (SimpleNBodySimulation.mkSim 1 1 1 0.999 []) 0%nat
  = Ok (SimpleNBodySimulation.mkSim 1 1 1 0.999
          [SimpleNBodySimulation.mkParticle (Vec3 0 0 0) 2.0 (Vec3 0 0 0)],
        4%nat)
  /\ SimpleNBodySimulation.mass
       (SimpleNBodySimulation.mkParticle (Vec3 0 0 0) 2.0 (Vec3 0 0 0)) <> 1.
Proof.
  split.
  - rewrite (cpu_initializeParticles_ok still still_range) by (simpl; lra).
    reflexivity.
  - simpl. lra.
Qed.

(** C4, amended.  For a generator with values in [0, 1), a gravity strength
    that is not negative and a count that is not negative,
    [initializeParticles] completes and the store holds exactly [count]
    particles; every particle of index at least 1 is at a radius in
    [5, 25) from the origin, has a mass in [0.5, 1.0) and a velocity of
    magnitude [sqrt (gravityStrength * 100 / radius) * 0.3], perpendicular
    to its position and with no z component; particle 0 is at the origin
    with zero velocity, and its mass is 1 in the compute version and 2 in
    the CPU version.  [resetSimulation] and [setParticleCount] rerun
    [initializeParticles]; in the compute version [setParticleCount] does so
    when the floor of the requested count is not negative, and otherwise
    only stores that floor. *)
Theorem C4_initial_particle_store :
  forall (rng : nat -> R) (k : nat),
    (forall n, 0 <= rng n < 1) ->
    (forall s : NBodySimulation.sim,
        0 <= NBodySimulation.gravityStrength s ->
        (0 <= NBodySimulation.particleCount s)%Z ->
        let count := Z.to_nat (NBodySimulation.particleCount s) in
        exists s' k',
          NBodySimulation.initializeParticles rng s k = Ok (s', k') /\
          NBodySimulation.particleCount s' = NBodySimulation.particleCount s /\
          length (NBodySimulation.particleBuffer s') = (count * 8)%nat /\
          (forall i, (count <= i)%nat ->
             NBodySimulation.particleAt (NBodySimulation.particleBuffer s') i
             = None) /\
          (forall i, (1 <= i < count)%nat ->
             exists p,
               NBodySimulation.particleAt (NBodySimulation.particleBuffer s') i
               = Some p /\
               orbiting (NBodySimulation.gravityStrength s) p) /\
          ((0 < count)%nat ->
             NBodySimulation.particleAt (NBodySimulation.particleBuffer s') 0
             = Some (Wgsl.mkParticle (Vec3 0 0 0) 1 (Vec3 0 0 0) 0))) /\
    (forall s : SimpleNBodySimulation.sim,
        0 <= SimpleNBodySimulation.gravityStrength s ->
        let count := Z.to_nat (SimpleNBodySimulation.particleCount s) in
        exists s' k',
          SimpleNBodySimulation.initializeParticles rng s k = Ok (s', k') /\
          SimpleNBodySimulation.particleCount s'
          = SimpleNBodySimulation.particleCount s /\
          length (SimpleNBodySimulation.particles s') = count /\
          (forall i, (1 <= i < count)%nat ->
             exists p,
               SimpleNBodySimulation.particles s' !! i = Some p /\
               orbiting (SimpleNBodySimulation.gravityStrength s)
                 (SimpleNBodySimulation.pack p)) /\
          ((0 < count)%nat ->
             SimpleNBodySimulation.particles s' !! 0%nat
             = Some (SimpleNBodySimulation.mkParticle
                       (Vec3 0 0 0) 2 (Vec3 0 0 0)))) /\
    (forall (s : NBodySimulation.sim) (c : R),
        NBodySimulation.resetSimulation rng s
        = NBodySimulation.initializeParticles rng s /\
        NBodySimulation.setParticleCount rng c s
        = (if decide (floor c < 0)%Z
           then mret (NBodySimulation.set_particleCount s (floor c))
           else NBodySimulation.initializeParticles rng
                  (NBodySimulation.set_particleCount s (floor c)))) /\
    (forall (s : SimpleNBodySimulation.sim) (c : R),
        SimpleNBodySimulation.resetSimulation rng s
        = SimpleNBodySimulation.initializeParticles rng s /\
        SimpleNBodySimulation.setParticleCount rng c s
        = SimpleNBodySimulation.initializeParticles rng
            (SimpleNBodySimulation.set_particleCount s
               (floor (Rmin c 4000)))).
Proof.
  intros rng k Hrng. split; [| split; [| split]].
  - intros s HG Hc count.
    rewrite (gpu_initializeParticles_ok rng Hrng s k HG Hc). fold count.
    set (G := NBodySimulation.gravityStrength s).
    set (buf := filled rng G 0 count (replicate (count * 8) 0) k).
    assert (Hlen : length buf = (count * 8)%nat)
      by (unfold buf; rewrite length_filled, length_replicate; reflexivity).
    assert (Hin : forall i, (i < count)%nat ->
              NBodySimulation.particleAt buf i
              = Some (uploaded rng G (k + 4 * i))).
    { intros i Hi. unfold buf.
      rewrite (particleAt_filled_inside rng G)
        by (rewrite ?length_replicate; lia).
      do 2 f_equal. lia. }
    eexists _, _. split; [reflexivity |]. simpl.
    destruct (decide (0 < NBodySimulation.particleCount s)%Z)
      as [Hpos | Hzero].
    + rewrite centerParticle_write.
      split; [reflexivity |].
      split; [rewrite length_writeParticle; exact Hlen |].
      split; [intros i Hi; apply particleAt_beyond;
              rewrite length_writeParticle; lia |].
      split.
      * intros i Hi. exists (uploaded rng G (k + 4 * i)).
        rewrite particleAt_write_other by lia.
        split; [apply Hin; lia | apply uploaded_orbiting; assumption].
      * intros Hcount. rewrite particleAt_write_same by lia.
        do 2 f_equal. lra.
    + assert (count = 0%nat) as Hc0 by lia.
      split; [reflexivity |]. split; [exact Hlen |].
      split; [intros i Hi; apply particleAt_beyond; lia |].
      split; [intros i Hi; lia | intros Hcount; lia].
  - intros s HG count.
    rewrite (cpu_initializeParticles_ok rng Hrng s k HG). fold count.
    set (G := SimpleNBodySimulation.gravityStrength s).
    set (ps := map (fun i => sampled rng G (k + 4 * i)) (seq 0 count)).
    assert (Hin : forall i, (i < count)%nat ->
              ps !! i = Some (sampled rng G (k + 4 * i))).
    { intros i Hi. unfold ps.
      rewrite list_lookup_fmap, lookup_seq_lt by exact Hi. reflexivity. }
    eexists _, _. split; [reflexivity |]. simpl.
    split; [reflexivity |].
    split; [rewrite cpu_center_length; unfold ps;
            rewrite length_map, length_seq; reflexivity |].
    split.
    + intros i Hi. destruct i as [| i]; [lia |].
      exists (sampled rng G (k + 4 * S i)).
      rewrite cpu_center_lookup_S.
      split; [apply Hin; lia |].
      apply (uploaded_orbiting rng G Hrng (k + 4 * S i)).
    + intros Hcount. rewrite (cpu_center_lookup_0 ps _ (Hin 0%nat Hcount)).
      do 2 f_equal. lra.
  - intros s c. split; [reflexivity | apply gpu_setParticleCount_cases].
  - intros s c. split; reflexivity.
Qed.

Lemma C4_witness :
  exists s' k',
    SimpleNBodySimulation.initializeParticles still
      (SimpleNBodySimulation.mkSim 2 1 1 0.999 []) 0%nat = Ok (s', k') /\
    length (SimpleNBodySimulation.particles s') = 2%nat.
Proof.
  destruct (C4_initial_particle_store still 0 still_range) as (_ & Hcpu & _).
  destruct (Hcpu (SimpleNBodySimulation.mkSim 2 1 1 0.999 []))
    as (s' & k' & Hrun & _ & Hlen & _).
  - simpl. lra.
  - exists s', k'. split; [exact Hrun | exact Hlen].
Defined.

(** C10, as stated, fails: a request for 5000 particles completes without a
    fault, and leaves 4000 particles. *)
Lemma C10_cap_is_silent :
  (r ← SimpleNBodySimulation.setParticleCount still 5000
         (SimpleNBodySimulation.mkSim 500 1 1 0.999 []) 0%nat;
   mret (SimpleNBodySimulation.particleCount r.1,
         length (SimpleNBodySimulation.particles r.1)))
  = Ok (4000%Z, 4000%nat).
Proof.
  destruct (cpu_setParticleCount_capped still still_range 5000
              (SimpleNBodySimulation.mkSim 500 1 1 0.999 []) 0)
    as (s' & k' & Hrun & Hcount & Hlen); [simpl; lra | lra |].
  rewrite Hrun. simpl. rewrite Hcount, Hlen. reflexivity.
Qed.

(** C10, amended.  [setParticleCount] reports nothing to its caller: in the
    CPU version a count above 4000 completes with the particle count set to
    4000 and a store of 4000 particles; the compute version has no maximum
    and completes with the particle count set to the floor of the request.
    (For a generator with values in [0, 1) and a gravity strength that is
    not negative.) *)
Theorem C10_resize_never_reports :
  forall (rng : nat -> R) (count : R) (k : nat),
    (forall n, 0 <= rng n < 1) ->
    (forall s : SimpleNBodySimulation.sim,
        0 <= SimpleNBodySimulation.gravityStrength s ->
        4000 < count ->
        exists s' k',
          SimpleNBodySimulation.setParticleCount rng count s k
          = Ok (s', k') /\
          SimpleNBodySimulation.particleCount s' = 4000%Z /\
          length (SimpleNBodySimulation.particles s') = 4000%nat) /\
    (forall s : NBodySimulation.sim,
        0 <= NBodySimulation.gravityStrength s ->
        0 <= count ->
        exists s' k',
          NBodySimulation.setParticleCount rng count s k = Ok (s', k') /\
          NBodySimulation.particleCount s' = floor count /\
          length (NBodySimulation.particleBuffer s')
          = (Z.to_nat (floor count) * 8)%nat).
Proof.
  intros rng count k Hrng. split.
  - intros s HG Hc. apply cpu_setParticleCount_capped; assumption.
  - intros s HG Hc. apply gpu_setParticleCount_uncapped; assumption.
Qed.

Lemma C10_witness :
  exists s' k',
    SimpleNBodySimulation.setParticleCount still 4001
      (SimpleNBodySimulation.mkSim 500 1 1 0.999 []) 0%nat = Ok (s', k') /\
    SimpleNBodySimulation.particleCount s' = 4000%Z /\
    length (SimpleNBodySimulation.particles s') = 4000%nat.
Proof.
  apply (proj1 (C10_resize_never_reports still 4001 0 still_range)
           (SimpleNBodySimulation.mkSim 500 1 1 0.999 [])); simpl; lra.
Defined.

(** ** Mirror symmetry of two bodies *)

Lemma steppedVelocity_vneg dt damp F m v :
  steppedVelocity dt damp (vneg F) m (vneg v)
  = vneg (steppedVelocity dt damp F m v).
Proof.
  unfold steppedVelocity, accelerated, vscale, vadd, vneg. simpl.
  apply vec3_eq; unfold Rdiv; ring.
Qed.

Lemma steppedPosition_vneg dt damp F m x v :
  steppedPosition dt damp (vneg F) m (vneg x) (vneg v)
  = vneg (steppedPosition dt damp F m x v).
Proof.
  unfold steppedPosition. rewrite steppedVelocity_vneg.
  unfold vscale, vadd, vneg. simpl. apply vec3_eq; ring.
Qed.

Lemma cpu_boundary_mirrored a b :
  cpuMirrored a b ->
  cpuMirrored (SimpleNBodySimulation.boundary a)
              (SimpleNBodySimulation.boundary b).
Proof.
  destruct a as [xa ma va], b as [xb mb vb].
  intros [[Hx Hv] Hm]. simpl in *. subst xb vb mb.
  rewrite !cpu_boundary_closed. unfold cpuMirrored, mirrored, vneg. simpl.
  rewrite !clampAxis_opp, !bounceAxis_opp. repeat split.
Qed.

Lemma wgsl_boundary_mirrored a b :
  wgslMirrored a b -> wgslMirrored (Wgsl.boundary a) (Wgsl.boundary b).
Proof.
  destruct a as [xa ma va pa], b as [xb mb vb pb].
  intros [[Hx Hv] Hm]. simpl in *. subst xb vb mb.
  rewrite !wgsl_boundary_closed. unfold wgslMirrored, mirrored, vneg. simpl.
  rewrite !clampAxis_opp, !bounceAxis_opp. repeat split.
Qed.

(** One CPU step of a mirrored pair. *)
Lemma cpu_step_mirrored deltaTime s a b :
  SimpleNBodySimulation.particleCount s = 2%Z ->
  SimpleNBodySimulation.particles s = [a; b] ->
  cpuMirrored a b ->
  SimpleNBodySimulation.mass a <> 0 ->
  exists a' b',
    SimpleNBodySimulation.updatePhysics deltaTime s
      = Ok (SimpleNBodySimulation.set_particles s [a'; b']) /\
    cpuMirrored a' b' /\
    SimpleNBodySimulation.mass a' = SimpleNBodySimulation.mass a.
Proof.
  intros Hcount Hps Hmir Hm.
  assert (Hmb : SimpleNBodySimulation.mass b <> 0)
    by (destruct Hmir as [_ ->]; exact Hm).
  destruct s as [count G ts damp ps]. simpl in Hcount, Hps. subst count ps.
  unfold SimpleNBodySimulation.updatePhysics.
  rewrite cpu_calculateForces_ok by reflexivity.
  cbn [mbind result_bind SimpleNBodySimulation.particleCount
       SimpleNBodySimulation.particles SimpleNBodySimulation.gravityStrength
       SimpleNBodySimulation.timeScale SimpleNBodySimulation.damping].
  change (Z.to_nat 2) with 2%nat. cbn [for_loop].
  erewrite cpu_integrateBody_closed;
    [| reflexivity | reflexivity | exact Hm].
  cbn [mbind result_bind].
  erewrite cpu_integrateBody_closed;
    [| reflexivity | reflexivity | exact Hmb].
  cbn [mbind result_bind mret result_ret].
  eexists _, _. split; [reflexivity |].
  split; [| rewrite cpu_boundary_closed; reflexivity].
  apply cpu_boundary_mirrored.
  destruct a as [xa ma va], b as [xb mb vb].
  destruct Hmir as [[Hx Hv] Hmass]. simpl in *. subst xb vb mb.
  unfold cpuMirrored, mirrored, softenedForce, softenedTerm. simpl.
  assert (HF : vadd vzero (softenedPairForce G ma ma (vsub xa (vneg xa)))
               = vneg (vadd vzero
                         (softenedPairForce G ma ma (vsub (vneg xa) xa)))).
  { rewrite (vsub_swap xa (vneg xa)), softenedPairForce_vneg.
    unfold vadd, vneg, vzero. simpl. apply vec3_eq; ring. }
  rewrite HF, steppedPosition_vneg, steppedVelocity_vneg. repeat split.
Qed.

Lemma cpu_run_mirrored deltaTime n : forall s a b,
  SimpleNBodySimulation.particleCount s = 2%Z ->
  SimpleNBodySimulation.particles s = [a; b] ->
  cpuMirrored a b ->
  SimpleNBodySimulation.mass a <> 0 ->
  exists a' b',
    iterate n (SimpleNBodySimulation.updatePhysics deltaTime) s
      = Ok (SimpleNBodySimulation.set_particles s [a'; b']) /\
    cpuMirrored a' b'.
Proof.
  induction n as [| n IH]; intros s a b Hcount Hps Hmir Hm.
  - exists a, b. split; [| exact Hmir]. simpl. rewrite <- Hps.
    destruct s. reflexivity.
  - destruct (cpu_step_mirrored deltaTime s a b Hcount Hps Hmir Hm)
      as (a1 & b1 & Hstep & Hmir1 & Hm1).
    destruct (IH (SimpleNBodySimulation.set_particles s [a1; b1]) a1 b1)
      as (a' & b' & Hrun & Hmir');
      [exact Hcount | reflexivity | exact Hmir1 | congruence |].
    exists a', b'. split; [| exact Hmir'].
    cbn [iterate]. rewrite Hstep. cbn [mbind result_bind]. rewrite Hrun.
    reflexivity.
Qed.

Lemma computeForces_coincident_0 params p q fs :
  Wgsl.particleCount params = 2%nat ->
  Wgsl.position p = Wgsl.position q ->
  Wgsl.computeForces params 0 (Wgsl.mkBuffers [p; q] fs) = Fault NonFinite.
Proof.
  intros Hc Hpos. unfold Wgsl.computeForces. rewrite Hc. simpl.
  unfold Wgsl.forceLoopBody. simpl.
  rewrite wgsl_pairForce_coincident by exact Hpos. reflexivity.
Qed.

(** One frame on a mirrored pair that is apart and has mass. *)
Lemma wgsl_step_mirrored_ok groups params p q f0 f1 rest :
  (1 <= groups)%nat ->
  Wgsl.particleCount params = 2%nat ->
  wgslMirrored p q ->
  Wgsl.position p <> Wgsl.position q ->
  Wgsl.mass p <> 0 ->
  exists p' q' fs',
    kernelFrame groups params (Wgsl.mkBuffers [p; q] (f0 :: f1 :: rest))
      = Ok (Wgsl.mkBuffers [p'; q'] fs') /\
    wgslMirrored p' q' /\ Wgsl.mass p' = Wgsl.mass p.
Proof.
  intros Hg Hc Hmir Hpos Hm.
  assert (Hmq : Wgsl.mass q <> 0) by (destruct Hmir as [_ ->]; exact Hm).
  unfold kernelFrame.
  rewrite dispatch_computeForces_two by assumption.
  unfold Wgsl.computeForces. rewrite Hc. simpl.
  unfold Wgsl.forceLoopBody. simpl.
  rewrite wgsl_pairForce_kernel by exact Hpos. simpl.
  rewrite wgsl_pairForce_kernel by congruence. simpl.
  rewrite dispatch_integrateParticles_two by assumption.
  erewrite wgsl_integrate_closed;
    [| lia | reflexivity | reflexivity | exact Hm]. simpl.
  erewrite wgsl_integrate_closed;
    [| lia | reflexivity | reflexivity | exact Hmq]. simpl.
  eexists _, _, _. split; [reflexivity |].
  split; [| rewrite wgsl_boundary_closed; reflexivity].
  apply wgsl_boundary_mirrored.
  destruct p as [xp mp vp pp], q as [xq mq vq pq].
  destruct Hmir as [[Hx Hv] Hmass]. simpl in *. subst xq vq mq.
  unfold wgslMirrored, mirrored. simpl.
  set (G := Wgsl.gravityStrength params).
  assert (HF : vadd vzero (kernelPairForce G mp mp (vsub xp (vneg xp)))
               = vneg (vadd vzero
                         (kernelPairForce G mp mp (vsub (vneg xp) xp)))).
  { rewrite (vsub_swap xp (vneg xp)), kernelPairForce_vneg.
    unfold vadd, vneg, vzero. simpl. apply vec3_eq; ring. }
  rewrite HF, steppedPosition_vneg, steppedVelocity_vneg. repeat split.
Qed.

(** A frame on a pair at one position does not complete. *)
Lemma wgsl_step_coincident groups params p q fs :
  (1 <= groups)%nat ->
  Wgsl.particleCount params = 2%nat ->
  Wgsl.position p = Wgsl.position q ->
  kernelFrame groups params (Wgsl.mkBuffers [p; q] fs) = Fault NonFinite.
Proof.
  intros Hg Hc Hpos. unfold kernelFrame.
  rewrite dispatch_computeForces_two by assumption.
  rewrite computeForces_coincident_0 by assumption. reflexivity.
Qed.

Lemma wgsl_step_mirrored groups params p q fs b' :
  (1 <= groups)%nat ->
  Wgsl.particleCount params = 2%nat ->
  wgslMirrored p q ->
  kernelFrame groups params (Wgsl.mkBuffers [p; q] fs) = Ok b' ->
  exists p' q' fs',
    b' = Wgsl.mkBuffers [p'; q'] fs' /\ wgslMirrored p' q'.
Proof.
  intros Hg Hc Hmir Hrun.
  destruct (vec3_eq_dec (Wgsl.position p) (Wgsl.position q)) as [Hpos | Hpos].
  { exfalso. revert Hrun.
    rewrite wgsl_step_coincident by assumption. discriminate. }
  destruct (Req_dec_T (Wgsl.mass p) 0) as [Hm | Hm].
  { exfalso. revert Hrun. unfold kernelFrame.
    destruct (NBodySimulation.dispatchWorkgroups
                (Wgsl.computeForces params) groups _)
      as [b1 | f] eqn:Hforce; simpl; [| discriminate].
    rewrite dispatch_integrateParticles_two by assumption.
    assert (Hps : Wgsl.particles b1 = [p; q]).
    { revert Hforce. rewrite dispatch_computeForces_two by assumption.
      intros Hforce.
      apply bind_Ok_inv in Hforce as (b0 & H0 & H1).
      apply wgsl_computeForces_inv in H0, H1.
      destruct H0 as [-> | (? & _ & ->)], H1 as [-> | (? & _ & ->)];
        reflexivity. }
    assert (H0 : exists f, Wgsl.integrateParticles params 0 b1 = Fault f).
    { unfold Wgsl.integrateParticles. rewrite Hc, Hps. simpl.
      destruct (load (Wgsl.forces b1) 0) as [force | f]; simpl; [| eauto].
      rewrite wgsl_advance_zero_mass by exact Hm. simpl. eauto. }
    destruct H0 as [f ->]. discriminate. }
  assert (Hshort : forall gs, (length gs < 2)%nat ->
            exists f,
              NBodySimulation.dispatchWorkgroups
                (Wgsl.computeForces params) groups (Wgsl.mkBuffers [p; q] gs)
              = Fault f).
  { intros gs Hlen. rewrite dispatch_computeForces_two by assumption.
    unfold Wgsl.computeForces. rewrite Hc. simpl.
    unfold Wgsl.forceLoopBody. simpl.
    rewrite wgsl_pairForce_kernel by exact Hpos. simpl.
    destruct gs as [| g0 [| g1 gs]]; simpl in *; [eauto | | lia].
    rewrite wgsl_pairForce_kernel by congruence. simpl. eauto. }
  destruct fs as [| f0 [| f1 rest]].
  - exfalso. destruct (Hshort []) as [f Hf]; [simpl; lia |].
    revert Hrun. unfold kernelFrame. rewrite Hf.
    discriminate.
  - exfalso. destruct (Hshort [f0]) as [f Hf]; [simpl; lia |].
    revert Hrun. unfold kernelFrame. rewrite Hf.
    discriminate.
  - destruct (wgsl_step_mirrored_ok groups params p q f0 f1 rest
                Hg Hc Hmir Hpos Hm)
      as (p' & q' & fs' & Hok & Hmir' & _).
    rewrite Hok in Hrun. injection Hrun as <-.
    exists p', q', fs'. split; [reflexivity | exact Hmir'].
Qed.

Lemma wgsl_run_mirrored groups params n : forall p q fs b',
  (1 <= groups)%nat ->
  Wgsl.particleCount params = 2%nat ->
  wgslMirrored p q ->
  iterate n (kernelFrame groups params) (Wgsl.mkBuffers [p; q] fs) = Ok b' ->
  exists p' q' fs',
    b' = Wgsl.mkBuffers [p'; q'] fs' /\ wgslMirrored p' q'.
Proof.
  induction n as [| n IH]; intros p q fs b' Hg Hc Hmir Hrun.
  - simpl in Hrun. injection Hrun as <-. exists p, q, fs.
    split; [reflexivity | exact Hmir].
  - cbn [iterate] in Hrun. apply bind_Ok_inv in Hrun as (b1 & Hstep & Hrest).
    apply wgsl_step_mirrored in Hstep as (p1 & q1 & fs1 & -> & Hmir1);
      try assumption.
    apply (IH p1 q1 fs1 b' Hg Hc Hmir1 Hrest).
Qed.

(** *** The pair that meets at the origin *)

Lemma contact_mirrored : wgslMirrored contactA contactB.
Proof.
  unfold wgslMirrored, mirrored, contactA, contactB, vneg. simpl.
  repeat split; apply vec3_eq; lra.
Qed.

Lemma contact_pull :
  kernelPairForce 1 1 1 (vsub (Vec3 (-1) 0 0) (Vec3 1 0 0))
    = Vec3 (-0.25) 0 0 /\
  kernelPairForce 1 1 1 (vsub (Vec3 1 0 0) (Vec3 (-1) 0 0))
    = Vec3 0.25 0 0.
Proof.
  unfold kernelPairForce, unit_vector, norm, dot, vsub, smul. simpl.
  replace ((-1 - 1) * (-1 - 1) + (0 - 0) * (0 - 0) + (0 - 0) * (0 - 0))
    with (2 * 2) by ring.
  replace ((1 - -1) * (1 - -1) + (0 - 0) * (0 - 0) + (0 - 0) * (0 - 0))
    with (2 * 2) by ring.
  rewrite sqrt_square by lra.
  split; apply vec3_eq; lra.
Qed.

Lemma clampAxis_inside x : Rabs x <= 50 -> clampAxis x = x.
Proof.
  intros H. unfold clampAxis.
  destruct (Rlt_dec 50 (Rabs x)); [lra | reflexivity].
Qed.

Lemma bounceAxis_inside x v : Rabs x <= 50 -> bounceAxis x v = v.
Proof.
  intros H. unfold bounceAxis.
  destruct (Rlt_dec 50 (Rabs x)); [lra | reflexivity].
Qed.

Lemma contact_frame groups :
  (1 <= groups)%nat ->
  kernelFrame groups contactParams contact = Ok touching.
Proof.
  intros Hg. unfold kernelFrame, contact.
  rewrite dispatch_computeForces_two by (exact Hg || reflexivity).
  unfold Wgsl.computeForces. simpl. unfold Wgsl.forceLoopBody. simpl.
  rewrite wgsl_pairForce_kernel by (simpl; intros E; injection E; lra).
  simpl.
  rewrite wgsl_pairForce_kernel by (simpl; intros E; injection E; lra).
  simpl.
  rewrite dispatch_integrateParticles_two by (exact Hg || reflexivity).
  erewrite wgsl_integrate_closed;
    [| simpl; lia | reflexivity | reflexivity | simpl; lra]. simpl.
  erewrite wgsl_integrate_closed;
    [| simpl; lia | reflexivity | reflexivity | simpl; lra]. simpl.
  rewrite (proj1 contact_pull), (proj2 contact_pull).
  replace (vadd vzero (Vec3 (-0.25) 0 0)) with (Vec3 (-0.25) 0 0)
    by (unfold vadd, vzero; simpl; apply vec3_eq; lra).
  replace (vadd vzero (Vec3 0.25 0 0)) with (Vec3 0.25 0 0)
    by (unfold vadd, vzero; simpl; apply vec3_eq; lra).
  replace (steppedVelocity 1 1 (Vec3 (-0.25) 0 0) 1 (Vec3 (-0.75) 0 0))
    with (Vec3 (-1) 0 0)
    by (unfold steppedVelocity, accelerated, vscale, vadd; simpl;
        apply vec3_eq; lra).
  replace (steppedVelocity 1 1 (Vec3 0.25 0 0) 1 (Vec3 0.75 0 0))
    with (Vec3 1 0 0)
    by (unfold steppedVelocity, accelerated, vscale, vadd; simpl;
        apply vec3_eq; lra).
  replace (steppedPosition 1 1 (Vec3 (-0.25) 0 0) 1 (Vec3 1 0 0)
             (Vec3 (-0.75) 0 0))
    with (Vec3 0 0 0)
    by (unfold steppedPosition, steppedVelocity, accelerated, vscale, vadd;
        simpl; apply vec3_eq; lra).
  replace (steppedPosition 1 1 (Vec3 0.25 0 0) 1 (Vec3 (-1) 0 0)
             (Vec3 0.75 0 0))
    with (Vec3 0 0 0)
    by (unfold steppedPosition, steppedVelocity, accelerated, vscale, vadd;
        simpl; apply vec3_eq; lra).
  rewrite !wgsl_boundary_closed. simpl.
  rewrite !clampAxis_inside, !bounceAxis_inside
    by (rewrite Rabs_R0; lra).
  reflexivity.
Qed.

(** C6.  Two bodies of equal, non-zero mass whose positions and velocities
    are mirrored about the origin.  In the CPU version any number [n] of
    steps completes and ends in a mirrored pair.  With the two kernels, a
    frame on a mirrored pair that is apart completes and leaves a mirrored
    pair, and every run of frames that completes ends in a mirrored pair;
    but a frame on a pair that has met does not complete, as the force
    kernel divides by the squared distance without the softening term: two
    unit masses at [(±1, 0, 0)] that approach at speed 0.75 (time step,
    gravity strength and damping 1) are both at the origin after the first
    frame, with velocities [(∓1, 0, 0)], and the second frame is not finite,
    where the CPU version runs on. *)
Theorem C6_mirror_symmetry_lost_at_contact :
  forall n : nat,
    (forall (deltaTime : R) (s : SimpleNBodySimulation.sim)
            (a b : SimpleNBodySimulation.particle),
        SimpleNBodySimulation.particleCount s = 2%Z ->
        SimpleNBodySimulation.particles s = [a; b] ->
        cpuMirrored a b ->
        SimpleNBodySimulation.mass a <> 0 ->
        exists a' b',
          iterate n (SimpleNBodySimulation.updatePhysics deltaTime) s
            = Ok (SimpleNBodySimulation.set_particles s [a'; b']) /\
          cpuMirrored a' b') /\
    (forall (groups : nat) (params : Wgsl.SimParams) (p q : Wgsl.Particle)
            (f0 f1 : vec3) (rest : list vec3),
        (1 <= groups)%nat ->
        Wgsl.particleCount params = 2%nat ->
        wgslMirrored p q ->
        Wgsl.position p <> Wgsl.position q ->
        Wgsl.mass p <> 0 ->
        exists p' q' fs',
          kernelFrame groups params
            (Wgsl.mkBuffers [p; q] (f0 :: f1 :: rest))
            = Ok (Wgsl.mkBuffers [p'; q'] fs') /\
          wgslMirrored p' q') /\
    (forall (groups : nat) (params : Wgsl.SimParams) (p q : Wgsl.Particle)
            (fs : list vec3) (b' : Wgsl.Buffers),
        (1 <= groups)%nat ->
        Wgsl.particleCount params = 2%nat ->
        wgslMirrored p q ->
        iterate n (kernelFrame groups params) (Wgsl.mkBuffers [p; q] fs)
          = Ok b' ->
        exists p' q' fs',
          b' = Wgsl.mkBuffers [p'; q'] fs' /\ wgslMirrored p' q') /\
    (forall (groups : nat) (params : Wgsl.SimParams) (p q : Wgsl.Particle)
            (fs : list vec3),
        (1 <= groups)%nat ->
        Wgsl.particleCount params = 2%nat ->
        Wgsl.position p = Wgsl.position q ->
        kernelFrame groups params (Wgsl.mkBuffers [p; q] fs)
          = Fault NonFinite) /\
    (forall groups : nat,
        (1 <= groups)%nat ->
        wgslMirrored contactA contactB /\
        kernelFrame groups contactParams contact = Ok touching /\
        kernelFrame groups contactParams touching = Fault NonFinite /\
        iterate (2 + n) (kernelFrame groups contactParams) contact
          = Fault NonFinite) /\
    (exists a' b',
        iterate (2 + n) (SimpleNBodySimulation.updatePhysics 1) cpuContact
          = Ok (SimpleNBodySimulation.set_particles cpuContact [a'; b']) /\
        cpuMirrored a' b').
Proof.
  intros n. split; [| split; [| split; [| split; [| split]]]].
  - intros deltaTime s a b. apply cpu_run_mirrored.
  - intros groups params p q f0 f1 rest Hg Hc Hmir Hpos Hm.
    destruct (wgsl_step_mirrored_ok groups params p q f0 f1 rest
                Hg Hc Hmir Hpos Hm)
      as (p' & q' & fs' & Hok & Hmir' & _).
    exists p', q', fs'. split; assumption.
  - intros groups params p q fs b'. apply wgsl_run_mirrored.
  - intros groups params p q fs. apply wgsl_step_coincident.
  - intros groups Hg.
    assert (Hmeet : kernelFrame groups contactParams touching
                    = Fault NonFinite)
      by (apply wgsl_step_coincident; [exact Hg | reflexivity | reflexivity]).
    split; [exact contact_mirrored |].
    split; [apply contact_frame; exact Hg |].
    split; [exact Hmeet |].
    change (2 + n)%nat with (S (S n)). cbn [iterate].
    rewrite (contact_frame groups Hg). cbn [mbind result_bind].
    rewrite Hmeet. reflexivity.
  - apply (cpu_run_mirrored 1 (2 + n) cpuContact cpuContactA cpuContactB);
      try reflexivity.
    + unfold cpuMirrored, mirrored, vneg. simpl.
      repeat split; apply vec3_eq; lra.
    + simpl. lra.
Qed.

Lemma C6_witness :
  exists a' b',
    iterate 3 (SimpleNBodySimulation.updatePhysics 0.016) twoBodies
      = Ok (SimpleNBodySimulation.set_particles twoBodies [a'; b']) /\
    cpuMirrored a' b'.
Proof.
  apply (proj1 (C6_mirror_symmetry_lost_at_contact 3)
           0.016 twoBodies bodyA bodyB).
  - reflexivity.
  - reflexivity.
  - unfold cpuMirrored, mirrored, bodyA, bodyB, vneg. simpl.
    repeat split; apply vec3_eq; lra.
  - simpl. lra.
Defined.



(** ** The camera *)

Section CameraProofs.

Import Camera.

Lemma mat3_eq a0 a1 a2 a3 a4 a5 a6 a7 a8 b0 b1 b2 b3 b4 b5 b6 b7 b8 :
  a0 = b0 -> a1 = b1 -> a2 = b2 -> a3 = b3 -> a4 = b4 -> a5 = b5 ->
  a6 = b6 -> a7 = b7 -> a8 = b8 ->
  Mat3 a0 a1 a2 a3 a4 a5 a6 a7 a8 = Mat3 b0 b1 b2 b3 b4 b5 b6 b7 b8.
Proof. congruence. Qed.

Ltac mat3_ring :=
  unfold multiply3x3, transpose, identity; simpl; apply mat3_eq; ring.

Lemma multiply3x3_assoc a b c :
  multiply3x3 (multiply3x3 a b) c = multiply3x3 a (multiply3x3 b c).
Proof. destruct a, b, c. mat3_ring. Qed.

Lemma multiply3x3_identity_l a : multiply3x3 identity a = a.
Proof. destruct a. mat3_ring. Qed.

Lemma transpose_multiply3x3 a b :
  transpose (multiply3x3 a b) = multiply3x3 (transpose b) (transpose a).
Proof. destruct a, b. mat3_ring. Qed.

Lemma det_multiply3x3 a b : det (multiply3x3 a b) = det a * det b.
Proof. destruct a, b. unfold det, multiply3x3. simpl. ring. Qed.

Lemma proper_rotation_identity : proper_rotation identity.
Proof.
  split; [split; mat3_ring | unfold det, identity; simpl; ring].
Qed.

Lemma orthonormal_multiply3x3 a b :
  orthonormal a -> orthonormal b -> orthonormal (multiply3x3 a b).
Proof.
  intros [Ha1 Ha2] [Hb1 Hb2]. split; rewrite transpose_multiply3x3.
  - rewrite multiply3x3_assoc, <- (multiply3x3_assoc (transpose a)), Ha1,
      multiply3x3_identity_l. exact Hb1.
  - rewrite multiply3x3_assoc, <- (multiply3x3_assoc b), Hb2,
      multiply3x3_identity_l. exact Ha2.
Qed.

Lemma proper_rotation_multiply3x3 a b :
  proper_rotation a -> proper_rotation b ->
  proper_rotation (multiply3x3 a b).
Proof.
  intros [Ha Hda] [Hb Hdb]. split.
  - apply orthonormal_multiply3x3; assumption.
  - rewrite det_multiply3x3, Hda, Hdb. ring.
Qed.

(** Rodrigues' matrix for a unit axis is a proper rotation. *)
Lemma rodrigues_proper x y z angle :
  x * x + y * y + z * z = 1 -> proper_rotation (rodrigues x y z angle).
Proof.
  intros Hunit. unfold rodrigues.
  pose proof (sin2_cos2 angle) as Hsc. unfold Rsqr in Hsc.
  set (c := cos angle) in *. set (s := sin angle) in *.
  split; [split |].
  - unfold multiply3x3, transpose, identity; simpl. apply mat3_eq; nsatz.
  - unfold multiply3x3, transpose, identity; simpl. apply mat3_eq; nsatz.
  - unfold det. simpl. nsatz.
Qed.

(** The columns of an orthonormal matrix have unit length. *)
Lemma orthonormal_columns a :
  orthonormal a ->
  m0 a * m0 a + m3 a * m3 a + m6 a * m6 a = 1 /\
  m1 a * m1 a + m4 a * m4 a + m7 a * m7 a = 1 /\
  m2 a * m2 a + m5 a * m5 a + m8 a * m8 a = 1.
Proof.
  intros [H _]. destruct a. unfold multiply3x3, transpose, identity in H.
  simpl in *. injection H as H0 H1 H2 H3 H4 H5 H6 H7 H8.
  repeat split; lra.
Qed.

Lemma rotateAroundAxis_proper x y z angle c :
  x * x + y * y + z * z = 1 ->
  proper_rotation (rotMatrix c) ->
  proper_rotation (rotMatrix (rotateAroundAxis x y z angle c)).
Proof.
  intros Hunit Hc. unfold rotateAroundAxis. simpl.
  apply proper_rotation_multiply3x3;
    [apply rodrigues_proper; exact Hunit | exact Hc].
Qed.

Lemma rotateAroundCameraUp_proper angle c :
  proper_rotation (rotMatrix c) ->
  proper_rotation (rotMatrix (rotateAroundCameraUp angle c)).
Proof.
  intros Hc. unfold rotateAroundCameraUp.
  apply rotateAroundAxis_proper; [| exact Hc].
  destruct Hc as [Ho _]. apply orthonormal_columns in Ho. tauto.
Qed.

Lemma rotateAroundCameraRight_proper angle c :
  proper_rotation (rotMatrix c) ->
  proper_rotation (rotMatrix (rotateAroundCameraRight angle c)).
Proof.
  intros Hc. unfold rotateAroundCameraRight.
  apply rotateAroundAxis_proper; [| exact Hc].
  destruct Hc as [Ho _]. apply orthonormal_columns in Ho. tauto.
Qed.

Lemma rotate_proper c r :
  proper_rotation (rotMatrix c) -> proper_rotation (rotMatrix (rotate c r)).
Proof.
  destruct r; simpl;
    [apply rotateAroundCameraUp_proper | apply rotateAroundCameraRight_proper].
Qed.

Lemma dragTo_proper x y c :
  proper_rotation (rotMatrix c) -> proper_rotation (rotMatrix (dragTo x y c)).
Proof.
  intros Hc. unfold dragTo. simpl.
  destruct (Rlt_dec 0.001 (Rabs (x - lastMouseX c)));
    destruct (Rlt_dec 0.001 (Rabs (y - lastMouseY c)));
    repeat first [ exact Hc
                 | apply rotateAroundCameraRight_proper
                 | apply rotateAroundCameraUp_proper ].
Qed.

Lemma handle_proper c e :
  proper_rotation (rotMatrix c) -> proper_rotation (rotMatrix (handle c e)).
Proof.
  intros Hc. destruct e as [x y | x y | | d | t | t | | |]; simpl.
  - exact Hc.
  - unfold onMouseMove. destruct (negb (isMouseDown c)); [exact Hc |].
    apply dragTo_proper. exact Hc.
  - exact Hc.
  - exact Hc.
  - unfold onTouchStart. destruct t as [| [x y] [| ? ?]]; exact Hc.
  - unfold onTouchMove. destruct t as [| [x y] [| ? ?]]; try exact Hc.
    destruct (isMouseDown c); [apply dragTo_proper |]; exact Hc.
  - exact Hc.
  - exact Hc.
  - apply proper_rotation_identity.
Qed.

Lemma foldl_proper {E} (f : CameraController -> E -> CameraController) :
  (forall c e, proper_rotation (rotMatrix c) ->
               proper_rotation (rotMatrix (f c e))) ->
  forall es c, proper_rotation (rotMatrix c) ->
               proper_rotation (rotMatrix (foldl f c es)).
Proof.
  intros Hf es. induction es as [| e es IH]; intros c Hc; simpl; [exact Hc |].
  apply IH, Hf, Hc.
Qed.

(** C7.  From the state the constructor leaves (the identity orientation),
    after any sequence of calls of [rotateAroundCameraUp] and
    [rotateAroundCameraRight], and after any sequence of events of the
    controller, the orientation matrix has orthonormal columns and rows and
    determinant 1, in exact real arithmetic. *)
Theorem C7_orientation_stays_proper_rotation :
  forall (camera0 : camera) (rs : list rotation) (es : list event),
    let c := foldl rotate (constructor camera0) rs in
    (multiply3x3 (transpose (rotMatrix c)) (rotMatrix c) = identity /\
     multiply3x3 (rotMatrix c) (transpose (rotMatrix c)) = identity /\
     det (rotMatrix c) = 1) /\
    proper_rotation (rotMatrix (run (constructor camera0) es)).
Proof.
  intros camera0 rs es.
  assert (H0 : proper_rotation (rotMatrix (constructor camera0)))
    by apply proper_rotation_identity.
  split.
  - destruct (foldl_proper rotate rotate_proper rs _ H0) as [[H1 H2] H3].
    auto.
  - apply (foldl_proper handle handle_proper es _ H0).
Qed.

(** *** Zoom *)

Lemma update_distance c :
  distance (update c)
  = distance c + (targetDistance c - distance c) * smoothing c.
Proof. reflexivity. Qed.

Lemma iter_update_keeps n c :
  targetDistance (Nat.iter n update c) = targetDistance c /\
  smoothing (Nat.iter n update c) = smoothing c.
Proof.
  induction n as [| n [IH1 IH2]]; [split; reflexivity |].
  rewrite Nat.iter_succ. split; [exact IH1 | exact IH2].
Qed.

(** The gap to the target shrinks by the factor [1 - smoothing] at each
    [update]. *)
Lemma iter_update_gap n c :
  targetDistance c - distance (Nat.iter n update c) =
  (1 - smoothing c) ^ n * (targetDistance c - distance c).
Proof.
  induction n as [| n IH]; [simpl; ring |].
  rewrite Nat.iter_succ, update_distance.
  destruct (iter_update_keeps n c) as [Ht Hs]. rewrite Ht, Hs.
  transitivity ((1 - smoothing c)
                * (targetDistance c - distance (Nat.iter n update c)));
    [ring |].
  rewrite IH. simpl. ring.
Qed.

Lemma pow_unit_interval k n : 0 <= k <= 1 -> 0 <= k ^ n <= 1.
Proof. intros Hk. induction n as [| n IH]; simpl; [lra | nra]. Qed.

Lemma clamp_range a : 10 <= Rmax 10 (Rmin 500 a) <= 500.
Proof.
  unfold Rmax, Rmin. destruct (Rle_dec 500 a); destruct (Rle_dec 10 _); lra.
Qed.

Lemma between_step d t k :
  0 <= k <= 1 -> Rmin d t <= d + (t - d) * k <= Rmax d t.
Proof. intros Hk. unfold Rmin, Rmax. destruct (Rle_dec d t); nra. Qed.

Lemma dragTo_distance x y c : distance (dragTo x y c) = distance c.
Proof.
  unfold dragTo. simpl.
  destruct (Rlt_dec 0.001 (Rabs (x - lastMouseX c)));
    destruct (Rlt_dec 0.001 (Rabs (y - lastMouseY c))); reflexivity.
Qed.

Lemma input_keeps_distance e c :
  isInput e = true -> distance (handle c e) = distance c.
Proof.
  destruct e as [x y | x y | | d | t | t | | |]; simpl; intros H;
    try discriminate; try reflexivity.
  - unfold onMouseMove. destruct (negb (isMouseDown c)); [reflexivity |].
    apply dragTo_distance.
  - unfold onTouchStart. destruct t as [| [x y] [| ? ?]]; reflexivity.
  - unfold onTouchMove. destruct t as [| [x y] [| ? ?]]; try reflexivity.
    destruct (isMouseDown c); [apply dragTo_distance | reflexivity].
Qed.

(** The gap to the target becomes smaller than any positive bound. *)
Lemma geometric_gap_vanishes g eps :
  0 < eps ->
  exists N, forall n, (N <= n)%nat -> Rabs (0.9 ^ n * g) < eps.
Proof.
  intros Heps. destruct (Req_dec_T g 0) as [-> | Hg].
  - exists 0%nat. intros n _. rewrite Rmult_0_r, Rabs_R0. exact Heps.
  - assert (Hag : 0 < Rabs g) by (apply Rabs_pos_lt; exact Hg).
    destruct (pow_lt_1_zero 0.9) with (y := eps / Rabs g) as [N HN].
    + rewrite Rabs_pos_eq; lra.
    + apply Rdiv_lt_0_compat; assumption.
    + exists N. intros n Hn. rewrite Rabs_mult.
      apply Rlt_le_trans with (eps / Rabs g * Rabs g).
      * apply Rmult_lt_compat_r; [exact Hag |]. apply HN. lia.
      * right. field. lra.
Qed.

(** C8, as stated, fails: [distance] also changes in [reset].  After a
    wheel event and one [update] the distance is 99, and [reset] sets it
    to 100. *)
Lemma C8_reset_changes_distance :
  let c := run (constructor (mkCamera vzero vzero)) [Wheel 0; Update] in
  distance c = 99 /\
  distance (handle c Reset) = 100 /\
  distance (handle c Reset) <> distance c.
Proof.
  cbv zeta. unfold run. cbn [foldl handle].
  assert (Hd : distance
                 (update (onWheel 0 (constructor (mkCamera vzero vzero))))
               = 99).
  { rewrite update_distance. unfold onWheel. simpl.
    destruct (Rlt_dec 0 0) as [H | _]; [lra |].
    rewrite Rmin_right by lra. rewrite Rmax_right by lra. lra. }
  split; [exact Hd |]. split; [reflexivity |].
  rewrite Hd. simpl. lra.
Qed.

(** C8, amended.  A wheel event sets [targetDistance] to its old value
    times [1 + 0.1] (for a positive [deltaY]) or [1 - 0.1], clamped to
    [10, 500], and keeps [distance]; so does every other input event.
    [update] moves [distance] by the fraction [0.1] of the gap to
    [targetDistance], which it keeps; after [n] updates the gap is
    [0.9 ^ n] times the first one, each new [distance] lies between the
    previous one and the target, all of them lie between the first one and
    the target, the gap never grows, and it gets below every positive
    bound.  [reset] sets [distance] and [targetDistance] to 100: an event
    that changes [distance] is an [update] or a [reset]. *)
Theorem C8_zoom_is_smoothed :
  forall (c : CameraController) (deltaY : R),
    smoothing c = 0.1 ->
    let t := targetDistance c in
    let d (n : nat) := distance (Nat.iter n update c) in
    (targetDistance (onWheel deltaY c) =
       Rmax 10 (Rmin 500
                  (t * (if Rlt_dec 0 deltaY then 1 + 0.1 else 1 - 0.1))) /\
     10 <= targetDistance (onWheel deltaY c) <= 500 /\
     distance (onWheel deltaY c) = distance c) /\
    (forall e, isInput e = true -> distance (handle c e) = distance c) /\
    (distance (update c) = distance c + (t - distance c) * 0.1 /\
     targetDistance (update c) = t) /\
    (forall n,
       targetDistance (Nat.iter n update c) = t /\
       t - d n = 0.9 ^ n * (t - distance c) /\
       Rmin (d n) t <= d (S n) <= Rmax (d n) t /\
       Rmin (distance c) t <= d n <= Rmax (distance c) t /\
       Rabs (t - d (S n)) <= Rabs (t - d n)) /\
    (forall eps, 0 < eps ->
       exists N, forall n, (N <= n)%nat -> Rabs (t - d n) < eps) /\
    (distance (reset c) = 100 /\ targetDistance (reset c) = 100) /\
    (forall e, distance (handle c e) <> distance c -> e = Update \/ e = Reset).
Proof.
  intros c deltaY Hs t d.
  assert (Hgap : forall k, t - d k = 0.9 ^ k * (t - distance c)).
  { intros k. unfold d, t. rewrite iter_update_gap, Hs.
    replace (1 - 0.1) with 0.9 by lra. reflexivity. }
  split; [| split; [| split; [| split; [| split; [| split]]]]].
  - split; [reflexivity |]. split; [| reflexivity].
    unfold onWheel. simpl. apply clamp_range.
  - intros e He. apply input_keeps_distance. exact He.
  - split; [| reflexivity]. rewrite update_distance, Hs. reflexivity.
  - intros n.
    destruct (iter_update_keeps n c) as [Ht Hsn].
    assert (Hstep : d (S n) = d n + (t - d n) * 0.1).
    { unfold d. rewrite Nat.iter_succ, update_distance, Ht, Hsn, Hs.
      reflexivity. }
    split; [exact Ht |]. split; [apply Hgap |].
    split; [rewrite Hstep; apply between_step; lra |].
    split.
    + pose proof (Hgap n) as Hn.
      pose proof (pow_unit_interval 0.9 n ltac:(lra)) as Hp.
      replace (d n) with (distance c + (t - distance c) * (1 - 0.9 ^ n))
        by lra.
      apply between_step. lra.
    + replace (t - d (S n)) with (0.9 * (t - d n)) by (rewrite Hstep; lra).
      rewrite Rabs_mult, (Rabs_pos_eq 0.9) by lra.
      pose proof (Rabs_pos (t - d n)). lra.
  - intros eps Heps.
    destruct (geometric_gap_vanishes (t - distance c) eps Heps) as [N HN].
    exists N. intros n Hn. rewrite Hgap. apply HN, Hn.
  - split; reflexivity.
  - intros e He.
    destruct (isInput e) eqn:Hin.
    + exfalso. apply He. apply input_keeps_distance. exact Hin.
    + destruct e; try discriminate; [left | right]; reflexivity.
Qed.

Lemma C8_witness :
  distance (onWheel 1 (constructor (mkCamera vzero vzero)))
  = distance (constructor (mkCamera vzero vzero)).
Proof.
  destruct (C8_zoom_is_smoothed (constructor (mkCamera vzero vzero)) 1)
    as [(_ & _ & H) _].
  - reflexivity.
  - exact H.
Defined.

End CameraProofs.

(** * Proofs for the rest of the pipeline *)

(** ** The controller and the shared camera *)

Section CameraFrame.

Import Camera.

Lemma foldl_invariant {St E} (P : St -> Prop) (f : St -> E -> St) :
  (forall c e, P c -> P (f c e)) ->
  forall es c, P c -> P (foldl f c es).
Proof.
  intros Hf es. induction es as [| e es IH]; intros c Hc; simpl; [exact Hc |].
  apply IH, Hf, Hc.
Qed.

Lemma controller_eq c c' :
  cam c = cam c' -> isMouseDown c = isMouseDown c' ->
  lastMouseX c = lastMouseX c' -> lastMouseY c = lastMouseY c' ->
  distance c = distance c' -> targetDistance c = targetDistance c' ->
  rotMatrix c = rotMatrix c' -> smoothing c = smoothing c' -> c = c'.
Proof. destruct c, c'. simpl. congruence. Qed.

(** *** The shared camera object follows the controller *)

Lemma updateCameraPosition_coherent c : coherent (updateCameraPosition c).
Proof. split; reflexivity. Qed.

Lemma dragTo_coherent x y c : coherent (dragTo x y c).
Proof. unfold dragTo. apply updateCameraPosition_coherent. Qed.

Lemma handle_coherent c e : coherent c -> coherent (handle c e).
Proof.
  intros Hc. destruct e as [x y | x y | | d | t | t | | |]; simpl.
  - exact Hc.
  - unfold onMouseMove. destruct (negb (isMouseDown c)); [exact Hc |].
    apply dragTo_coherent.
  - exact Hc.
  - exact Hc.
  - unfold onTouchStart. destruct t as [| [x y] [| ? ?]]; exact Hc.
  - unfold onTouchMove. destruct t as [| [x y] [| ? ?]]; try exact Hc.
    destruct (isMouseDown c); [apply dragTo_coherent | exact Hc].
  - exact Hc.
  - apply updateCameraPosition_coherent.
  - apply updateCameraPosition_coherent.
Qed.

Lemma dragTo_zoom x y c :
  targetDistance (dragTo x y c) = targetDistance c /\
  smoothing (dragTo x y c) = smoothing c.
Proof.
  unfold dragTo. simpl.
  destruct (Rlt_dec 0.001 (Rabs (x - lastMouseX c)));
    destruct (Rlt_dec 0.001 (Rabs (y - lastMouseY c))); split; reflexivity.
Qed.

Lemma dragTo_zoomRange x y c : zoomRange c -> zoomRange (dragTo x y c).
Proof.
  unfold zoomRange. destruct (dragTo_zoom x y c) as [-> ->].
  rewrite dragTo_distance. tauto.
Qed.

Lemma handle_zoomRange c e : zoomRange c -> zoomRange (handle c e).
Proof.
  intros Hc. destruct e as [x y | x y | | d | t | t | | |]; simpl.
  - exact Hc.
  - unfold onMouseMove. destruct (negb (isMouseDown c)); [exact Hc |].
    apply dragTo_zoomRange, Hc.
  - exact Hc.
  - destruct Hc as (Ht & Hd & Hs). unfold zoomRange, onWheel. simpl.
    split; [apply clamp_range | split; assumption].
  - unfold onTouchStart. destruct t as [| [x y] [| ? ?]]; exact Hc.
  - unfold onTouchMove. destruct t as [| [x y] [| ? ?]]; try exact Hc.
    destruct (isMouseDown c); [apply dragTo_zoomRange |]; exact Hc.
  - exact Hc.
  - destruct Hc as (Ht & Hd & Hs). unfold zoomRange, update. simpl.
    rewrite Hs. repeat split; lra.
  - destruct Hc as (_ & _ & Hs). unfold zoomRange, reset. simpl.
    rewrite Hs. lra.
Qed.

Lemma constructor_zoomRange camera0 : zoomRange (constructor camera0).
Proof. unfold zoomRange, constructor. simpl. lra. Qed.

Lemma run_proper camera0 es :
  proper_rotation (rotMatrix (run (constructor camera0) es)).
Proof.
  apply (foldl_proper handle handle_proper es).
  apply proper_rotation_identity.
Qed.

Lemma run_coherent camera0 es : coherent (run (constructor camera0) es).
Proof.
  apply (foldl_invariant coherent handle handle_coherent es).
  apply updateCameraPosition_coherent.
Qed.

Lemma run_zoomRange camera0 es : zoomRange (run (constructor camera0) es).
Proof.
  apply (foldl_invariant zoomRange handle handle_zoomRange es).
  apply constructor_zoomRange.
Qed.

(** The rows and columns of an orthonormal matrix, as equations. *)
Lemma orthonormal_equations a :
  orthonormal a ->
  (m0 a * m0 a + m3 a * m3 a + m6 a * m6 a = 1 /\
   m1 a * m1 a + m4 a * m4 a + m7 a * m7 a = 1 /\
   m2 a * m2 a + m5 a * m5 a + m8 a * m8 a = 1) /\
  (m0 a * m1 a + m3 a * m4 a + m6 a * m7 a = 0 /\
   m0 a * m2 a + m3 a * m5 a + m6 a * m8 a = 0 /\
   m1 a * m2 a + m4 a * m5 a + m7 a * m8 a = 0).
Proof.
  intros [H _]. destruct a. unfold multiply3x3, transpose, identity in H.
  simpl in *. injection H as H0 H1 H2 H3 H4 H5 H6 H7 H8.
  repeat split; lra.
Qed.

(** X1.  After the constructor and any sequence of events, the shared
    [camera] object agrees with the controller: its position is the forward
    column of [rotMatrix] times [distance] and its up vector is the up column.
    So the camera is at the distance [distance] from the origin, its up
    vector has length 1 and is perpendicular to its position. *)
Theorem X1_camera_follows_orientation :
  forall (camera0 : camera) (es : list event),
    let c := run (constructor camera0) es in
    position (cam c) = vscale (forwardColumn (rotMatrix c)) (distance c) /\
    up (cam c) = upColumn (rotMatrix c) /\
    norm (position (cam c)) = distance c /\
    norm (up (cam c)) = 1 /\
    dot (up (cam c)) (position (cam c)) = 0.
Proof.
  intros camera0 es c.
  destruct (run_coherent camera0 es) as [Hp Hu].
  destruct (run_zoomRange camera0 es) as (_ & Hd & _).
  destruct (run_proper camera0 es) as [Ho _].
  apply orthonormal_equations in Ho.
  destruct Ho as [(_ & Hu1 & Hf1) (_ & _ & Huf)].
  fold c in Hp, Hu, Hd, Hu1, Hf1, Huf.
  split; [exact Hp |]. split; [exact Hu |].
  rewrite Hp, Hu. unfold norm, dot, vscale, forwardColumn, upColumn. simpl.
  split; [| split].
  - replace (_ + _ + _) with
      ((m2 (rotMatrix c) * m2 (rotMatrix c)
        + m5 (rotMatrix c) * m5 (rotMatrix c)
        + m8 (rotMatrix c) * m8 (rotMatrix c)) * (distance c * distance c))
      by ring.
    rewrite Hf1, Rmult_1_l. apply sqrt_square. lra.
  - rewrite Hu1. apply sqrt_1.
  - replace (_ + _ + _) with
      ((m1 (rotMatrix c) * m2 (rotMatrix c)
        + m4 (rotMatrix c) * m5 (rotMatrix c)
        + m7 (rotMatrix c) * m8 (rotMatrix c)) * distance c) by ring.
    rewrite Huf. ring.
Qed.

(** X2.  After the constructor and any sequence of events,
    [targetDistance] and [distance] both lie in [10, 500] and [smoothing]
    is 0.1. *)
Theorem X2_zoom_stays_in_range :
  forall (camera0 : camera) (es : list event),
    let c := run (constructor camera0) es in
    10 <= targetDistance c <= 500 /\
    10 <= distance c <= 500 /\
    smoothing c = 0.1.
Proof. intros camera0 es. exact (run_zoomRange camera0 es). Qed.

End CameraFrame.

Section CameraRotations.

Import Camera.

(** A rotation about a unit axis keeps the axis. *)
Lemma rodrigues_fixes_axis x y z angle a :
  x * x + y * y + z * z = 1 ->
  (m1 a = x /\ m4 a = y /\ m7 a = z ->
   upColumn (multiply3x3 (rodrigues x y z angle) a) = Vec3 x y z) /\
  (m0 a = x /\ m3 a = y /\ m6 a = z ->
   rightColumn (multiply3x3 (rodrigues x y z angle) a) = Vec3 x y z).
Proof.
  intros Hunit. unfold rodrigues, upColumn, rightColumn, multiply3x3.
  set (c := cos angle). set (s := sin angle).
  split; intros (-> & -> & ->); simpl; apply vec3_eq; nsatz.
Qed.

(** Two rotations about the same unit axis are the rotation by the sum of
    the angles. *)
Lemma rodrigues_add x y z a b :
  x * x + y * y + z * z = 1 ->
  multiply3x3 (rodrigues x y z b) (rodrigues x y z a)
  = rodrigues x y z (a + b).
Proof.
  intros Hunit. unfold rodrigues. rewrite cos_plus, sin_plus.
  set (ca := cos a). set (sa := sin a). set (cb := cos b). set (sb := sin b).
  unfold multiply3x3. simpl. apply mat3_eq; nsatz.
Qed.

Lemma rodrigues_zero x y z : rodrigues x y z 0 = identity.
Proof.
  unfold rodrigues, identity. rewrite cos_0, sin_0. apply mat3_eq; ring.
Qed.

Lemma set_rotMatrix_same c : set_rotMatrix c (rotMatrix c) = c.
Proof. destruct c. reflexivity. Qed.

Lemma rotateAroundCameraUp_column angle c :
  orthonormal (rotMatrix c) ->
  upColumn (rotMatrix (rotateAroundCameraUp angle c))
  = upColumn (rotMatrix c).
Proof.
  intros Ho. apply orthonormal_columns in Ho. destruct Ho as (_ & Hu & _).
  unfold rotateAroundCameraUp, rotateAroundAxis. simpl.
  destruct (rodrigues_fixes_axis _ _ _ angle (rotMatrix c) Hu) as [H _].
  rewrite H; [reflexivity | tauto].
Qed.

Lemma rotateAroundCameraRight_column angle c :
  orthonormal (rotMatrix c) ->
  rightColumn (rotMatrix (rotateAroundCameraRight angle c))
  = rightColumn (rotMatrix c).
Proof.
  intros Ho. apply orthonormal_columns in Ho. destruct Ho as (Hr & _ & _).
  unfold rotateAroundCameraRight, rotateAroundAxis. simpl.
  destruct (rodrigues_fixes_axis _ _ _ angle (rotMatrix c) Hr) as [_ H].
  rewrite H; [reflexivity | tauto].
Qed.

Lemma rotateAroundCameraUp_add a b c :
  orthonormal (rotMatrix c) ->
  rotateAroundCameraUp b (rotateAroundCameraUp a c)
  = rotateAroundCameraUp (a + b) c.
Proof.
  intros Ho. pose proof (rotateAroundCameraUp_column a c Ho) as Hcol.
  apply orthonormal_columns in Ho. destruct Ho as (_ & Hu & _).
  pose proof (f_equal vec_x Hcol) as H1.
  pose proof (f_equal vec_y Hcol) as H4.
  pose proof (f_equal vec_z Hcol) as H7.
  cbn [upColumn vec_x vec_y vec_z] in H1, H4, H7.
  change (rotateAroundCameraUp b (rotateAroundCameraUp a c))
    with (rotateAroundAxis
            (m1 (rotMatrix (rotateAroundCameraUp a c)))
            (m4 (rotMatrix (rotateAroundCameraUp a c)))
            (m7 (rotMatrix (rotateAroundCameraUp a c)))
            b (rotateAroundCameraUp a c)).
  rewrite H1, H4, H7.
  unfold rotateAroundCameraUp, rotateAroundAxis.
  apply controller_eq; try reflexivity. simpl.
  rewrite <- multiply3x3_assoc, rodrigues_add by exact Hu. reflexivity.
Qed.

Lemma rotateAroundCameraRight_add a b c :
  orthonormal (rotMatrix c) ->
  rotateAroundCameraRight b (rotateAroundCameraRight a c)
  = rotateAroundCameraRight (a + b) c.
Proof.
  intros Ho. pose proof (rotateAroundCameraRight_column a c Ho) as Hcol.
  apply orthonormal_columns in Ho. destruct Ho as (Hr & _ & _).
  pose proof (f_equal vec_x Hcol) as H0.
  pose proof (f_equal vec_y Hcol) as H3.
  pose proof (f_equal vec_z Hcol) as H6.
  cbn [rightColumn vec_x vec_y vec_z] in H0, H3, H6.
  change (rotateAroundCameraRight b (rotateAroundCameraRight a c))
    with (rotateAroundAxis
            (m0 (rotMatrix (rotateAroundCameraRight a c)))
            (m3 (rotMatrix (rotateAroundCameraRight a c)))
            (m6 (rotMatrix (rotateAroundCameraRight a c)))
            b (rotateAroundCameraRight a c)).
  rewrite H0, H3, H6.
  unfold rotateAroundCameraRight, rotateAroundAxis.
  apply controller_eq; try reflexivity. simpl.
  rewrite <- multiply3x3_assoc, rodrigues_add by exact Hr. reflexivity.
Qed.

Lemma rotateAroundCameraUp_zero c : rotateAroundCameraUp 0 c = c.
Proof.
  unfold rotateAroundCameraUp, rotateAroundAxis.
  rewrite rodrigues_zero, multiply3x3_identity_l. apply set_rotMatrix_same.
Qed.

Lemma rotateAroundCameraRight_zero c : rotateAroundCameraRight 0 c = c.
Proof.
  unfold rotateAroundCameraRight, rotateAroundAxis.
  rewrite rodrigues_zero, multiply3x3_identity_l. apply set_rotMatrix_same.
Qed.

(** X3.  For an orthonormal [rotMatrix], [rotateAroundCameraUp] keeps the
    up column of the matrix and [rotateAroundCameraRight] keeps its right
    column: each rotation fixes its own axis. *)
Theorem X3_yaw_keeps_up_pitch_keeps_right :
  forall (angle : R) (c : CameraController),
    orthonormal (rotMatrix c) ->
    upColumn (rotMatrix (rotateAroundCameraUp angle c))
    = upColumn (rotMatrix c) /\
    rightColumn (rotMatrix (rotateAroundCameraRight angle c))
    = rightColumn (rotMatrix c).
Proof.
  intros angle c Ho. split;
    [apply rotateAroundCameraUp_column | apply rotateAroundCameraRight_column];
    exact Ho.
Qed.

Lemma X3_yaw_keeps_up_pitch_keeps_right_witness :
  orthonormal (rotMatrix (constructor (mkCamera vzero vzero))) /\
  upColumn (rotMatrix (rotateAroundCameraUp 1
                         (constructor (mkCamera vzero vzero))))
  = Vec3 0 1 0.
Proof.
  assert (Ho : orthonormal (rotMatrix (constructor (mkCamera vzero vzero))))
    by apply proper_rotation_identity.
  split; [exact Ho |].
  destruct (X3_yaw_keeps_up_pitch_keeps_right 1 _ Ho) as [H _].
  rewrite H. reflexivity.
Defined.

(** X4.  For an orthonormal [rotMatrix], a rotation about the up axis by
    [a] followed by one by [b] is the rotation by [a + b]; the same holds
    for the right axis; a rotation followed by the opposite one restores the
    controller. *)
Theorem X4_rotations_about_one_axis_add :
  forall (a b : R) (c : CameraController),
    orthonormal (rotMatrix c) ->
    rotateAroundCameraUp b (rotateAroundCameraUp a c)
    = rotateAroundCameraUp (a + b) c /\
    rotateAroundCameraRight b (rotateAroundCameraRight a c)
    = rotateAroundCameraRight (a + b) c /\
    rotateAroundCameraUp (- a) (rotateAroundCameraUp a c) = c /\
    rotateAroundCameraRight (- a) (rotateAroundCameraRight a c) = c.
Proof.
  intros a b c Ho.
  split; [apply rotateAroundCameraUp_add, Ho |].
  split; [apply rotateAroundCameraRight_add, Ho |].
  split.
  - rewrite rotateAroundCameraUp_add by exact Ho.
    rewrite Rplus_opp_r. apply rotateAroundCameraUp_zero.
  - rewrite rotateAroundCameraRight_add by exact Ho.
    rewrite Rplus_opp_r. apply rotateAroundCameraRight_zero.
Qed.

Lemma X4_rotations_about_one_axis_add_witness :
  rotateAroundCameraUp (- 1)
    (rotateAroundCameraUp 1 (constructor (mkCamera vzero vzero)))
  = constructor (mkCamera vzero vzero).
Proof.
  apply (X4_rotations_about_one_axis_add 1 0).
  apply proper_rotation_identity.
Defined.

End CameraRotations.

Section CameraDrags.

Import Camera.

(** A drag along the x axis of the screen is one rotation about the up
    axis. *)
Lemma horizontal_drag x y c :
  lastMouseY c = y ->
  0.001 < Rabs (x - lastMouseX c) ->
  dragTo x y c
  = updateCameraPosition
      (set_lastMouse
         (rotateAroundCameraUp (- (x - lastMouseX c) * 0.01) c) x y).
Proof.
  intros Hy Hx. unfold dragTo.
  destruct (Rlt_dec 0.001 (Rabs (x - lastMouseX c))) as [_ | Hn];
    [| contradiction].
  destruct (Rlt_dec 0.001 (Rabs (y - _))) as [Hlt | _]; [| reflexivity].
  exfalso. revert Hlt. cbn [rotateAroundCameraUp rotateAroundAxis
    set_rotMatrix lastMouseY]. rewrite Hy.
  replace (y - y) with 0 by ring. rewrite Rabs_R0. lra.
Qed.

Lemma horizontal_drags_add x1 x2 y c :
  orthonormal (rotMatrix c) ->
  lastMouseY c = y ->
  0.001 < Rabs (x1 - lastMouseX c) ->
  0.001 < Rabs (x2 - x1) ->
  dragTo x2 y (dragTo x1 y c)
  = updateCameraPosition
      (set_lastMouse
         (rotateAroundCameraUp (- (x2 - lastMouseX c) * 0.01) c) x2 y).
Proof.
  intros Ho Hy H1 H2.
  rewrite (horizontal_drag x1 y c Hy H1).
  rewrite horizontal_drag; [| reflexivity | exact H2].
  set (a := - (x1 - lastMouseX c) * 0.01).
  cbn [updateCameraPosition set_lastMouse set_cam lastMouseX].
  replace (- (x2 - lastMouseX c) * 0.01) with (a + - (x2 - x1) * 0.01)
    by (unfold a; ring).
  rewrite <- (rotateAroundCameraUp_add a (- (x2 - x1) * 0.01) c Ho).
  reflexivity.
Qed.

(** X5.  Horizontal drags compose.  With an orthonormal [rotMatrix] and the
    pointer kept on the row [lastMouseY], two drags of more than 0.001 each
    end in the state of the direct drag to the last point, when that drag is
    longer than 0.001 too; and when the second drag comes back to the column
    the first one started from, [rotMatrix] is what it was. *)
Theorem X5_horizontal_drags_compose :
  forall (x1 x2 y : R) (c : CameraController),
    orthonormal (rotMatrix c) ->
    lastMouseY c = y ->
    0.001 < Rabs (x1 - lastMouseX c) ->
    0.001 < Rabs (x2 - x1) ->
    (0.001 < Rabs (x2 - lastMouseX c) ->
     dragTo x2 y (dragTo x1 y c) = dragTo x2 y c) /\
    (x2 = lastMouseX c ->
     rotMatrix (dragTo x2 y (dragTo x1 y c)) = rotMatrix c).
Proof.
  intros x1 x2 y c Ho Hy H1 H2.
  rewrite (horizontal_drags_add x1 x2 y c Ho Hy H1 H2). split.
  - intros H3. rewrite (horizontal_drag x2 y c Hy H3). reflexivity.
  - intros ->. replace (- (lastMouseX c - lastMouseX c) * 0.01) with 0 by ring.
    rewrite rotateAroundCameraUp_zero. reflexivity.
Qed.

Lemma X5_horizontal_drags_compose_witness :
  rotMatrix
    (dragTo 0 0 (dragTo 1 0 (constructor (mkCamera vzero vzero))))
  = identity.
Proof.
  destruct (X5_horizontal_drags_compose 1 0 0
              (constructor (mkCamera vzero vzero))) as [_ Hback].
  - apply proper_rotation_identity.
  - reflexivity.
  - simpl. unfold Rabs. destruct (Rcase_abs (1 - 0)); lra.
  - unfold Rabs. destruct (Rcase_abs (0 - 1)); lra.
  - apply Hback. reflexivity.
Defined.

(** X6.  A wheel step out and a wheel step in do not cancel: in either
    order, and as long as neither meets the clamp, they leave
    [targetDistance] at 0.99 times its value. *)
Theorem X6_wheel_out_and_in_loses_a_hundredth :
  forall (down back : R) (c : CameraController),
    0 < down -> back <= 0 ->
    10 <= 0.9 * targetDistance c ->
    1.1 * targetDistance c <= 500 ->
    targetDistance (onWheel back (onWheel down c)) = 0.99 * targetDistance c /\
    targetDistance (onWheel down (onWheel back c)) = 0.99 * targetDistance c.
Proof.
  intros down back c Hd Hu Hlo Hhi. unfold onWheel. simpl.
  destruct (Rlt_dec 0 down) as [_ | Hn]; [| contradiction].
  destruct (Rlt_dec 0 back) as [Hp | _]; [exfalso; lra |].
  split.
  - rewrite (Rmin_right 500 (targetDistance c * _)) by lra.
    rewrite (Rmax_right 10 (targetDistance c * _)) by lra.
    rewrite Rmin_right by lra. rewrite Rmax_right by lra. lra.
  - rewrite (Rmin_right 500 (targetDistance c * _)) by lra.
    rewrite (Rmax_right 10 (targetDistance c * _)) by lra.
    rewrite Rmin_right by lra. rewrite Rmax_right by lra. lra.
Qed.

Lemma X6_wheel_out_and_in_loses_a_hundredth_witness :
  targetDistance
    (onWheel (-1) (onWheel 1 (constructor (mkCamera vzero vzero))))
  = 0.99 * 100.
Proof.
  apply (X6_wheel_out_and_in_loses_a_hundredth 1 (-1)
           (constructor (mkCamera vzero vzero))); simpl; lra.
Defined.

(** X7.  The constructor overwrites the camera it is given: the position
    becomes (0, 0, 100) and the up vector (0, 1, 0).  After any sequence of
    events, [reset] gives that camera again, with the distances, the
    orientation and the smoothing of the constructor. *)
Theorem X7_reset_restores_the_initial_view :
  forall (camera0 camera1 : camera) (es : list event),
    let c0 := constructor camera0 in
    let c := reset (run (constructor camera1) es) in
    cam c0 = mkCamera (Vec3 0 0 100) (Vec3 0 1 0) /\
    cam c = cam c0 /\
    distance c = distance c0 /\
    targetDistance c = targetDistance c0 /\
    rotMatrix c = rotMatrix c0 /\
    smoothing c = smoothing c0.
Proof.
  intros camera0 camera1 es c0 c.
  destruct (run_zoomRange camera1 es) as (_ & _ & Hs).
  split; [| repeat split].
  - unfold c0, constructor, updateCameraPosition. simpl.
    f_equal. apply vec3_eq; ring.
  - unfold c. cbn [reset updateCameraPosition set_cam set_rotMatrix
      set_targetDistance set_distance smoothing]. rewrite Hs. reflexivity.
Qed.

End CameraDrags.

(** ** gl-matrix.js *)

Lemma mat4x4_eq a0 a1 a2 a3 a4 a5 a6 a7 a8 a9 a10 a11 a12 a13 a14 a15
    b0 b1 b2 b3 b4 b5 b6 b7 b8 b9 b10 b11 b12 b13 b14 b15 :
  a0 = b0 -> a1 = b1 -> a2 = b2 -> a3 = b3 -> a4 = b4 -> a5 = b5 ->
  a6 = b6 -> a7 = b7 -> a8 = b8 -> a9 = b9 -> a10 = b10 -> a11 = b11 ->
  a12 = b12 -> a13 = b13 -> a14 = b14 -> a15 = b15 ->
  Mat4x4 a0 a1 a2 a3 a4 a5 a6 a7 a8 a9 a10 a11 a12 a13 a14 a15
  = Mat4x4 b0 b1 b2 b3 b4 b5 b6 b7 b8 b9 b10 b11 b12 b13 b14 b15.
Proof. intros. subst. reflexivity. Qed.

Lemma vec4_eq x y z w x' y' z' w' :
  x = x' -> y = y' -> z = z' -> w = w' -> Vec4 x y z w = Vec4 x' y' z' w'.
Proof. congruence. Qed.

Lemma glmatrix_length_norm a : GlMatrix.vec3.length a = Ok (norm a).
Proof.
  unfold GlMatrix.vec3.length. rewrite fsqrt_ok; [reflexivity |].
  apply (dot_self_nonneg a).
Qed.

Lemma unit_vector_dot a : a <> vzero -> dot (unit_vector a) (unit_vector a) = 1.
Proof.
  intros Ha. pose proof (norm_pos a Ha) as Hn.
  assert (Hsq : norm a * norm a = dot a a).
  { unfold norm. apply sqrt_sqrt, dot_self_nonneg. }
  unfold unit_vector, dot in *. simpl.
  set (n := norm a) in *.
  apply Rmult_eq_reg_r with (n * n); [| nra].
  transitivity (vec_x a * vec_x a + vec_y a * vec_y a + vec_z a * vec_z a);
    [field; lra | lra].
Qed.

Lemma norm_vzero : norm vzero = 0.
Proof.
  unfold norm, dot, vzero. simpl.
  replace (0 * 0 + 0 * 0 + 0 * 0) with 0 by ring. apply sqrt_0.
Qed.

(** X8.  [vec3.normalize] never faults: for the zero vector it returns
    [out] as it was, for any other vector the vector divided by its length,
    which has length 1. *)
Theorem X8_vec3_normalize_unit_or_untouched :
  forall (out a : vec3),
    (a = vzero -> GlMatrix.vec3.normalize out a = Ok out) /\
    (a <> vzero ->
     GlMatrix.vec3.normalize out a = Ok (unit_vector a) /\
     dot (unit_vector a) (unit_vector a) = 1) /\
    (exists n, GlMatrix.vec3.normalize out a = Ok n).
Proof.
  intros out a.
  assert (H0 : a = vzero -> GlMatrix.vec3.normalize out a = Ok out).
  { intros ->. unfold GlMatrix.vec3.normalize.
    rewrite glmatrix_length_norm, norm_vzero. simpl.
    destruct (Rlt_dec 0 0); [lra | reflexivity]. }
  assert (H1 : a <> vzero ->
               GlMatrix.vec3.normalize out a = Ok (unit_vector a)).
  { intros Ha. pose proof (norm_pos a Ha) as Hn.
    unfold GlMatrix.vec3.normalize. rewrite glmatrix_length_norm. simpl.
    destruct (Rlt_dec 0 (norm a)); [| contradiction].
    rewrite !fdiv_ok by lra. reflexivity. }
  split; [exact H0 |]. split.
  - intros Ha. split; [apply H1, Ha | apply unit_vector_dot, Ha].
  - destruct (vec3_eq_dec a vzero) as [Hz | Hn]; eauto.
Qed.

Lemma X8_vec3_normalize_unit_or_untouched_witness :
  GlMatrix.vec3.normalize (Vec3 1 2 3) vzero = Ok (Vec3 1 2 3).
Proof.
  apply (X8_vec3_normalize_unit_or_untouched (Vec3 1 2 3) vzero). reflexivity.
Defined.

(** *** [mat4.multiply] *)

Lemma mat4_multiply_assoc out a b c :
  GlMatrix.mat4.multiply out (GlMatrix.mat4.multiply out a b) c
  = GlMatrix.mat4.multiply out a (GlMatrix.mat4.multiply out b c).
Proof.
  destruct a, b, c. unfold GlMatrix.mat4.multiply. simpl.
  apply mat4x4_eq; ring.
Qed.

Lemma mat4_multiply_create_l out a :
  GlMatrix.mat4.multiply out GlMatrix.mat4.create a = a.
Proof.
  destruct a. unfold GlMatrix.mat4.multiply, GlMatrix.mat4.create.
  simpl.
  apply mat4x4_eq; ring.
Qed.

Lemma mat4_multiply_create_r out a :
  GlMatrix.mat4.multiply out a GlMatrix.mat4.create = a.
Proof.
  destruct a. unfold GlMatrix.mat4.multiply, GlMatrix.mat4.create.
  simpl.
  apply mat4x4_eq; ring.
Qed.

Lemma transform_multiply out a b v :
  QuadShader.transform (GlMatrix.mat4.multiply out a b) v
  = QuadShader.transform a (QuadShader.transform b v).
Proof.
  destruct a, b, v. unfold GlMatrix.mat4.multiply, QuadShader.transform.
  simpl.
  apply vec4_eq; ring.
Qed.

(** X9.  [mat4.multiply(out, a, b)] is the matrix product in the convention
    of the shaders: the result applied to a vector is [a] applied to [b]
    applied to the vector.  It is associative, [mat4.create()] is its unit on
    both sides, what [out] held has no influence, and [mat4.identity] writes
    that unit. *)
Theorem X9_mat4_multiply_composes :
  forall (out out' a b c : mat4x4) (v : vec4),
    QuadShader.transform (GlMatrix.mat4.multiply out a b) v
    = QuadShader.transform a (QuadShader.transform b v) /\
    GlMatrix.mat4.multiply out (GlMatrix.mat4.multiply out' a b) c
    = GlMatrix.mat4.multiply out a (GlMatrix.mat4.multiply out' b c) /\
    GlMatrix.mat4.multiply out GlMatrix.mat4.create a = a /\
    GlMatrix.mat4.multiply out a GlMatrix.mat4.create = a /\
    GlMatrix.mat4.identity out = GlMatrix.mat4.create.
Proof.
  intros out out' a b c v.
  split; [apply transform_multiply |].
  split; [apply (mat4_multiply_assoc out) |].
  split; [apply mat4_multiply_create_l |].
  split; [apply mat4_multiply_create_r | reflexivity].
Qed.

(** *** Vector algebra for [lookAt] *)

Lemma dot_vscale_l a k b : dot (vscale a k) b = k * dot a b.
Proof. unfold dot, vscale. simpl. ring. Qed.

Lemma dot_vscale_r a k b : dot a (vscale b k) = k * dot a b.
Proof. unfold dot, vscale. simpl. ring. Qed.

Lemma dot_comm a b : dot a b = dot b a.
Proof. unfold dot. ring. Qed.

Lemma dot_cross_l a b : dot (cross a b) a = 0.
Proof. unfold dot, cross. simpl. ring. Qed.

Lemma dot_cross_r a b : dot (cross a b) b = 0.
Proof. unfold dot, cross. simpl. ring. Qed.

Lemma cross_vscale_r a b k : cross a (vscale b k) = vscale (cross a b) k.
Proof. unfold cross, vscale. simpl. apply vec3_eq; ring. Qed.

Lemma cross_vscale_l a b k : cross (vscale a k) b = vscale (cross a b) k.
Proof. unfold cross, vscale. simpl. apply vec3_eq; ring. Qed.

Lemma cross_vzero_r a : cross a vzero = vzero.
Proof. unfold cross, vzero. simpl. apply vec3_eq; ring. Qed.

Lemma lagrange a b :
  dot (cross a b) (cross a b) = dot a a * dot b b - dot a b * dot a b.
Proof. unfold dot, cross. simpl. ring. Qed.

Lemma vscale_vzero k : vscale vzero k = vzero.
Proof. unfold vscale, vzero. simpl. apply vec3_eq; ring. Qed.

Lemma vscale_nonzero a k : a <> vzero -> k <> 0 -> vscale a k <> vzero.
Proof.
  intros Ha Hk Hz. apply Ha. destruct a as [x y z].
  unfold vscale, vzero in *. simpl in Hz. injection Hz as Hx Hy Hz.
  apply vec3_eq; nra.
Qed.

Lemma norm_zero_iff a : norm a = 0 <-> a = vzero.
Proof.
  split.
  - intros H. apply dot_self_zero. unfold norm in H.
    apply sqrt_eq_0; [apply dot_self_nonneg | exact H].
  - intros ->. apply norm_vzero.
Qed.

Lemma norm_sqr a : norm a * norm a = dot a a.
Proof. unfold norm. apply sqrt_sqrt, dot_self_nonneg. Qed.

Lemma unit_or_zero_vzero : unit_or_zero vzero = vzero.
Proof.
  unfold unit_or_zero. destruct (Req_dec_T (norm vzero) 0) as [_ | H];
    [reflexivity |]. exfalso. apply H, norm_vzero.
Qed.

Lemma unit_or_zero_scaled a : exists k, unit_or_zero a = vscale a k.
Proof.
  unfold unit_or_zero. destruct (Req_dec_T (norm a) 0) as [H | H].
  - exists 0. apply norm_zero_iff in H. subst a. symmetry. apply vscale_vzero.
  - eauto.
Qed.

Lemma unit_or_zero_unit a :
  a <> vzero -> dot (unit_or_zero a) (unit_or_zero a) = 1.
Proof.
  intros Ha. pose proof (norm_pos a Ha) as Hn. pose proof (norm_sqr a) as Hs.
  unfold unit_or_zero. destruct (Req_dec_T (norm a) 0) as [H | _]; [lra |].
  rewrite dot_vscale_l, dot_vscale_r, <- Hs. field. lra.
Qed.

Lemma unit_or_zero_of_unit a : dot a a = 1 -> unit_or_zero a = a.
Proof.
  intros H. assert (Hn : norm a = 1) by (unfold norm; rewrite H; apply sqrt_1).
  unfold unit_or_zero. rewrite Hn.
  destruct (Req_dec_T 1 0) as [H1 | _]; [lra |].
  destruct a. unfold vscale. simpl. apply vec3_eq; field.
Qed.

(** *** [mat4.lookAt] *)

Lemma Rltb_true a b : a < b -> Rltb a b = true.
Proof. intros H. unfold Rltb. destruct (Rlt_dec a b); tauto. Qed.

Lemma Rltb_false a b : ~ a < b -> Rltb a b = false.
Proof. intros H. unfold Rltb. destruct (Rlt_dec a b); tauto. Qed.

Lemma coincident_dec eye center :
  {coincident eye center} + {~ coincident eye center}.
Proof.
  unfold coincident.
  destruct (Rlt_dec (Rabs (vec_x eye - vec_x center)) 0.000001);
    [| right; tauto].
  destruct (Rlt_dec (Rabs (vec_y eye - vec_y center)) 0.000001);
    [| right; tauto].
  destruct (Rlt_dec (Rabs (vec_z eye - vec_z center)) 0.000001);
    [left | right]; tauto.
Qed.

Lemma coincident_test eye center :
  Rltb (Rabs (vec_x eye - vec_x center)) 0.000001 &&
  Rltb (Rabs (vec_y eye - vec_y center)) 0.000001 &&
  Rltb (Rabs (vec_z eye - vec_z center)) 0.000001
  = if coincident_dec eye center then true else false.
Proof.
  destruct (coincident_dec eye center) as [(Hx & Hy & Hz) | Hn].
  - rewrite !Rltb_true by assumption. reflexivity.
  - unfold coincident in Hn. unfold Rltb.
    destruct (Rlt_dec (Rabs (vec_x eye - vec_x center)) 0.000001);
      [| reflexivity].
    destruct (Rlt_dec (Rabs (vec_y eye - vec_y center)) 0.000001);
      [| reflexivity].
    destruct (Rlt_dec (Rabs (vec_z eye - vec_z center)) 0.000001);
      [tauto | reflexivity].
Qed.

Lemma apart_of_not_coincident eye center :
  ~ coincident eye center -> vsub eye center <> vzero.
Proof.
  intros Hn Hz. apply Hn. unfold vsub, vzero in Hz. injection Hz as Hx Hy Hz.
  unfold coincident. rewrite Hx, Hy, Hz, Rabs_R0. lra.
Qed.

Lemma axis_closed a0 a1 a2 :
  GlMatrix.mat4.axis a0 a1 a2 = Ok (unit_or_zero (Vec3 a0 a1 a2)).
Proof.
  unfold GlMatrix.mat4.axis, unit_or_zero, norm, dot. simpl.
  rewrite fsqrt_ok by nra. simpl.
  destruct (Req_dec_T (sqrt (a0 * a0 + a1 * a1 + a2 * a2)) 0) as [H | H];
    [reflexivity |].
  rewrite fdiv_ok by exact H. reflexivity.
Qed.

(** The matrix [lookAt] writes when the eye is not at the centre. *)
Lemma lookAt_closed out eye center up :
  ~ coincident eye center ->
  let z := vscale (vsub eye center) (1 / norm (vsub eye center)) in
  let x := unit_or_zero (cross up z) in
  let y := unit_or_zero (cross z x) in
  GlMatrix.mat4.lookAt out eye center up
  = Ok (Mat4x4 (vec_x x) (vec_x y) (vec_x z) 0
               (vec_y x) (vec_y y) (vec_y z) 0
               (vec_z x) (vec_z y) (vec_z z) 0
               (- dot x eye) (- dot y eye) (- dot z eye) 1).
Proof.
  intros Hn z x y. unfold GlMatrix.mat4.lookAt.
  rewrite coincident_test.
  destruct (coincident_dec eye center) as [Hc | _]; [contradiction |].
  pose proof (norm_pos _ (apart_of_not_coincident eye center Hn)) as Hpos.
  rewrite fsqrt_ok by apply (dot_self_nonneg (vsub eye center)).
  cbn [mbind result_bind].
  rewrite fdiv_ok by (apply Rgt_not_eq, Hpos).
  cbn [mbind result_bind].
  rewrite axis_closed. cbn [mbind result_bind].
  rewrite axis_closed. cbn [mbind result_bind mret result_ret].
  reflexivity.
Qed.

Lemma lookAt_fallback out eye center up :
  coincident eye center ->
  GlMatrix.mat4.lookAt out eye center up = Ok GlMatrix.mat4.create.
Proof.
  intros Hc. unfold GlMatrix.mat4.lookAt. rewrite coincident_test.
  destruct (coincident_dec eye center) as [_ | Hn]; [reflexivity |].
  contradiction.
Qed.

Lemma lookAt_total out eye center up :
  exists m, GlMatrix.mat4.lookAt out eye center up = Ok m.
Proof.
  destruct (coincident_dec eye center) as [Hc | Hn].
  - eexists. apply lookAt_fallback, Hc.
  - eexists. apply lookAt_closed, Hn.
Qed.

(** X10.  [mat4.lookAt] never faults, whatever the eye, the centre and the
    up vector.  When every coordinate of the eye is within 0.000001 of the
    centre's, the result is the identity; the last row of the result is
    always (0, 0, 0, 1). *)
Theorem X10_lookAt_never_faults :
  forall (out : mat4x4) (eye center up : vec3),
    exists m,
      GlMatrix.mat4.lookAt out eye center up = Ok m /\
      (coincident eye center -> m = GlMatrix.mat4.create) /\
      e3 m = 0 /\ e7 m = 0 /\ e11 m = 0 /\ e15 m = 1.
Proof.
  intros out eye center up.
  destruct (coincident_dec eye center) as [Hc | Hn].
  - exists GlMatrix.mat4.create. split; [apply lookAt_fallback, Hc |].
    repeat split.
  - eexists. split; [apply lookAt_closed, Hn |].
    split; [intros Hc; contradiction |]. repeat split.
Qed.

Lemma X10_lookAt_never_faults_witness :
  exists m,
    GlMatrix.mat4.lookAt GlMatrix.mat4.create vzero vzero (Vec3 0 1 0)
    = Ok m /\
    m = GlMatrix.mat4.create.
Proof.
  destruct (X10_lookAt_never_faults GlMatrix.mat4.create vzero vzero
              (Vec3 0 1 0)) as (m & Hm & Hc & _).
  exists m. split; [exact Hm |]. apply Hc.
  unfold coincident, vzero. simpl.
  replace (0 - 0) with 0 by ring. rewrite Rabs_R0. lra.
Defined.

Lemma view_z_unit eye center :
  vsub eye center <> vzero ->
  let z := vscale (vsub eye center) (1 / norm (vsub eye center)) in
  dot z z = 1.
Proof.
  intros Ha z. pose proof (norm_pos _ Ha) as Hn.
  pose proof (norm_sqr (vsub eye center)) as Hs.
  unfold z. rewrite dot_vscale_l, dot_vscale_r, <- Hs. field. lra.
Qed.

(** X11.  When the eye is not at the centre, the matrix of [lookAt] maps
    the eye to the origin and the centre to the point of the negative z axis
    at the distance [|eye - center|]. *)
Theorem X11_lookAt_centres_the_view :
  forall (out : mat4x4) (eye center up : vec3),
    ~ coincident eye center ->
    exists m,
      GlMatrix.mat4.lookAt out eye center up = Ok m /\
      QuadShader.transform m (point eye) = Vec4 0 0 0 1 /\
      QuadShader.transform m (point center)
      = Vec4 0 0 (- norm (vsub eye center)) 1.
Proof.
  intros out eye center up Hn.
  pose proof (apart_of_not_coincident eye center Hn) as Ha.
  pose proof (norm_pos _ Ha) as Hpos.
  pose proof (view_z_unit eye center Ha) as Hz.
  eexists. split; [apply lookAt_closed, Hn |].
  set (d := vsub eye center) in *.
  set (z := vscale d (1 / norm d)) in *.
  set (x := unit_or_zero (cross up z)).
  set (y := unit_or_zero (cross z x)).
  assert (Hxz : dot x z = 0).
  { destruct (unit_or_zero_scaled (cross up z)) as [k Hk].
    unfold x. rewrite Hk, dot_vscale_l, dot_cross_r. ring. }
  assert (Hyz : dot y z = 0).
  { destruct (unit_or_zero_scaled (cross z x)) as [k Hk].
    unfold y. rewrite Hk, dot_vscale_l, dot_cross_l. ring. }
  assert (Hc : center = vsub eye (vscale z (norm d))).
  { unfold z, d. destruct eye, center. unfold vsub, vscale. simpl.
    apply vec3_eq; field; unfold d, vsub in Hpos; simpl in Hpos; lra. }
  assert (Hd : forall a, dot a center = dot a eye - norm d * dot a z).
  { intros a. rewrite Hc at 1. unfold dot, vsub, vscale. simpl. ring. }
  pose proof (Hd x) as Hdx. pose proof (Hd y) as Hdy.
  pose proof (Hd z) as Hdz. rewrite Hxz in Hdx. rewrite Hyz in Hdy.
  rewrite Hz in Hdz. clear Hd Hc.
  clearbody x y z. unfold dot in *.
  split; unfold QuadShader.transform, point; simpl; apply vec4_eq; lra.
Qed.

Lemma X11_lookAt_centres_the_view_witness :
  exists m,
    GlMatrix.mat4.lookAt GlMatrix.mat4.create (Vec3 0 0 1) vzero (Vec3 0 1 0)
    = Ok m /\
    QuadShader.transform m (point (Vec3 0 0 1)) = Vec4 0 0 0 1.
Proof.
  destruct (X11_lookAt_centres_the_view GlMatrix.mat4.create
              (Vec3 0 0 1) vzero (Vec3 0 1 0)) as (m & Hm & He & _).
  - unfold coincident. simpl. intros (_ & _ & H). revert H.
    unfold Rabs. destruct (Rcase_abs (1 - 0)); lra.
  - exists m. split; [exact Hm | exact He].
Defined.

(** X12.  When the eye is not at the centre, the z axis of the matrix of
    [lookAt] has length 1 and the x and y axes are perpendicular to it and to
    each other.  When the up vector is not parallel to the viewing direction,
    the x and y axes have length 1 too and y is the cross product of z and
    x; when it is parallel, both are zero. *)
Theorem X12_lookAt_axes :
  forall (out : mat4x4) (eye center up : vec3),
    ~ coincident eye center ->
    exists m,
      GlMatrix.mat4.lookAt out eye center up = Ok m /\
      dot (zAxis m) (zAxis m) = 1 /\
      dot (xAxis m) (zAxis m) = 0 /\
      dot (yAxis m) (zAxis m) = 0 /\
      dot (xAxis m) (yAxis m) = 0 /\
      (cross up (vsub eye center) <> vzero ->
       dot (xAxis m) (xAxis m) = 1 /\ dot (yAxis m) (yAxis m) = 1 /\
       yAxis m = cross (zAxis m) (xAxis m)) /\
      (cross up (vsub eye center) = vzero ->
       xAxis m = vzero /\ yAxis m = vzero).
Proof.
  intros out eye center up Hn.
  pose proof (apart_of_not_coincident eye center Hn) as Ha.
  pose proof (norm_pos _ Ha) as Hpos.
  pose proof (view_z_unit eye center Ha) as Hz.
  eexists. split; [apply lookAt_closed, Hn |].
  set (d := vsub eye center) in *.
  set (z := vscale d (1 / norm d)) in *.
  set (x := unit_or_zero (cross up z)).
  set (y := unit_or_zero (cross z x)).
  unfold xAxis, yAxis, zAxis. cbn [e0 e1 e2 e4 e5 e6 e8 e9 e10].
  replace (Vec3 (vec_x x) (vec_y x) (vec_z x)) with x
    by (destruct x; reflexivity).
  replace (Vec3 (vec_x y) (vec_y y) (vec_z y)) with y
    by (destruct y; reflexivity).
  replace (Vec3 (vec_x z) (vec_y z) (vec_z z)) with z
    by (destruct z; reflexivity).
  assert (Hxz : dot x z = 0).
  { destruct (unit_or_zero_scaled (cross up z)) as [k Hk].
    unfold x. rewrite Hk, dot_vscale_l, dot_cross_r. ring. }
  assert (Hyz : dot y z = 0).
  { destruct (unit_or_zero_scaled (cross z x)) as [k Hk].
    unfold y. rewrite Hk, dot_vscale_l, dot_cross_l. ring. }
  assert (Hxy : dot x y = 0).
  { destruct (unit_or_zero_scaled (cross z x)) as [k Hk].
    unfold y. rewrite Hk, dot_vscale_r, (dot_comm x), dot_cross_r. ring. }
  assert (Hcz : cross up z = vscale (cross up d) (1 / norm d))
    by apply cross_vscale_r.
  split; [exact Hz |]. split; [exact Hxz |]. split; [exact Hyz |].
  split; [exact Hxy |]. split.
  - intros Hne.
    assert (Hx : dot x x = 1).
    { apply unit_or_zero_unit. rewrite Hcz. apply vscale_nonzero; [exact Hne |].
      apply Rgt_not_eq. apply Rdiv_lt_0_compat; lra. }
    assert (Hzx : dot (cross z x) (cross z x) = 1).
    { rewrite lagrange, Hz, Hx, (dot_comm z x), Hxz. ring. }
    split; [exact Hx |]. unfold y. rewrite (unit_or_zero_of_unit _ Hzx).
    split; [exact Hzx | reflexivity].
  - intros He.
    assert (Hx : x = vzero).
    { unfold x. rewrite Hcz, He, vscale_vzero. apply unit_or_zero_vzero. }
    split; [exact Hx |]. unfold y. rewrite Hx, cross_vzero_r.
    apply unit_or_zero_vzero.
Qed.

Lemma X12_lookAt_axes_witness :
  exists m,
    GlMatrix.mat4.lookAt GlMatrix.mat4.create (Vec3 0 1 0) vzero (Vec3 0 1 0)
    = Ok m /\
    xAxis m = vzero /\ yAxis m = vzero.
Proof.
  destruct (X12_lookAt_axes GlMatrix.mat4.create
              (Vec3 0 1 0) vzero (Vec3 0 1 0))
    as (m & Hm & _ & _ & _ & _ & _ & Hdeg).
  - unfold coincident. simpl. intros (_ & H & _). revert H.
    unfold Rabs. destruct (Rcase_abs (1 - 0)); lra.
  - exists m. split; [exact Hm |]. apply Hdeg.
    unfold cross, vsub, vzero. simpl. apply vec3_eq; ring.
Defined.

(** *** [mat4.perspective] *)

Lemma ftan_ok a : cos a <> 0 -> ftan a = Ok (tan a).
Proof.
  intros H. unfold ftan. destruct (Req_dec_T (cos a) 0); [contradiction |].
  reflexivity.
Qed.

Lemma perspective_closed out fovy aspect near far :
  cos (fovy / 2) <> 0 -> tan (fovy / 2) <> 0 -> near <> far -> aspect <> 0 ->
  GlMatrix.mat4.perspective out fovy aspect near far
  = Ok (Mat4x4 (1.0 / tan (fovy / 2) / aspect) 0 0 0
               0 (1.0 / tan (fovy / 2)) 0 0
               0 0 ((far + near) * (1 / (near - far))) (-1)
               0 0 (2 * far * near * (1 / (near - far))) 0).
Proof.
  intros Hc Ht Hnf Ha. unfold GlMatrix.mat4.perspective.
  rewrite ftan_ok by exact Hc. cbn [mbind result_bind].
  rewrite (fdiv_ok _ (tan (fovy / 2))) by exact Ht. cbn [mbind result_bind].
  rewrite (fdiv_ok _ (near - far)) by lra. cbn [mbind result_bind].
  rewrite (fdiv_ok _ aspect) by exact Ha. reflexivity.
Qed.

(** X13.  In exact arithmetic [mat4.perspective] gives a matrix exactly
    when the cosine and the tangent of [fovy / 2] are not zero, [near] differs
    from [far] and [aspect] is not zero. *)
Theorem X13_perspective_is_finite_exactly_when :
  forall (out : mat4x4) (fovy aspect near far : R),
    (exists m, GlMatrix.mat4.perspective out fovy aspect near far = Ok m)
    <->
    cos (fovy / 2) <> 0 /\ tan (fovy / 2) <> 0 /\ near <> far /\ aspect <> 0.
Proof.
  intros out fovy aspect near far. split.
  - intros [m Hm]. unfold GlMatrix.mat4.perspective, ftan, fdiv in Hm.
    destruct (Req_dec_T (cos (fovy / 2)) 0) as [| Hc]; [discriminate |].
    cbn [mbind result_bind] in Hm.
    destruct (Req_dec_T (tan (fovy / 2)) 0) as [| Ht]; [discriminate |].
    cbn [mbind result_bind] in Hm.
    destruct (Req_dec_T (near - far) 0) as [| Hnf]; [discriminate |].
    cbn [mbind result_bind] in Hm.
    destruct (Req_dec_T aspect 0) as [| Ha]; [discriminate |].
    repeat split; try assumption. lra.
  - intros (Hc & Ht & Hnf & Ha). eexists.
    apply perspective_closed; assumption.
Qed.

Lemma X13_perspective_is_finite_exactly_when_witness :
  exists m,
    GlMatrix.mat4.perspective GlMatrix.mat4.create (PI / 2) 1 1 3 = Ok m.
Proof.
  assert (Hh : PI / 2 / 2 = PI / 4) by field.
  apply (X13_perspective_is_finite_exactly_when GlMatrix.mat4.create
           (PI / 2) 1 1 3).
  rewrite Hh, cos_PI4, tan_PI4. repeat split; try lra.
  apply Rgt_not_eq. apply Rdiv_lt_0_compat; [lra |]. apply sqrt_lt_R0. lra.
Defined.

(** X14.  Under these conditions the projection sends a point of the plane
    z = -near to the depth -w with w = near, a point of the plane z = -far to
    the depth w with w = far, and divides x by [aspect * tan (fovy / 2)] and y
    by [tan (fovy / 2)]. *)
Theorem X14_perspective_maps_the_depth_range :
  forall (out : mat4x4) (fovy aspect near far : R),
    cos (fovy / 2) <> 0 -> tan (fovy / 2) <> 0 -> near <> far ->
    aspect <> 0 ->
    exists m,
      GlMatrix.mat4.perspective out fovy aspect near far = Ok m /\
      forall x y : R,
        let front := QuadShader.transform m (Vec4 x y (- near) 1) in
        let back := QuadShader.transform m (Vec4 x y (- far) 1) in
        (v4_w front = near /\ v4_z front = - near) /\
        (v4_w back = far /\ v4_z back = far) /\
        v4_x front * aspect * tan (fovy / 2) = x /\
        v4_y front * tan (fovy / 2) = y.
Proof.
  intros out fovy aspect near far Hc Ht Hnf Ha. eexists.
  split; [apply perspective_closed; assumption |].
  intros x y. unfold QuadShader.transform. simpl.
  assert (Hd : near - far <> 0) by lra.
  replace 1.0 with 1 by lra.
  repeat split; try ring; field; try split; assumption.
Qed.

Lemma X14_perspective_maps_the_depth_range_witness :
  exists m,
    GlMatrix.mat4.perspective GlMatrix.mat4.create (PI / 2) 1 1 3 = Ok m /\
    v4_z (QuadShader.transform m (Vec4 0 0 (- 3) 1)) = 3.
Proof.
  assert (Hh : PI / 2 / 2 = PI / 4) by field.
  destruct (X14_perspective_maps_the_depth_range GlMatrix.mat4.create
              (PI / 2) 1 1 3) as (m & Hm & H).
  - rewrite Hh, cos_PI4. apply Rgt_not_eq.
    apply Rdiv_lt_0_compat; [lra |]. apply sqrt_lt_R0. lra.
  - rewrite Hh, tan_PI4. lra.
  - lra.
  - lra.
  - exists m. split; [exact Hm |]. apply (H 0 0).
Defined.

(** *** The view of the orbit camera *)

Section OrbitView.

Import Camera.

(** The columns of a proper rotation are a right-handed frame. *)
Lemma proper_rotation_frame a :
  proper_rotation a ->
  cross (upColumn a) (forwardColumn a) = rightColumn a /\
  cross (forwardColumn a) (rightColumn a) = upColumn a.
Proof.
  intros [[H1 H2] Hd]. destruct a as [a0 a1 a2 a3 a4 a5 a6 a7 a8].
  unfold multiply3x3, transpose, identity, det in *. simpl in *.
  injection H1 as A0 A1 A2 A3 A4 A5 A6 A7 A8.
  injection H2 as B0 B1 B2 B3 B4 B5 B6 B7 B8.
  unfold cross, upColumn, forwardColumn, rightColumn. simpl.
  split; apply vec3_eq; nsatz.
Qed.

Lemma orbit_view_closed c out :
  proper_rotation (rotMatrix c) -> coherent c -> zoomRange c ->
  let r := rotMatrix c in
  GlMatrix.mat4.lookAt out (position (cam c)) vzero (up (cam c))
  = Ok (Mat4x4 (m0 r) (m1 r) (m2 r) 0
               (m3 r) (m4 r) (m5 r) 0
               (m6 r) (m7 r) (m8 r) 0
               0 0 (- distance c) 1).
Proof.
  intros Hp [Hpos Hup] (_ & Hd & _) r.
  pose proof (proper_rotation_frame _ Hp) as [Hx Hy].
  destruct Hp as [Ho _].
  pose proof (orthonormal_equations _ Ho)
    as [(Hr1 & Hu1 & Hf1) (Hru & Hrf & Huf)].
  fold r in Hx, Hy, Hr1, Hu1, Hf1, Hru, Hrf, Huf, Hpos, Hup.
  rewrite Hpos, Hup.
  set (f := forwardColumn r) in *. set (d := distance c) in *.
  assert (Hff : dot f f = 1) by exact Hf1.
  assert (Hsub : vsub (vscale f d) vzero = vscale f d).
  { unfold vsub, vscale, vzero. simpl. apply vec3_eq; ring. }
  assert (Hnorm : norm (vscale f d) = d).
  { unfold norm. rewrite dot_vscale_l, dot_vscale_r, Hff.
    replace (d * (d * 1)) with (d * d) by ring. apply sqrt_square. lra. }
  assert (Hnc : ~ coincident (vscale f d) vzero).
  { intros (Cx & Cy & Cz). unfold vzero in Cx, Cy, Cz. simpl in Cx, Cy, Cz.
    rewrite Rminus_0_r in Cx, Cy, Cz.
    assert (Hsq : forall t, Rabs t < 0.000001 -> t * t < 0.000001).
    { intros t Ht. apply Rabs_def2 in Ht. nra. }
    apply Hsq in Cx, Cy, Cz.
    assert (Hdd : dot (vscale f d) (vscale f d) = d * d).
    { rewrite dot_vscale_l, dot_vscale_r, Hff. ring. }
    unfold dot in Hdd. nra. }
  rewrite (lookAt_closed out _ _ _ Hnc). rewrite Hsub, Hnorm.
  assert (Hz : vscale (vscale f d) (1 / d) = f).
  { destruct f. unfold vscale. simpl. apply vec3_eq; field; lra. }
  rewrite Hz. rewrite Hx.
  assert (Hxu : unit_or_zero (rightColumn r) = rightColumn r)
    by (apply unit_or_zero_of_unit; exact Hr1).
  rewrite Hxu, Hy.
  assert (Hyu : unit_or_zero (upColumn r) = upColumn r)
    by (apply unit_or_zero_of_unit; exact Hu1).
  rewrite Hyu. rewrite !dot_vscale_r.
  unfold dot in Hrf, Huf, Hff. unfold dot.
  unfold f in *. unfold rightColumn, upColumn, forwardColumn in *.
  simpl in *. f_equal. apply mat4x4_eq; try reflexivity.
  - rewrite Hrf. ring.
  - rewrite Huf. ring.
  - rewrite Hff. ring.
Qed.

(** X15.  For every state of the controller reached from the constructor,
    [lookAt] from the camera position to the origin with the camera's up
    vector gives the matrix whose first three columns are the rows of
    [rotMatrix] and whose translation is (0, 0, -distance). *)
Theorem X15_orbit_view_matrix :
  forall (camera0 : camera) (es : list event) (out : mat4x4),
    let c := run (constructor camera0) es in
    let r := rotMatrix c in
    GlMatrix.mat4.lookAt out (position (cam c)) vzero (up (cam c))
    = Ok (Mat4x4 (m0 r) (m1 r) (m2 r) 0
                 (m3 r) (m4 r) (m5 r) 0
                 (m6 r) (m7 r) (m8 r) 0
                 0 0 (- distance c) 1).
Proof.
  intros camera0 es out c r. apply orbit_view_closed.
  - apply run_proper.
  - apply run_coherent.
  - apply run_zoomRange.
Qed.

End OrbitView.

(** ** The vertex shader and the buffers *)

(** *** The vertex shader *)

Lemma quad_tables k :
  (k < 6)%nat ->
  exists quadVertex uv,
    QuadShader.QUAD_VERTICES !! k = Some quadVertex /\
    QuadShader.QUAD_UVS !! k = Some uv /\
    (quadVertex.1 = 1 \/ quadVertex.1 = -1) /\
    (quadVertex.2 = 1 \/ quadVertex.2 = -1) /\
    uv = ((quadVertex.1 + 1) / 2, (quadVertex.2 + 1) / 2).
Proof.
  intros Hk.
  do 6 (destruct k as [| k];
        [ eexists _, _; split; [reflexivity |]; split; [reflexivity |];
          simpl; split; [auto |]; split; [auto |]; f_equal; lra |]).
  lia.
Qed.

Lemma vlength_norm a : vlength a = Ok (norm a).
Proof. unfold vlength. apply fsqrt_ok, dot_self_nonneg. Qed.

Lemma speedColor_closed p :
  QuadShader.speedColor p
  = Ok (let normalizedSpeed :=
          QuadShader.clamp (norm (Wgsl.velocity p) / 10.0) 0.0 1.0 in
        Vec3 normalizedSpeed (0.3 + 0.7 * (1.0 - normalizedSpeed))
             (1.0 - normalizedSpeed)).
Proof.
  unfold QuadShader.speedColor. rewrite vlength_norm. cbn [mbind result_bind].
  rewrite fdiv_ok by lra. reflexivity.
Qed.

Lemma vs_main_closed particles uniforms vertexIndex p quadVertex uv :
  particles !! (vertexIndex / 6)%nat = Some p ->
  QuadShader.QUAD_VERTICES !! (vertexIndex mod 6)%nat = Some quadVertex ->
  QuadShader.QUAD_UVS !! (vertexIndex mod 6)%nat = Some uv ->
  exists color,
    QuadShader.speedColor p = Ok color /\
    QuadShader.vs_main particles uniforms vertexIndex
    = Ok (QuadShader.mkVertexOutput
            (QuadShader.transform (QuadShader.viewProjectionMatrix uniforms)
               (point (QuadShader.worldPos uniforms p quadVertex)))
            color uv).
Proof.
  intros Hp Hq Hu. eexists. split; [apply speedColor_closed |].
  unfold QuadShader.vs_main.
  rewrite (load_Some _ _ _ Hp). cbn [mbind result_bind].
  rewrite (load_Some _ _ _ Hq). cbn [mbind result_bind].
  rewrite (load_Some _ _ _ Hu). cbn [mbind result_bind].
  rewrite speedColor_closed. replace 1.0 with 1 by lra. reflexivity.
Qed.

Lemma vs_main_ok particles uniforms vertexIndex :
  (vertexIndex < 6 * length particles)%nat ->
  exists p output,
    particles !! (vertexIndex / 6)%nat = Some p /\
    QuadShader.vs_main particles uniforms vertexIndex = Ok output.
Proof.
  intros Hlt.
  assert (Hi : (vertexIndex / 6 < length particles)%nat)
    by (apply Nat.Div0.div_lt_upper_bound; lia).
  destruct (lookup_lt_is_Some_2 _ _ Hi) as [p Hp].
  destruct (quad_tables (vertexIndex mod 6)) as (qv & uv & Hq & Hu & _).
  { apply Nat.mod_upper_bound. lia. }
  destruct (vs_main_closed particles uniforms vertexIndex p qv uv Hp Hq Hu)
    as (color & _ & Hv).
  eauto.
Qed.

(** X16.  [vs_main] reads the particle [vertexIndex / 6].  For every vertex
    index below six times the number of particles, the range of
    [draw(particleCount * 6)], the read is inside the buffer and the shader
    returns a vertex; from six times the number of particles on, the read is
    outside the buffer. *)
Theorem X16_vs_main_reads_inside_the_draw_call :
  forall (particles : list Wgsl.Particle) (uniforms : QuadShader.Uniforms)
         (vertexIndex : nat),
    ((vertexIndex < 6 * length particles)%nat ->
     exists p output,
       particles !! (vertexIndex / 6)%nat = Some p /\
       QuadShader.vs_main particles uniforms vertexIndex = Ok output) /\
    ((6 * length particles <= vertexIndex)%nat ->
     QuadShader.vs_main particles uniforms vertexIndex = Fault OutOfBounds).
Proof.
  intros particles uniforms vertexIndex. split; [apply vs_main_ok |].
  intros Hge.
  assert (Hi : (length particles <= vertexIndex / 6)%nat)
    by (apply Nat.div_le_lower_bound; lia).
  unfold QuadShader.vs_main, load.
  rewrite (lookup_ge_None_2 _ _ Hi). reflexivity.
Qed.

Lemma X16_vs_main_reads_inside_the_draw_call_witness :
  let p := Wgsl.mkParticle vzero 1 vzero 0 in
  let uniforms :=
    QuadShader.mkUniforms GlMatrix.mat4.create GlMatrix.mat4.create vzero 0 in
  QuadShader.vs_main [p] uniforms 6 = Fault OutOfBounds /\
  exists output, QuadShader.vs_main [p] uniforms 5 = Ok output.
Proof.
  intros p uniforms.
  destruct (X16_vs_main_reads_inside_the_draw_call [p] uniforms 6) as [_ H6].
  destruct (X16_vs_main_reads_inside_the_draw_call [p] uniforms 5) as [H5 _].
  split; [apply H6; simpl; lia |].
  destruct H5 as (q & output & _ & H); [simpl; lia |]. eauto.
Defined.

Lemma clamp_unit a : 0 <= QuadShader.clamp a 0.0 1.0 <= 1.
Proof.
  unfold QuadShader.clamp, Rmin, Rmax.
  destruct (Rle_dec a 0.0); destruct (Rle_dec _ 1.0); lra.
Qed.

(** X17.  The colour of a particle never faults; every channel is in
    [0, 1], red + blue = 1 and green = 0.3 + 0.7 * blue.  Red is a tenth of
    the speed up to the speed 10, from where on the colour is (1, 0.3, 0); a
    particle at rest has the colour (0, 1, 1). *)
Theorem X17_speed_colour_runs_from_blue_to_red :
  forall p : Wgsl.Particle,
    exists c,
      QuadShader.speedColor p = Ok c /\
      0 <= vec_x c <= 1 /\ 0.3 <= vec_y c <= 1 /\ 0 <= vec_z c <= 1 /\
      vec_x c + vec_z c = 1 /\
      vec_y c = 0.3 + 0.7 * vec_z c /\
      (norm (Wgsl.velocity p) <= 10 -> vec_x c = norm (Wgsl.velocity p) / 10) /\
      (10 <= norm (Wgsl.velocity p) -> c = Vec3 1 0.3 0) /\
      (Wgsl.velocity p = vzero -> c = Vec3 0 1 1).
Proof.
  intros p. eexists. split; [apply speedColor_closed |].
  cbv zeta. cbn [vec_x vec_y vec_z].
  pose proof (clamp_unit (norm (Wgsl.velocity p) / 10.0)) as Hc.
  assert (Hn : 0 <= norm (Wgsl.velocity p)) by apply sqrt_pos.
  set (n := norm (Wgsl.velocity p)) in *.
  assert (Hlow : n <= 10 -> QuadShader.clamp (n / 10.0) 0.0 1.0 = n / 10).
  { intros H. unfold QuadShader.clamp, Rmin, Rmax.
    destruct (Rle_dec (n / 10.0) 0.0); destruct (Rle_dec _ 1.0); lra. }
  assert (Hhigh : 10 <= n -> QuadShader.clamp (n / 10.0) 0.0 1.0 = 1).
  { intros H. unfold QuadShader.clamp, Rmin, Rmax.
    destruct (Rle_dec (n / 10.0) 0.0); destruct (Rle_dec _ 1.0); lra. }
  do 5 (split; [lra |]). split; [exact Hlow |]. split.
  - intros H. rewrite (Hhigh H). apply vec3_eq; lra.
  - intros H. assert (H0 : n = 0) by (unfold n; rewrite H; apply norm_vzero).
    rewrite Hlow by lra. rewrite H0. apply vec3_eq; lra.
Qed.

Lemma X17_speed_colour_runs_from_blue_to_red_witness :
  QuadShader.speedColor (Wgsl.mkParticle vzero 1 vzero 0) = Ok (Vec3 0 1 1).
Proof.
  destruct (X17_speed_colour_runs_from_blue_to_red
              (Wgsl.mkParticle vzero 1 vzero 0))
    as (c & Hc & _ & _ & _ & _ & _ & _ & _ & H0).
  rewrite Hc. f_equal. apply H0. reflexivity.
Defined.

(** X18.  When the right and the up vector read from the view matrix have
    length 1 and are perpendicular, every corner of the quad of a particle is
    displaced from the particle by a vector of squared length mass^2 / 2 in
    the plane of the two vectors, the opposite corner is its mirror image
    about the particle, and a side has squared length mass^2.  A particle of
    mass 0 has all its corners at its own position. *)
Theorem X18_billboard_is_a_square_about_the_particle :
  forall (uniforms : QuadShader.Uniforms) (p : Wgsl.Particle),
    let right := QuadShader.rightVector uniforms in
    let up := QuadShader.upVector uniforms in
    dot right right = 1 -> dot up up = 1 -> dot right up = 0 ->
    (forall k quadVertex,
        QuadShader.QUAD_VERTICES !! k = Some quadVertex ->
        let offset :=
          vsub (QuadShader.worldPos uniforms p quadVertex) (Wgsl.position p) in
        dot offset offset = Wgsl.mass p * Wgsl.mass p / 2 /\
        dot offset (cross right up) = 0 /\
        QuadShader.worldPos uniforms p (- quadVertex.1, - quadVertex.2)
        = vsub (Wgsl.position p) offset) /\
    (let side :=
       vsub (QuadShader.worldPos uniforms p (1, -1))
            (QuadShader.worldPos uniforms p (-1, -1)) in
     dot side side = Wgsl.mass p * Wgsl.mass p) /\
    (Wgsl.mass p = 0 ->
     forall quadVertex,
       QuadShader.worldPos uniforms p quadVertex = Wgsl.position p).
Proof.
  intros uniforms p right up Hr Hu Hru.
  assert (Hoff : forall qx qy,
             vsub (QuadShader.worldPos uniforms p (qx, qy)) (Wgsl.position p)
             = vadd (vscale right (qx * (0.5 * Wgsl.mass p)))
                    (vscale up (qy * (0.5 * Wgsl.mass p)))).
  { intros qx qy. unfold QuadShader.worldPos. fold right up.
    unfold vsub, vadd, vscale. simpl. apply vec3_eq; ring. }
  assert (Hsq : forall qx qy,
             dot (vadd (vscale right qx) (vscale up qy))
                 (vadd (vscale right qx) (vscale up qy))
             = qx * qx + qy * qy).
  { intros qx qy.
    transitivity (qx * qx * dot right right + 2 * qx * qy * dot right up
                  + qy * qy * dot up up);
      [unfold dot, vadd, vscale; simpl; ring | rewrite Hr, Hu, Hru; ring]. }
  split; [| split].
  - intros k [qx qy] Hk offset.
    assert (Hq : (qx = 1 \/ qx = -1) /\ (qy = 1 \/ qy = -1)).
    { assert (Hlt : (k < 6)%nat).
      { apply lookup_lt_Some in Hk. exact Hk. }
      destruct (quad_tables k Hlt) as (qv & uv & Hq & _ & H1 & H2 & _).
      rewrite Hk in Hq. injection Hq as <-. simpl in *. tauto. }
    unfold offset. rewrite Hoff. split; [| split].
    + rewrite Hsq. destruct Hq as [[-> | ->] [-> | ->]]; lra.
    + transitivity (qx * (0.5 * Wgsl.mass p) * dot (cross right up) right
                    + qy * (0.5 * Wgsl.mass p) * dot (cross right up) up);
        [unfold dot, vadd, vscale, cross; simpl; ring |].
      rewrite dot_cross_l, dot_cross_r. ring.
    + unfold QuadShader.worldPos. fold right up.
      unfold vsub, vadd, vscale. simpl. apply vec3_eq; ring.
  - intros side.
    assert (Hside : side = vadd (vscale right (Wgsl.mass p)) (vscale up 0)).
    { unfold side, QuadShader.worldPos. fold right up.
      unfold vsub, vadd, vscale. simpl. apply vec3_eq; lra. }
    rewrite Hside, Hsq. ring.
  - intros Hm [qx qy]. unfold QuadShader.worldPos. rewrite Hm.
    destruct (Wgsl.position p). unfold vadd, vscale. simpl.
    apply vec3_eq; ring.
Qed.

Lemma X18_billboard_is_a_square_about_the_particle_witness :
  let uniforms :=
    QuadShader.mkUniforms GlMatrix.mat4.create GlMatrix.mat4.create vzero 0 in
  QuadShader.worldPos uniforms (Wgsl.mkParticle (Vec3 1 2 3) 0 vzero 0) (1, 1)
  = Vec3 1 2 3.
Proof.
  intros uniforms.
  apply (X18_billboard_is_a_square_about_the_particle uniforms
           (Wgsl.mkParticle (Vec3 1 2 3) 0 vzero 0));
    unfold dot; simpl; try ring; reflexivity.
Defined.

(** *** The particle upload of the CPU version *)

Lemma packParticle_closed i ps data p :
  ps !! i = Some p ->
  SimpleNBodySimulation.packParticle i ps data
  = Ok (writeParticle i (SimpleNBodySimulation.pack p) data).
Proof.
  intros Hp. unfold SimpleNBodySimulation.packParticle.
  rewrite (load_Some _ _ _ Hp). reflexivity.
Qed.

Lemma pack_loop ps : forall n k data,
  (k + n <= length ps)%nat ->
  (8 * (k + n) <= length data)%nat ->
  exists data',
    for_loop (fun i d => SimpleNBodySimulation.packParticle i ps d) k n data
    = Ok data' /\
    length data' = length data /\
    (forall i, (i < k)%nat ->
       NBodySimulation.particleAt data' i
       = NBodySimulation.particleAt data i) /\
    (forall i p, (k <= i < k + n)%nat -> ps !! i = Some p ->
       NBodySimulation.particleAt data' i
       = Some (SimpleNBodySimulation.pack p)).
Proof.
  induction n as [| n IH]; intros k data Hps Hdata.
  - exists data. split; [reflexivity |]. split; [reflexivity |].
    split; [intros; reflexivity | intros; lia].
  - destruct (lookup_lt_is_Some_2 ps k ltac:(lia)) as [p Hp].
    cbn [for_loop]. rewrite (packParticle_closed _ _ _ _ Hp).
    cbn [mbind result_bind].
    destruct (IH (S k) (writeParticle k (SimpleNBodySimulation.pack p) data))
      as (data' & Hrun & Hlen & Hbelow & Hhere).
    { lia. }
    { rewrite length_writeParticle. lia. }
    exists data'. split; [exact Hrun |].
    split; [rewrite Hlen; apply length_writeParticle |]. split.
    + intros i Hi. rewrite Hbelow by lia.
      apply particleAt_write_other. lia.
    + intros i q Hi Hq. destruct (decide (i = k)) as [-> | Hne].
      * rewrite Hbelow by lia. rewrite Hp in Hq. injection Hq as <-.
        apply particleAt_write_same. lia.
      * apply Hhere; [lia | exact Hq].
Qed.

Lemma pack_loop_fault ps : forall n k data,
  (k <= length ps)%nat -> (length ps < k + n)%nat ->
  (8 * length ps <= length data)%nat ->
  for_loop (fun i d => SimpleNBodySimulation.packParticle i ps d) k n data
  = Fault OutOfBounds.
Proof.
  intros n k data Hk Hn Hdata.
  replace n with ((length ps - k) + S (k + n - length ps - 1))%nat by lia.
  rewrite for_loop_app.
  destruct (pack_loop ps (length ps - k) k data) as (data' & -> & _);
    [lia | lia |].
  cbn [mbind result_bind for_loop].
  unfold SimpleNBodySimulation.packParticle, load.
  rewrite lookup_ge_None_2 by lia. reflexivity.
Qed.

Lemma omap_seq_lookup {A} (f : nat -> option A) (l : list A) : forall k,
  (forall i a, l !! i = Some a -> f (k + i)%nat = Some a) ->
  omap f (seq k (length l)) = l.
Proof.
  induction l as [| a l IH]; intros k H; [reflexivity |].
  pose proof (H 0%nat a eq_refl) as H0. rewrite Nat.add_0_r in H0.
  cbn [length seq]. simpl. rewrite H0. f_equal. apply IH.
  intros i b Hb. replace (S k + i)%nat with (k + S i)%nat by lia.
  apply H. exact Hb.
Qed.

Lemma updateParticleBuffer_ok (s : SimpleNBodySimulation.sim) :
  (0 <= SimpleNBodySimulation.particleCount s)%Z ->
  (Z.to_nat (SimpleNBodySimulation.particleCount s)
   <= length (SimpleNBodySimulation.particles s))%nat ->
  exists data,
    SimpleNBodySimulation.updateParticleBuffer s = Ok data /\
    length data = (8 * Z.to_nat (SimpleNBodySimulation.particleCount s))%nat /\
    Layout.storage data
    = SimpleNBodySimulation.pack
        <$> take (Z.to_nat (SimpleNBodySimulation.particleCount s))
              (SimpleNBodySimulation.particles s).
Proof.
  intros H0 Hn. unfold SimpleNBodySimulation.updateParticleBuffer.
  destruct (decide (SimpleNBodySimulation.particleCount s * 8 < 0)%Z)
    as [Hneg | _]; [lia |].
  set (n := Z.to_nat (SimpleNBodySimulation.particleCount s)) in *.
  assert (Hlen0 : Z.to_nat (SimpleNBodySimulation.particleCount s * 8)
                  = (8 * n)%nat) by (unfold n; lia).
  rewrite Hlen0.
  destruct (pack_loop (SimpleNBodySimulation.particles s) n 0
              (replicate (8 * n) 0))
    as (data & Hrun & Hlen & _ & Hhere).
  { lia. }
  { rewrite length_replicate. lia. }
  rewrite length_replicate in Hlen.
  exists data. split; [exact Hrun |]. split; [exact Hlen |].
  unfold Layout.storage. rewrite Hlen.
  replace (8 * n / 8)%nat with n
    by (rewrite Nat.mul_comm, Nat.div_mul; lia).
  set (l := SimpleNBodySimulation.pack
              <$> take n (SimpleNBodySimulation.particles s)).
  assert (Hl : length l = n).
  { unfold l. rewrite length_fmap, length_take. lia. }
  rewrite <- Hl at 1. apply omap_seq_lookup.
  intros i a Ha. unfold l in Ha. rewrite list_lookup_fmap in Ha.
  destruct (take n (SimpleNBodySimulation.particles s) !! i) as [p |] eqn:Hp;
    [| discriminate].
  simpl in Ha. injection Ha as <-.
  assert (Hi : (i < n)%nat).
  { apply lookup_lt_Some in Hp. rewrite length_take in Hp. lia. }
  rewrite lookup_take_lt in Hp by exact Hi.
  apply Hhere; [lia | exact Hp].
Qed.

(** X19.  [updateParticleBuffer].  For a count between 0 and the number of
    particles, the array has 8 floats per particle and the storage buffer
    read from it holds the first [particleCount] particles, each with a zero
    padding.  A count above the number of particles reads a particle that
    does not exist; a negative count is a [RangeError]. *)
Theorem X19_updateParticleBuffer_round_trip :
  forall s : SimpleNBodySimulation.sim,
    let n := Z.to_nat (SimpleNBodySimulation.particleCount s) in
    ((0 <= SimpleNBodySimulation.particleCount s)%Z ->
     (n <= length (SimpleNBodySimulation.particles s))%nat ->
     exists data,
       SimpleNBodySimulation.updateParticleBuffer s = Ok data /\
       length data = (8 * n)%nat /\
       Layout.storage data
       = SimpleNBodySimulation.pack
           <$> take n (SimpleNBodySimulation.particles s)) /\
    ((length (SimpleNBodySimulation.particles s) < n)%nat ->
     SimpleNBodySimulation.updateParticleBuffer s = Fault OutOfBounds) /\
    ((SimpleNBodySimulation.particleCount s < 0)%Z ->
     SimpleNBodySimulation.updateParticleBuffer s = Fault RangeError).
Proof.
  intros s n. split; [apply updateParticleBuffer_ok |]. split.
  - intros Hlt. unfold SimpleNBodySimulation.updateParticleBuffer.
    destruct (decide (SimpleNBodySimulation.particleCount s * 8 < 0)%Z)
      as [Hneg | _]; [unfold n in Hlt; lia |].
    apply pack_loop_fault; [lia | exact Hlt |].
    rewrite length_replicate. unfold n in Hlt. lia.
  - intros Hneg. unfold SimpleNBodySimulation.updateParticleBuffer.
    destruct (decide (SimpleNBodySimulation.particleCount s * 8 < 0)%Z)
      as [_ | Hge]; [reflexivity | lia].
Qed.

Lemma X19_updateParticleBuffer_round_trip_witness :
  exists data,
    SimpleNBodySimulation.updateParticleBuffer twoBodies = Ok data /\
    Layout.storage data
    = [SimpleNBodySimulation.pack bodyA; SimpleNBodySimulation.pack bodyB].
Proof.
  destruct (X19_updateParticleBuffer_round_trip twoBodies) as [H _].
  destruct H as (data & Hrun & _ & Hs); [simpl; lia | simpl; lia |].
  exists data. split; [exact Hrun | exact Hs].
Defined.

(** *** The uniform buffer *)

Lemma set_fits dst src offset :
  (offset + length src <= length dst)%nat ->
  Layout.set dst src offset
  = Ok (take offset dst ++ src ++ drop (offset + length src) dst).
Proof.
  intros H. unfold Layout.set.
  destruct (decide (offset + length src <= length dst)%nat); [reflexivity |].
  contradiction.
Qed.

Lemma simple_updateUniforms_closed camera l time view proj :
  GlMatrix.mat4.lookAt GlMatrix.mat4.create (Camera.position camera)
    (SimpleNBodyRender.target l) (Camera.up camera) = Ok view ->
  GlMatrix.mat4.perspective GlMatrix.mat4.create (SimpleNBodyRender.fovy l)
    (SimpleNBodyRender.aspect l) (SimpleNBodyRender.near l)
    (SimpleNBodyRender.far l) = Ok proj ->
  SimpleNBodyRender.updateUniforms camera l time
  = Ok (Layout.elements
          (GlMatrix.mat4.multiply GlMatrix.mat4.create proj view)
        ++ Layout.elements view
        ++ Layout.components (Camera.position camera) ++ [time]).
Proof.
  intros Hv Hp. unfold SimpleNBodyRender.updateUniforms.
  rewrite Hv. cbn [mbind result_bind]. rewrite Hp. cbn [mbind result_bind].
  rewrite set_fits by (simpl; lia). cbn [mbind result_bind].
  rewrite set_fits by (simpl; lia). cbn [mbind result_bind].
  rewrite set_fits by (simpl; lia). cbn [mbind result_bind].
  reflexivity.
Qed.

Lemma uniformsOf_layout vp v pos time :
  Layout.uniformsOf
    (Layout.elements vp ++ Layout.elements v ++ Layout.components pos
     ++ [time])
  = Some (QuadShader.mkUniforms vp v pos time).
Proof. destruct vp, v, pos. reflexivity. Qed.

(** X20.  [updateUniforms] of the CPU version.  Whenever the projection is
    finite, the array has 36 floats, and read with the layout of [Uniforms] of
    the vertex shader it gives the product of the projection and the view, the
    view, the camera position and the time. *)
Theorem X20_simple_uniforms_round_trip :
  forall (camera : Camera.camera) (l : SimpleNBodyRender.lens) (time : R)
         (proj : mat4x4),
    GlMatrix.mat4.perspective GlMatrix.mat4.create (SimpleNBodyRender.fovy l)
      (SimpleNBodyRender.aspect l) (SimpleNBodyRender.near l)
      (SimpleNBodyRender.far l) = Ok proj ->
    exists view data,
      GlMatrix.mat4.lookAt GlMatrix.mat4.create (Camera.position camera)
        (SimpleNBodyRender.target l) (Camera.up camera) = Ok view /\
      SimpleNBodyRender.updateUniforms camera l time = Ok data /\
      length data = 36%nat /\
      Layout.uniformsOf data
      = Some (QuadShader.mkUniforms
                (GlMatrix.mat4.multiply GlMatrix.mat4.create proj view)
                view (Camera.position camera) time).
Proof.
  intros camera l time proj Hp.
  destruct (lookAt_total GlMatrix.mat4.create
              (Camera.position camera) (SimpleNBodyRender.target l)
              (Camera.up camera)) as [view Hv].
  exists view. eexists. split; [exact Hv |].
  split; [apply simple_updateUniforms_closed; eassumption |].
  split; [reflexivity | apply uniformsOf_layout].
Qed.

Lemma cos_eighth : cos (PI / 4 / 2) <> 0.
Proof.
  pose proof PI_RGT_0 as Hpi. apply Rgt_not_eq. apply cos_gt_0; lra.
Qed.

Lemma tan_eighth : tan (PI / 4 / 2) <> 0.
Proof.
  pose proof PI_RGT_0 as Hpi. apply Rgt_not_eq. apply tan_gt_0; lra.
Qed.

Lemma init_closed width height :
  height <> 0 ->
  SimpleNBodyRender.init width height
  = Ok (SimpleNBodyRender.mkLens vzero (PI / 4) (width / height) 0.1 1000).
Proof.
  intros H. unfold SimpleNBodyRender.init. rewrite fdiv_ok by exact H.
  reflexivity.
Qed.

Lemma init_perspective width height :
  width <> 0 -> height <> 0 ->
  exists l proj,
    SimpleNBodyRender.init width height = Ok l /\
    SimpleNBodyRender.target l = vzero /\
    GlMatrix.mat4.perspective GlMatrix.mat4.create (SimpleNBodyRender.fovy l)
      (SimpleNBodyRender.aspect l) (SimpleNBodyRender.near l)
      (SimpleNBodyRender.far l) = Ok proj.
Proof.
  intros Hw Hh. eexists _, _. split; [apply init_closed, Hh |].
  split; [reflexivity |]. cbn [SimpleNBodyRender.fovy SimpleNBodyRender.aspect
    SimpleNBodyRender.near SimpleNBodyRender.far].
  apply perspective_closed.
  - apply cos_eighth.
  - apply tan_eighth.
  - lra.
  - intros H. apply Hw. apply Rmult_eq_reg_r with (/ height).
    + rewrite Rmult_0_l. exact H.
    + apply Rinv_neq_0_compat, Hh.
Qed.

Lemma X20_simple_uniforms_round_trip_witness :
  exists l data,
    SimpleNBodyRender.init 4 3 = Ok l /\
    SimpleNBodyRender.updateUniforms
      (Camera.mkCamera (Vec3 0 0 100) (Vec3 0 1 0)) l 0 = Ok data /\
    length data = 36%nat.
Proof.
  destruct (init_perspective 4 3) as (l & proj & Hl & _ & Hp); [lra | lra |].
  destruct (X20_simple_uniforms_round_trip
              (Camera.mkCamera (Vec3 0 0 100) (Vec3 0 1 0)) l 0 proj Hp)
    as (view & data & _ & Hd & Hlen & _).
  exists l, data. auto.
Defined.

(** *** The uniform buffer of the compute version *)

Lemma compute_updateUniforms_closed camera l s time view proj :
  GlMatrix.mat4.lookAt GlMatrix.mat4.create (Camera.position camera)
    (SimpleNBodyRender.target l) (Camera.up camera) = Ok view ->
  GlMatrix.mat4.perspective GlMatrix.mat4.create (SimpleNBodyRender.fovy l)
    (SimpleNBodyRender.aspect l) (SimpleNBodyRender.near l)
    (SimpleNBodyRender.far l) = Ok proj ->
  NBodyRender.updateUniforms camera l s time
  = Ok (Layout.elements
          (GlMatrix.mat4.multiply GlMatrix.mat4.create proj view)
        ++ Layout.components (Camera.position camera) ++ [time],
        [IZR (NBodySimulation.particleCount s);
         0.016 * NBodySimulation.timeScale s;
         NBodySimulation.gravityStrength s;
         NBodySimulation.damping s]).
Proof.
  intros Hv Hp. unfold NBodyRender.updateUniforms.
  rewrite Hv. cbn [mbind result_bind]. rewrite Hp. cbn [mbind result_bind].
  rewrite set_fits by (simpl; lia). cbn [mbind result_bind].
  rewrite set_fits by (simpl; lia). cbn [mbind result_bind].
  reflexivity.
Qed.

(** X21.  [updateUniforms] of the compute version.  Whenever the projection
    is finite, the uniform array has 20 floats: the product of the
    projection and the view, then the camera position and the time.  It holds
    no view matrix: read with the layout of [Uniforms] of
    particle-vertex-quad.wgsl, which takes 36 floats, it gives nothing.  The
    parameter array is the count, 0.016 times the time scale, the gravity
    strength and the damping. *)
Theorem X21_compute_uniforms_are_twenty_floats :
  forall (camera : Camera.camera) (l : SimpleNBodyRender.lens)
         (s : NBodySimulation.sim) (time : R) (proj : mat4x4),
    GlMatrix.mat4.perspective GlMatrix.mat4.create (SimpleNBodyRender.fovy l)
      (SimpleNBodyRender.aspect l) (SimpleNBodyRender.near l)
      (SimpleNBodyRender.far l) = Ok proj ->
    exists view uniformData paramData,
      GlMatrix.mat4.lookAt GlMatrix.mat4.create (Camera.position camera)
        (SimpleNBodyRender.target l) (Camera.up camera) = Ok view /\
      NBodyRender.updateUniforms camera l s time
      = Ok (uniformData, paramData) /\
      length uniformData = 20%nat /\
      Layout.matrixAt uniformData 0
      = Some (GlMatrix.mat4.multiply GlMatrix.mat4.create proj view) /\
      drop 16 uniformData
      = Layout.components (Camera.position camera) ++ [time] /\
      Layout.matrixAt uniformData 16 = None /\
      Layout.uniformsOf uniformData = None /\
      paramData = [IZR (NBodySimulation.particleCount s);
                   0.016 * NBodySimulation.timeScale s;
                   NBodySimulation.gravityStrength s;
                   NBodySimulation.damping s].
Proof.
  intros camera l s time proj Hp.
  destruct (lookAt_total GlMatrix.mat4.create
              (Camera.position camera) (SimpleNBodyRender.target l)
              (Camera.up camera)) as [view Hv].
  exists view. eexists _, _. split; [exact Hv |].
  split; [apply compute_updateUniforms_closed; eassumption |].
  destruct (GlMatrix.mat4.multiply GlMatrix.mat4.create proj view).
  destruct (Camera.position camera).
  repeat split.
Qed.

Lemma X21_compute_uniforms_are_twenty_floats_witness :
  exists l data,
    SimpleNBodyRender.init 4 3 = Ok l /\
    NBodyRender.updateUniforms
      (Camera.mkCamera (Vec3 0 0 100) (Vec3 0 1 0)) l
      (NBodySimulation.mkSim 2 1 1 1 []) 0 = Ok data /\
    Layout.uniformsOf data.1 = None.
Proof.
  destruct (init_perspective 4 3) as (l & proj & Hl & _ & Hp); [lra | lra |].
  destruct (X21_compute_uniforms_are_twenty_floats
              (Camera.mkCamera (Vec3 0 0 100) (Vec3 0 1 0)) l
              (NBodySimulation.mkSim 2 1 1 1 []) 0 proj Hp)
    as (view & u & p & _ & Hd & _ & _ & _ & _ & Hn & _).
  exists l, (u, p). auto.
Defined.

(** *** From the controller to the quad *)

Section Billboard.

Import Camera.

(** X22.  From the controller to the quad, in the CPU version.  For every
    state of the controller reached from the constructor and a canvas of
    non-zero width and height, [updateUniforms] succeeds, and the right and
    the up vector the vertex shader reads are the right and the up column of
    [rotMatrix]; every corner of every quad is displaced from its particle
    perpendicularly to the position vector of the camera. *)
Theorem X22_billboard_faces_the_camera :
  forall (camera0 : camera) (es : list event) (width height time : R),
    width <> 0 -> height <> 0 ->
    let c := run (constructor camera0) es in
    exists l data uniforms,
      SimpleNBodyRender.init width height = Ok l /\
      SimpleNBodyRender.updateUniforms (cam c) l time = Ok data /\
      Layout.uniformsOf data = Some uniforms /\
      QuadShader.rightVector uniforms = rightColumn (rotMatrix c) /\
      QuadShader.upVector uniforms = upColumn (rotMatrix c) /\
      QuadShader.cameraPosition uniforms = position (cam c) /\
      QuadShader.time uniforms = time /\
      forall (p : Wgsl.Particle) (quadVertex : R * R),
        dot (vsub (QuadShader.worldPos uniforms p quadVertex)
                  (Wgsl.position p))
            (position (cam c)) = 0.
Proof.
  intros camera0 es width height time Hw Hh c.
  destruct (init_perspective width height Hw Hh) as (l & proj & Hl & Ht & Hp).
  pose proof (orbit_view_closed c GlMatrix.mat4.create
                (run_proper camera0 es) (run_coherent camera0 es)
                (run_zoomRange camera0 es)) as Hv.
  cbv zeta in Hv. rewrite <- Ht in Hv.
  eexists l, _, _. split; [exact Hl |].
  split; [apply (simple_updateUniforms_closed _ _ _ _ _ Hv Hp) |].
  split; [apply uniformsOf_layout |].
  split; [reflexivity |]. split; [reflexivity |]. split; [reflexivity |].
  split; [reflexivity |].
  intros p [qx qy].
  destruct (run_coherent camera0 es) as [Hpos _]. fold c in Hpos.
  destruct (run_proper camera0 es) as [Ho _]. fold c in Ho.
  apply orthonormal_equations in Ho.
  destruct Ho as [_ (_ & Hrf & Huf)].
  rewrite Hpos.
  unfold QuadShader.worldPos, QuadShader.rightVector, QuadShader.upVector.
  cbn [QuadShader.viewMatrix e0 e4 e8 e1 e5 e9 fst snd].
  set (r := rotMatrix c) in *. set (d := distance c).
  set (k := 0.5 * Wgsl.mass p).
  transitivity
    (d * (qx * k) * (m0 r * m2 r + m3 r * m5 r + m6 r * m8 r)
     + d * (qy * k) * (m1 r * m2 r + m4 r * m5 r + m7 r * m8 r)).
  - unfold dot, vsub, vadd, vscale, forwardColumn. simpl. ring.
  - rewrite Hrf, Huf. ring.
Qed.

Lemma X22_billboard_faces_the_camera_witness :
  exists l data uniforms,
    SimpleNBodyRender.init 4 3 = Ok l /\
    SimpleNBodyRender.updateUniforms
      (cam (constructor (mkCamera vzero vzero))) l 0 = Ok data /\
    Layout.uniformsOf data = Some uniforms /\
    QuadShader.rightVector uniforms = Vec3 1 0 0.
Proof.
  destruct (X22_billboard_faces_the_camera (mkCamera vzero vzero) [] 4 3 0)
    as (l & data & uniforms & Hl & Hd & Hu & Hr & _); [lra | lra |].
  exists l, data, uniforms. auto.
Defined.

End Billboard.

(** ** Long runs and forces *)

(** *** The box *)

Lemma clampAxis_range x : Rabs (clampAxis x) <= 50.
Proof.
  unfold clampAxis. destruct (Rlt_dec 50 (Rabs x)) as [H | H]; [| lra].
  unfold sign. destruct (Rlt_dec 0 x) as [Hp | Hp].
  - rewrite Rmult_1_l, Rabs_pos_eq; lra.
  - destruct (Rlt_dec x 0) as [Hn | Hn].
    + unfold Rabs. destruct (Rcase_abs (-1 * 50)); lra.
    + rewrite Rmult_0_l, Rabs_R0. lra.
Qed.

Lemma cpu_boundary_inBox p :
  inBox (SimpleNBodySimulation.position (SimpleNBodySimulation.boundary p)).
Proof.
  rewrite cpu_boundary_closed. unfold inBox. simpl.
  repeat split; apply clampAxis_range.
Qed.

Lemma wgsl_boundary_inBox p : inBox (Wgsl.position (Wgsl.boundary p)).
Proof.
  rewrite wgsl_boundary_closed. unfold inBox. simpl.
  repeat split; apply clampAxis_range.
Qed.

Lemma cpu_boundary_mass p :
  SimpleNBodySimulation.mass (SimpleNBodySimulation.boundary p)
  = SimpleNBodySimulation.mass p.
Proof. rewrite cpu_boundary_closed. reflexivity. Qed.

Lemma Forall_zip_with {A B C} (P : C -> Prop) (f : A -> B -> C) :
  (forall a b, P (f a b)) ->
  forall (l : list A) (k : list B), Forall P (zip_with f l k).
Proof.
  intros H l. induction l as [| a l IH]; intros [| b k]; simpl;
    constructor; auto.
Qed.

Lemma fmap_zip_with_r {A B C} (g : B -> C) (f : A -> B -> B) :
  (forall a b, g (f a b) = g b) ->
  forall (l : list A) (k : list B),
    length l = length k -> g <$> zip_with f l k = g <$> k.
Proof.
  intros H l. induction l as [| a l IH]; intros [| b k] Hlen;
    try discriminate; simpl; [reflexivity |].
  rewrite H. f_equal. apply IH. simpl in Hlen. lia.
Qed.

Lemma length_softenedForces G ps : length (softenedForces G ps) = length ps.
Proof. unfold softenedForces. apply length_imap. Qed.

Lemma cpu_step_invariants deltaTime (s : SimpleNBodySimulation.sim) :
  Z.to_nat (SimpleNBodySimulation.particleCount s)
    = length (SimpleNBodySimulation.particles s) ->
  Forall (fun p => SimpleNBodySimulation.mass p <> 0)
    (SimpleNBodySimulation.particles s) ->
  exists s',
    SimpleNBodySimulation.updatePhysics deltaTime s = Ok s' /\
    SimpleNBodySimulation.particleCount s'
    = SimpleNBodySimulation.particleCount s /\
    SimpleNBodySimulation.gravityStrength s'
    = SimpleNBodySimulation.gravityStrength s /\
    SimpleNBodySimulation.timeScale s' = SimpleNBodySimulation.timeScale s /\
    SimpleNBodySimulation.damping s' = SimpleNBodySimulation.damping s /\
    SimpleNBodySimulation.mass <$> SimpleNBodySimulation.particles s'
    = SimpleNBodySimulation.mass <$> SimpleNBodySimulation.particles s /\
    Forall (fun p => inBox (SimpleNBodySimulation.position p))
      (SimpleNBodySimulation.particles s').
Proof.
  intros Hn Hm. eexists.
  split; [apply cpu_updatePhysics_closed; assumption |].
  do 4 (split; [reflexivity |]). split.
  - cbn [SimpleNBodySimulation.particles SimpleNBodySimulation.set_particles].
    apply fmap_zip_with_r; [| apply length_softenedForces].
    intros force p. unfold cpuStepped. rewrite cpu_boundary_mass.
    reflexivity.
  - cbn [SimpleNBodySimulation.particles SimpleNBodySimulation.set_particles].
    apply Forall_zip_with. intros force p. apply cpu_boundary_inBox.
Qed.

Lemma masses_nonzero ps qs :
  SimpleNBodySimulation.mass <$> ps = SimpleNBodySimulation.mass <$> qs ->
  Forall (fun p => SimpleNBodySimulation.mass p <> 0) qs ->
  Forall (fun p => SimpleNBodySimulation.mass p <> 0) ps.
Proof.
  revert qs. induction ps as [| p ps IH]; intros [| q qs] H Hq;
    try discriminate; [constructor |].
  simpl in H. injection H as Hm Hrest. inversion Hq; subst.
  constructor; [congruence | eauto].
Qed.

(** X24.  A step ends inside the box: after [updatePhysics] every particle,
    and after an invocation of [integrateParticles] below [particleCount] the
    particle of that invocation, has every coordinate in [-50, 50]. *)
Theorem X24_step_ends_inside_the_box :
  (forall (deltaTime : R) (s : SimpleNBodySimulation.sim),
      Z.to_nat (SimpleNBodySimulation.particleCount s)
        = length (SimpleNBodySimulation.particles s) ->
      Forall (fun p => SimpleNBodySimulation.mass p <> 0)
        (SimpleNBodySimulation.particles s) ->
      exists s',
        SimpleNBodySimulation.updatePhysics deltaTime s = Ok s' /\
        Forall (fun p => inBox (SimpleNBodySimulation.position p))
          (SimpleNBodySimulation.particles s')) /\
  (forall (params : Wgsl.SimParams) (index : nat) (b b' : Wgsl.Buffers),
      (index < Wgsl.particleCount params)%nat ->
      Wgsl.integrateParticles params index b = Ok b' ->
      exists p',
        Wgsl.particles b' !! index = Some p' /\
        inBox (Wgsl.position p')).
Proof.
  split.
  - intros deltaTime s Hn Hm.
    destruct (cpu_step_invariants deltaTime s Hn Hm)
      as (s' & Hs & _ & _ & _ & _ & _ & Hbox).
    eauto.
  - intros params index b b' Hi H. unfold Wgsl.integrateParticles in H.
    destruct (decide (Wgsl.particleCount params <= index)%nat); [lia |].
    apply bind_Ok_inv in H. destruct H as (p & Hp & H).
    apply bind_Ok_inv in H. destruct H as (force & Hf & H).
    apply bind_Ok_inv in H. destruct H as (q & Hq & H).
    apply bind_Ok_inv in H. destruct H as (ps' & Hst & H).
    injection H as <-. apply store_Ok_inv in Hst. destruct Hst as [Hlt ->].
    exists (Wgsl.boundary q). cbn [Wgsl.particles].
    split; [apply list_lookup_insert_eq; exact Hlt | apply wgsl_boundary_inBox].
Qed.

Lemma X24_step_ends_inside_the_box_witness :
  exists s',
    SimpleNBodySimulation.updatePhysics 0.016 twoBodies = Ok s' /\
    Forall (fun p => inBox (SimpleNBodySimulation.position p))
      (SimpleNBodySimulation.particles s').
Proof.
  destruct X24_step_ends_inside_the_box as [H _].
  apply (H 0.016 twoBodies).
  - reflexivity.
  - repeat constructor; simpl; lra.
Defined.

Lemma cpu_run_invariants deltaTime n : forall s : SimpleNBodySimulation.sim,
  Z.to_nat (SimpleNBodySimulation.particleCount s)
    = length (SimpleNBodySimulation.particles s) ->
  Forall (fun p => SimpleNBodySimulation.mass p <> 0)
    (SimpleNBodySimulation.particles s) ->
  exists s',
    iterate n (SimpleNBodySimulation.updatePhysics deltaTime) s = Ok s' /\
    SimpleNBodySimulation.particleCount s'
    = SimpleNBodySimulation.particleCount s /\
    SimpleNBodySimulation.mass <$> SimpleNBodySimulation.particles s'
    = SimpleNBodySimulation.mass <$> SimpleNBodySimulation.particles s /\
    ((0 < n)%nat ->
     Forall (fun p => inBox (SimpleNBodySimulation.position p))
       (SimpleNBodySimulation.particles s')).
Proof.
  induction n as [| n IH]; intros s Hn Hm.
  - exists s. split; [reflexivity |]. split; [reflexivity |].
    split; [reflexivity | lia].
  - destruct (cpu_step_invariants deltaTime s Hn Hm)
      as (s1 & Hs1 & Hc1 & _ & _ & _ & Hm1 & Hb1).
    assert (Hlen : length (SimpleNBodySimulation.particles s1)
                   = length (SimpleNBodySimulation.particles s)).
    { rewrite <- (length_fmap SimpleNBodySimulation.mass), Hm1.
      apply length_fmap. }
    destruct (IH s1) as (s' & Hs' & Hc' & Hm' & Hb').
    { rewrite Hc1, Hlen. exact Hn. }
    { eapply masses_nonzero; eassumption. }
    exists s'. cbn [iterate]. rewrite Hs1. cbn [mbind result_bind].
    split; [exact Hs' |]. split; [congruence |]. split; [congruence |].
    intros _. destruct n as [| n]; [| apply Hb'; lia].
    simpl in Hs'. injection Hs' as <-. exact Hb1.
Qed.

(** X25.  The CPU simulation keeps running: with a count equal to the
    number of particles and non-zero masses, any number of steps completes
    and keeps the count and every mass; after at least one step every
    particle is inside the box. *)
Theorem X25_cpu_simulation_keeps_running :
  forall (deltaTime : R) (n : nat) (s : SimpleNBodySimulation.sim),
    Z.to_nat (SimpleNBodySimulation.particleCount s)
      = length (SimpleNBodySimulation.particles s) ->
    Forall (fun p => SimpleNBodySimulation.mass p <> 0)
      (SimpleNBodySimulation.particles s) ->
    exists s',
      iterate n (SimpleNBodySimulation.updatePhysics deltaTime) s = Ok s' /\
      SimpleNBodySimulation.particleCount s'
      = SimpleNBodySimulation.particleCount s /\
      SimpleNBodySimulation.mass <$> SimpleNBodySimulation.particles s'
      = SimpleNBodySimulation.mass <$> SimpleNBodySimulation.particles s /\
      ((0 < n)%nat ->
       Forall (fun p => inBox (SimpleNBodySimulation.position p))
         (SimpleNBodySimulation.particles s')).
Proof. intros deltaTime n s. apply cpu_run_invariants. Qed.

Lemma X25_cpu_simulation_keeps_running_witness :
  exists s',
    iterate 1000 (SimpleNBodySimulation.updatePhysics 0.016) twoBodies
    = Ok s' /\
    SimpleNBodySimulation.particleCount s' = 2%Z.
Proof.
  destruct (X25_cpu_simulation_keeps_running 0.016 1000 twoBodies)
    as (s' & Hs & Hc & _).
  - reflexivity.
  - repeat constructor; simpl; lra.
  - exists s'. split; [exact Hs | exact Hc].
Defined.

(** *** Pair forces *)

Lemma cpu_pairForce_opposite G p q :
  SimpleNBodySimulation.pairForce G q p
  = Ok (vneg (softenedPairForce G (SimpleNBodySimulation.mass p)
                (SimpleNBodySimulation.mass q)
                (vsub (SimpleNBodySimulation.position q)
                      (SimpleNBodySimulation.position p)))).
Proof.
  rewrite cpu_pairForce_softened.
  rewrite (vsub_swap (SimpleNBodySimulation.position p)).
  rewrite softenedPairForce_vneg. reflexivity.
Qed.

Lemma wgsl_pairForce_opposite params p q :
  Wgsl.position p <> Wgsl.position q ->
  Wgsl.pairForce params q p
  = Ok (vneg (kernelPairForce (Wgsl.gravityStrength params) (Wgsl.mass p)
                (Wgsl.mass q) (vsub (Wgsl.position q) (Wgsl.position p)))).
Proof.
  intros H. rewrite wgsl_pairForce_kernel by congruence.
  rewrite (vsub_swap (Wgsl.position p)).
  rewrite kernelPairForce_vneg. reflexivity.
Qed.

Lemma softenedPairForce_bound G m1 m2 r :
  norm (softenedPairForce G m1 m2 r) <= 100 * Rabs (G * m1 * m2).
Proof.
  pose proof (softened_pos r) as Hs.
  assert (Hs1 : 0.01 <= softened r).
  { unfold softened. pose proof (dot_self_nonneg r). lra. }
  assert (Hrs : 0 < sqrt (softened r)) by (apply sqrt_lt_R0, Hs).
  assert (Hsq : sqrt (softened r) * sqrt (softened r) = softened r)
    by (apply sqrt_sqrt; lra).
  set (c := G * m1 * m2). set (s := softened r) in *.
  set (w := / sqrt s). set (u := / s).
  assert (Hu : 0 < u) by (apply Rinv_0_lt_compat, Hs).
  assert (Hus : u * s = 1) by (unfold u; apply Rinv_l; lra).
  assert (Hu100 : u <= 100) by nra.
  assert (Hw : w * w = u).
  { unfold w, u. rewrite <- Rinv_mult, Hsq. reflexivity. }
  assert (Hf : softenedPairForce G m1 m2 r = vscale r (c * u * w)).
  { unfold softenedPairForce, vscale. fold s c. unfold u, w, Rdiv.
    apply vec3_eq; ring. }
  assert (Hrr : dot r r = s - 0.01) by (unfold s, softened; lra).
  assert (Hdot : dot (vscale r (c * u * w)) (vscale r (c * u * w))
                 = (c * u) * (c * u) * (1 - 0.01 * u)).
  { transitivity ((c * u) * (c * u) * (w * w) * dot r r);
      [unfold dot, vscale; simpl; ring |].
    rewrite Hw, Hrr.
    transitivity ((c * u) * (c * u) * (u * s - 0.01 * u)); [ring |].
    rewrite Hus. reflexivity. }
  unfold norm. rewrite Hf, Hdot.
  assert (Hc : 0 <= Rabs c) by apply Rabs_pos.
  assert (Hcc : Rabs c * Rabs c = c * c).
  { unfold Rabs. destruct (Rcase_abs c); ring. }
  rewrite <- (sqrt_square (100 * Rabs c)) by lra.
  apply sqrt_le_1_alt.
  assert (H1 : 0 <= c * c) by nra.
  assert (H2 : u * u <= 100 * 100) by nra.
  assert (H3 : 0 <= u * u) by nra.
  assert (H4 : (c * u) * (c * u) * (1 - 0.01 * u) <= (c * c) * (u * u)).
  { assert (0 <= (c * c) * (u * u) * (0.01 * u)).
    { apply Rmult_le_pos; [apply Rmult_le_pos; assumption | lra]. }
    lra. }
  assert (H5 : (c * c) * (u * u) <= (c * c) * (100 * 100))
    by (apply Rmult_le_compat_l; assumption).
  lra.
Qed.

(** X27.  Whatever the separation, zero included, the pair force of the CPU
    loop is finite and its magnitude is at most 100 * |G * m1 * m2|. *)
Theorem X27_softened_pair_force_is_bounded :
  forall (G : R) (p q : SimpleNBodySimulation.particle),
    exists f,
      SimpleNBodySimulation.pairForce G p q = Ok f /\
      norm f <= 100 * Rabs (G * SimpleNBodySimulation.mass p
                            * SimpleNBodySimulation.mass q).
Proof.
  intros G p q. eexists. split; [apply cpu_pairForce_softened |].
  apply softenedPairForce_bound.
Qed.

(** *** The total force *)

Lemma vadd_assoc a b c : vadd (vadd a b) c = vadd a (vadd b c).
Proof. unfold vadd. simpl. apply vec3_eq; ring. Qed.

Lemma vadd_comm a b : vadd a b = vadd b a.
Proof. unfold vadd. apply vec3_eq; ring. Qed.

Lemma vadd_vzero_r a : vadd a vzero = a.
Proof. destruct a. unfold vadd, vzero. simpl. apply vec3_eq; ring. Qed.

Lemma vadd_vzero_l a : vadd vzero a = a.
Proof. rewrite vadd_comm. apply vadd_vzero_r. Qed.

Lemma vadd_vneg a : vadd a (vneg a) = vzero.
Proof. unfold vadd, vneg, vzero. simpl. apply vec3_eq; ring. Qed.

Lemma vsum_cons a l : vsum (a :: l) = vadd a (vsum l).
Proof. reflexivity. Qed.

Lemma vsum_vadd {A} (f g : A -> vec3) l :
  vsum (map (fun a => vadd (f a) (g a)) l)
  = vadd (vsum (map f l)) (vsum (map g l)).
Proof.
  induction l as [| a l IH]; simpl; [symmetry; apply vadd_vzero_l |].
  unfold vsum in *. simpl. rewrite IH.
  unfold vadd. simpl. apply vec3_eq; ring.
Qed.

Lemma vsum_vneg {A} (f : A -> vec3) l :
  vsum (map (fun a => vneg (f a)) l) = vneg (vsum (map f l)).
Proof.
  induction l as [| a l IH]; simpl.
  - unfold vsum, vneg, vzero. simpl. apply vec3_eq; ring.
  - unfold vsum in *. simpl. rewrite IH.
    unfold vadd, vneg. simpl. apply vec3_eq; ring.
Qed.

(** An antisymmetric pair term sums to zero over all pairs. *)
Lemma antisymmetric_sum {A} (h : A -> A -> vec3) :
  (forall a b, h b a = vneg (h a b)) ->
  forall l, vsum (map (fun a => vsum (map (h a) l)) l) = vzero.
Proof.
  intros Hanti.
  assert (Hself : forall a, h a a = vzero).
  { intros a. pose proof (Hanti a a) as H. destruct (h a a) as [x y z].
    unfold vneg, vzero in *. simpl in H. injection H as Hx Hy Hz.
    apply vec3_eq; lra. }
  induction l as [| a l IH]; [reflexivity |].
  change (vsum (map (fun a0 => vsum (map (h a0) (a :: l))) (a :: l)))
    with (vadd (vsum (map (h a) (a :: l)))
               (vsum (map (fun p => vsum (map (h p) (a :: l))) l))).
  assert (Hrow : vsum (map (h a) (a :: l)) = vsum (map (h a) l)).
  { cbn [map]. rewrite vsum_cons, Hself. apply vadd_vzero_l. }
  assert (Hcol : vsum (map (fun p => vsum (map (h p) (a :: l))) l)
                 = vadd (vneg (vsum (map (h a) l)))
                        (vsum (map (fun p => vsum (map (h p) l)) l))).
  { rewrite <- vsum_vneg, <- vsum_vadd. f_equal. apply map_ext.
    intros p. cbn [map]. rewrite vsum_cons, Hanti. reflexivity. }
  rewrite Hrow, Hcol, IH, vadd_vzero_r. apply vadd_vneg.
Qed.

Lemma cpuPull_opposite G p q : cpuPull G q p = vneg (cpuPull G p q).
Proof.
  unfold cpuPull.
  rewrite (vsub_swap (SimpleNBodySimulation.position p)).
  apply softenedPairForce_vneg.
Qed.

Lemma cpuPull_self G p : cpuPull G p p = vzero.
Proof.
  pose proof (cpuPull_opposite G p p) as H. destruct (cpuPull G p p) as [x y z].
  unfold vneg, vzero in *. simpl in H. injection H as Hx Hy Hz.
  apply vec3_eq; lra.
Qed.

(** The force on [p], with the skipped index counted as a zero term. *)
Lemma softenedTerm_fold G p i : forall l k acc,
  (forall j q, l !! j = Some q -> i = (k + j)%nat -> q = p) ->
  foldl (softenedTerm G p i) acc (imap (fun j => pair (k + j)%nat) l)
  = vadd acc (vsum (map (cpuPull G p) l)).
Proof.
  induction l as [| q l IH]; intros k acc Hself.
  - simpl. symmetry. apply vadd_vzero_r.
  - cbn [imap foldl].
    rewrite (imap_ext _ (fun j => pair (S k + j)%nat) l)
      by (intros; simpl; f_equal; lia).
    rewrite IH.
    + unfold softenedTerm. cbn [fst snd map]. rewrite Nat.add_0_r.
      rewrite vsum_cons.
      destruct (decide (i = k)) as [-> | Hne].
      * rewrite (Hself 0%nat q eq_refl) by lia.
        rewrite cpuPull_self, vadd_vzero_l. reflexivity.
      * fold (cpuPull G p q). apply vadd_assoc.
    + intros j r Hr Hi. apply (Hself (S j) r Hr). lia.
Qed.

Lemma softenedForce_sum G ps i p :
  ps !! i = Some p ->
  softenedForce G ps i p = vsum (map (cpuPull G p) ps).
Proof.
  intros Hp. unfold softenedForce.
  rewrite (imap_ext pair (fun j => pair (0 + j)%nat) ps) by reflexivity.
  rewrite softenedTerm_fold; [apply vadd_vzero_l |].
  intros j q Hq ->. simpl in Hp. congruence.
Qed.

Lemma softenedForces_sum G ps :
  softenedForces G ps = map (fun p => vsum (map (cpuPull G p) ps)) ps.
Proof.
  unfold softenedForces. apply list_eq. intros i.
  rewrite list_lookup_imap, list_lookup_fmap.
  destruct (ps !! i) as [p |] eqn:Hp; [| reflexivity].
  simpl. f_equal. apply softenedForce_sum, Hp.
Qed.

Lemma total_force_vanishes G ps : vsum (softenedForces G ps) = vzero.
Proof.
  rewrite softenedForces_sum. apply antisymmetric_sum.
  intros p q. apply cpuPull_opposite.
Qed.

(** X26.  Pair forces are equal and opposite: in the CPU loop for every
    pair, in the kernel for two particles at different positions.  The
    forces that the first loop of [updatePhysics] computes add up to zero. *)
Theorem X26_pair_forces_cancel :
  (forall (G : R) (p q : SimpleNBodySimulation.particle),
      exists f,
        SimpleNBodySimulation.pairForce G p q = Ok f /\
        SimpleNBodySimulation.pairForce G q p = Ok (vneg f)) /\
  (forall (params : Wgsl.SimParams) (p q : Wgsl.Particle),
      Wgsl.position p <> Wgsl.position q ->
      exists f,
        Wgsl.pairForce params p q = Ok f /\
        Wgsl.pairForce params q p = Ok (vneg f)) /\
  (forall s : SimpleNBodySimulation.sim,
      Z.to_nat (SimpleNBodySimulation.particleCount s)
        = length (SimpleNBodySimulation.particles s) ->
      exists forces,
        SimpleNBodySimulation.calculateForces s = Ok forces /\
        length forces = length (SimpleNBodySimulation.particles s) /\
        vsum forces = vzero).
Proof.
  split; [| split].
  - intros G p q. eexists. split; [apply cpu_pairForce_softened |].
    apply cpu_pairForce_opposite.
  - intros params p q H. eexists.
    split; [apply wgsl_pairForce_kernel, H |].
    apply wgsl_pairForce_opposite, H.
  - intros s Hn. eexists. split; [apply cpu_calculateForces_ok, Hn |].
    split; [apply length_imap | apply total_force_vanishes].
Qed.

Lemma X26_pair_forces_cancel_witness :
  (exists f,
     Wgsl.pairForce params2 (SimpleNBodySimulation.pack cpuA)
       (SimpleNBodySimulation.pack cpuB) = Ok f /\
     Wgsl.pairForce params2 (SimpleNBodySimulation.pack cpuB)
       (SimpleNBodySimulation.pack cpuA) = Ok (vneg f)) /\
  (exists forces,
     SimpleNBodySimulation.calculateForces twoBodies = Ok forces /\
     length forces = 2%nat /\ vsum forces = vzero).
Proof.
  destruct X26_pair_forces_cancel as (_ & Hk & Hc). split.
  - apply Hk. simpl. intros Heq. injection Heq as Heq. lra.
  - apply (Hc twoBodies). reflexivity.
Defined.

(** *** The two dispatches of a frame *)

(** A loop whose body faults at the index [j], on every state the earlier
    rounds can leave, does not complete. *)
Lemma for_loop_reaches_fault {St} (body : nat -> St -> result St)
    (P : St -> Prop) (j : nat) :
  (forall i s s', body i s = Ok s' -> P s -> P s') ->
  (forall s, P s -> exists f, body j s = Fault f) ->
  forall n start s,
    P s -> (start <= j < start + n)%nat ->
    exists f, for_loop body start n s = Fault f.
Proof.
  intros Hkeep Hj n. induction n as [| n IH]; intros start s Hs Hin; [lia |].
  cbn [for_loop].
  destruct (body start s) as [s' | f] eqn:Hstep; [| exists f; reflexivity].
  cbn [mbind result_bind].
  destruct (decide (start = j)) as [-> | Hne].
  - destruct (Hj s Hs) as [f Hf]. congruence.
  - apply IH; [eapply Hkeep; eassumption | lia].
Qed.

Lemma dispatch_reaches_fault kernel (P : Wgsl.Buffers -> Prop) j groups b :
  (forall i s s', kernel i s = Ok s' -> P s -> P s') ->
  (forall s, P s -> exists f, kernel j s = Fault f) ->
  P b -> (j < 64 * groups)%nat ->
  exists f, NBodySimulation.dispatchWorkgroups kernel groups b = Fault f.
Proof.
  intros Hkeep Hj Hb Hlt. unfold NBodySimulation.dispatchWorkgroups.
  apply (for_loop_reaches_fault kernel P j Hkeep Hj); [exact Hb | lia].
Qed.

(** The bits of a count that a float holds exactly. *)
Lemma float32Bits_exact n :
  (1 <= n < 2 ^ 24)%Z ->
  NBodySimulation.float32Bits n
  = ((127 + Z.log2 n) * 2 ^ 23 + (n - 2 ^ Z.log2 n) * 2 ^ (23 - Z.log2 n))%Z
  /\ (n < NBodySimulation.float32Bits n)%Z.
Proof.
  intros Hn. unfold NBodySimulation.float32Bits.
  destruct (decide (n < 0)%Z) as [Hneg | _]; [lia |].
  rewrite Z.abs_eq by lia.
  destruct (decide (n = 0)%Z) as [H0 | _]; [lia |].
  assert (He : (0 <= Z.log2 n < 24)%Z).
  { split; [apply Z.log2_nonneg |]. apply Z.log2_lt_pow2; lia. }
  destruct (decide (Z.log2 n <= 23)%Z) as [_ | Hbig]; [| lia].
  split; [lia |].
  destruct (Z.log2_spec n ltac:(lia)) as [Hlo _].
  assert (Hp : (0 <= 2 ^ (23 - Z.log2 n))%Z) by (apply Z.pow_nonneg; lia).
  change (2 ^ 23)%Z with 8388608%Z. change (2 ^ 24)%Z with 16777216%Z in Hn.
  nia.
Qed.

Lemma frameWorkgroups_cover (s : NBodySimulation.sim) :
  (0 <= NBodySimulation.particleCount s)%Z ->
  exists groups,
    NBodySimulation.frameWorkgroups s = Ok groups /\
    (Z.to_nat (NBodySimulation.particleCount s) <= 64 * groups)%nat.
Proof.
  intros Hn. unfold NBodySimulation.frameWorkgroups.
  destruct (decide (NBodySimulation.particleCount s <= -64)%Z); [lia |].
  eexists. split; [reflexivity | apply workgroups_cover].
Qed.

Lemma particleSlots_count (s : NBodySimulation.sim) :
  NBodySimulation.particleSlots s
  = Z.to_nat (NBodySimulation.particleCount s).
Proof.
  unfold NBodySimulation.particleSlots, NBodySimulation.particleBufferSize.
  replace (NBodySimulation.particleCount s * 8 * 4)%Z
    with (NBodySimulation.particleCount s * 32)%Z by lia.
  rewrite Z.div_mul by lia. reflexivity.
Qed.

Lemma forceSlots_count (s : NBodySimulation.sim) :
  NBodySimulation.forceSlots s
  = Z.to_nat (3 * NBodySimulation.particleCount s / 4).
Proof.
  unfold NBodySimulation.forceSlots, NBodySimulation.forceBufferSize.
  replace (NBodySimulation.particleCount s * 3 * 4)%Z
    with (3 * NBodySimulation.particleCount s * 4)%Z by lia.
  change 16%Z with (4 * 4)%Z.
  rewrite Z.div_mul_cancel_r by lia. reflexivity.
Qed.

(** The first invocation of [computeForces], when the kernel reads a count
    above the number of particles in the buffer. *)
Lemma computeForces_overrun params b :
  (1 <= length (Wgsl.particles b) < Wgsl.particleCount params)%nat ->
  exists f, Wgsl.computeForces params 0 b = Fault f.
Proof.
  intros [H1 Hlt]. unfold Wgsl.computeForces.
  destruct (decide (Wgsl.particleCount params <= 0)%nat); [lia |].
  destruct (lookup_lt_is_Some_2 (Wgsl.particles b) 0 ltac:(lia)) as [p Hp].
  rewrite (load_Some _ _ _ Hp). cbn [mbind result_bind].
  destruct (for_loop_reaches_fault
              (Wgsl.forceLoopBody params (Wgsl.particles b) p 0)
              (fun _ => True) (length (Wgsl.particles b)))
    with (n := Wgsl.particleCount params) (start := 0%nat) (s := vzero)
    as [f Hf]; [auto | | exact I | lia |].
  - intros acc _. unfold Wgsl.forceLoopBody.
    destruct (decide (length (Wgsl.particles b) = 0)%nat); [lia |].
    unfold load. rewrite lookup_ge_None_2 by lia.
    eexists. reflexivity.
  - rewrite Hf. eexists. reflexivity.
Qed.

(** X28.  The count the kernels read.  [updateUniforms] writes
    [particleCount] as a float and the kernels read the same four bytes as
    a [u32]: for a count [n] from 1 to [2 ^ 24 - 1], and [e] the binary
    logarithm of [n] rounded down, that is
    [(127 + e) * 2 ^ 23 + (n - 2 ^ e) * 2 ^ (23 - e)], a number above [n]
    (1073741824 for two particles).  The particle buffer holds [n]
    particles, so the first invocation of the force pass reads past its
    end: the force pass of a frame does not complete, and neither do the
    two passes together. *)
Theorem X28_force_pass_overruns_the_particles :
  forall (s : NBodySimulation.sim) (b : Wgsl.Buffers),
    (1 <= NBodySimulation.particleCount s < 2 ^ 24)%Z ->
    length (Wgsl.particles b) = NBodySimulation.particleSlots s ->
    let n := NBodySimulation.particleCount s in
    let e := Z.log2 n in
    NBodySimulation.particleSlots s = Z.to_nat n /\
    NBodySimulation.float32Bits n
    = ((127 + e) * 2 ^ 23 + (n - 2 ^ e) * 2 ^ (23 - e))%Z /\
    (Z.to_nat n
     < Wgsl.particleCount (NBodySimulation.uploadedParams s))%nat /\
    (exists f,
       Wgsl.computeForces (NBodySimulation.uploadedParams s) 0 b
       = Fault f) /\
    (exists f, NBodySimulation.forcePass s b = Fault f) /\
    (exists f, NBodySimulation.computePasses s b = Fault f).
Proof.
  intros s b Hn Hlen n e.
  destruct (float32Bits_exact n Hn) as [Hbits Hgt].
  rewrite particleSlots_count in Hlen. fold n in Hlen.
  assert (Hcount : (Z.to_nat n
            < Wgsl.particleCount (NBodySimulation.uploadedParams s))%nat)
    by (cbn [NBodySimulation.uploadedParams Wgsl.particleCount]; fold n; lia).
  assert (Hfirst : exists f,
            Wgsl.computeForces (NBodySimulation.uploadedParams s) 0 b
            = Fault f)
    by (apply computeForces_overrun; lia).
  split; [apply particleSlots_count |]. split; [exact Hbits |].
  split; [exact Hcount |]. split; [exact Hfirst |].
  assert (Hpass : exists f, NBodySimulation.forcePass s b = Fault f).
  { unfold NBodySimulation.forcePass.
    destruct (frameWorkgroups_cover s ltac:(lia)) as (groups & -> & Hcover).
    cbn [mbind result_bind]. fold n in Hcover.
    apply (dispatch_reaches_fault _
             (fun s' =>
                length (Wgsl.particles s') = length (Wgsl.particles b))
             0%nat).
    - intros i s0 s1 Hstep Hs0.
      apply wgsl_computeForces_inv in Hstep as [-> | (? & _ & ->)];
        exact Hs0.
    - intros s0 Hs0. apply computeForces_overrun. lia.
    - reflexivity.
    - lia. }
  split; [exact Hpass |].
  destruct Hpass as [f Hf]. exists f.
  unfold NBodySimulation.computePasses. rewrite Hf. reflexivity.
Qed.

Lemma X28_force_pass_overruns_the_particles_witness :
  NBodySimulation.float32Bits 2 = 1073741824%Z /\
  exists f,
    NBodySimulation.forcePass (NBodySimulation.mkSim 2 1 1 0.999 []) gpu2
    = Fault f.
Proof.
  destruct (X28_force_pass_overruns_the_particles
              (NBodySimulation.mkSim 2 1 1 0.999 []) gpu2)
    as (_ & Hbits & _ & _ & Hpass & _).
  - simpl. lia.
  - reflexivity.
  - split; [exact Hbits | exact Hpass].
Defined.

(** An invocation of [integrateParticles] at an index that has a particle
    and no force. *)
Lemma integrateParticles_overrun params index b :
  (index < Wgsl.particleCount params)%nat ->
  (index < length (Wgsl.particles b))%nat ->
  (length (Wgsl.forces b) <= index)%nat ->
  Wgsl.integrateParticles params index b = Fault OutOfBounds.
Proof.
  intros Hc Hp Hf. unfold Wgsl.integrateParticles.
  destruct (decide (Wgsl.particleCount params <= index)%nat); [lia |].
  destruct (lookup_lt_is_Some_2 (Wgsl.particles b) index Hp) as [p Hlook].
  rewrite (load_Some _ _ _ Hlook). cbn [mbind result_bind].
  unfold load. rewrite lookup_ge_None_2 by exact Hf. reflexivity.
Qed.

Lemma integrateParticles_lengths params index b b' :
  Wgsl.integrateParticles params index b = Ok b' ->
  length (Wgsl.particles b') = length (Wgsl.particles b) /\
  length (Wgsl.forces b') = length (Wgsl.forces b).
Proof.
  intros H.
  destruct (wgsl_integrate_inv _ _ _ _ H)
    as [-> | (p & p' & _ & _ & _ & ->)]; [split; reflexivity |].
  cbn [Wgsl.particles Wgsl.forces]. rewrite length_insert.
  split; reflexivity.
Qed.

(** X29.  The force buffer.  [initResources] asks for twelve bytes per
    particle, and a [vec3<f32>] in an array takes sixteen: for a count [n]
    from 1 to [2 ^ 24 - 1] the buffer holds [floor (3 n / 4)] forces, fewer
    than [n].  The invocation of the integration pass at that index finds
    its particle and no force, so the integration pass of a frame does not
    complete, whatever the two buffers hold. *)
Theorem X29_integration_pass_overruns_the_forces :
  forall (s : NBodySimulation.sim) (b : Wgsl.Buffers),
    (1 <= NBodySimulation.particleCount s < 2 ^ 24)%Z ->
    length (Wgsl.particles b) = NBodySimulation.particleSlots s ->
    length (Wgsl.forces b) = NBodySimulation.forceSlots s ->
    let n := NBodySimulation.particleCount s in
    NBodySimulation.forceSlots s = Z.to_nat (3 * n / 4) /\
    (NBodySimulation.forceSlots s < Z.to_nat n)%nat /\
    (forall b',
       length (Wgsl.particles b') = length (Wgsl.particles b) ->
       length (Wgsl.forces b') = length (Wgsl.forces b) ->
       Wgsl.integrateParticles (NBodySimulation.uploadedParams s)
         (NBodySimulation.forceSlots s) b' = Fault OutOfBounds) /\
    (exists f, NBodySimulation.integratePass s b = Fault f).
Proof.
  intros s b Hn Hlp Hlf n.
  destruct (float32Bits_exact n Hn) as [_ Hgt].
  rewrite particleSlots_count in Hlp. fold n in Hlp.
  pose proof (forceSlots_count s) as Hk. fold n in Hk.
  assert (Hlt : (NBodySimulation.forceSlots s < Z.to_nat n)%nat).
  { rewrite Hk.
    assert (0 <= 3 * n / 4 < n)%Z; [| lia].
    split; [apply Z.div_pos; lia |].
    apply Z.div_lt_upper_bound; lia. }
  assert (Hat : forall b',
            length (Wgsl.particles b') = length (Wgsl.particles b) ->
            length (Wgsl.forces b') = length (Wgsl.forces b) ->
            Wgsl.integrateParticles (NBodySimulation.uploadedParams s)
              (NBodySimulation.forceSlots s) b' = Fault OutOfBounds).
  { intros b' Hp' Hf'. apply integrateParticles_overrun.
    - cbn [NBodySimulation.uploadedParams Wgsl.particleCount]. fold n. lia.
    - lia.
    - lia. }
  split; [exact Hk |]. split; [exact Hlt |]. split; [exact Hat |].
  unfold NBodySimulation.integratePass.
  destruct (frameWorkgroups_cover s ltac:(lia)) as (groups & -> & Hcover).
  cbn [mbind result_bind]. fold n in Hcover.
  apply (dispatch_reaches_fault _
           (fun s' =>
              length (Wgsl.particles s') = length (Wgsl.particles b) /\
              length (Wgsl.forces s') = length (Wgsl.forces b))
           (NBodySimulation.forceSlots s)).
  - intros i s0 s1 Hstep [Hp0 Hf0].
    apply integrateParticles_lengths in Hstep as [Hp1 Hf1].
    split; congruence.
  - intros s0 [Hp0 Hf0]. eexists. apply Hat; assumption.
  - split; reflexivity.
  - lia.
Qed.

Lemma X29_integration_pass_overruns_the_forces_witness :
  NBodySimulation.forceSlots (NBodySimulation.mkSim 2 1 1 0.999 []) = 1%nat /\
  exists f,
    NBodySimulation.integratePass (NBodySimulation.mkSim 2 1 1 0.999 [])
      (Wgsl.mkBuffers (Wgsl.particles gpu2) [vzero])
    = Fault f.
Proof.
  destruct (X29_integration_pass_overruns_the_forces
              (NBodySimulation.mkSim 2 1 1 0.999 [])
              (Wgsl.mkBuffers (Wgsl.particles gpu2) [vzero]))
    as (Hslots & _ & _ & Hpass).
  - simpl. lia.
  - reflexivity.
  - reflexivity.
  - split; [exact Hslots | exact Hpass].
Defined.

(** *** A negative count *)

(** X30.  A negative count.  The CPU [setParticleCount] accepts it: it
    leaves a negative [particleCount] and an empty particle array, on which
    [updatePhysics] does nothing and [updateParticleBuffer] is a
    [RangeError].  In the compute version the promise of [initResources] is
    rejected: [setParticleCount] ends with the negative floor of the request
    as [particleCount], the particle buffer it had and no call of
    [Math.random] made. *)
Theorem X30_negative_count_request :
  forall (rng : nat -> R) (count : R) (k : nat),
    count < 0 ->
    (forall s : SimpleNBodySimulation.sim,
        exists s',
          SimpleNBodySimulation.setParticleCount rng count s k = Ok (s', k) /\
          (SimpleNBodySimulation.particleCount s' < 0)%Z /\
          SimpleNBodySimulation.particles s' = [] /\
          SimpleNBodySimulation.updateParticleBuffer s' = Fault RangeError /\
          forall deltaTime,
            SimpleNBodySimulation.updatePhysics deltaTime s' = Ok s') /\
    (forall s : NBodySimulation.sim,
        (floor count < 0)%Z /\
        NBodySimulation.initResources
          (NBodySimulation.set_particleCount s (floor count))
        = Fault TypeError /\
        NBodySimulation.setParticleCount rng count s k
        = Ok (NBodySimulation.set_particleCount s (floor count), k)).
Proof.
  intros rng count k Hneg.
  assert (Hf : (floor count < 0)%Z) by (apply floor_negative, Hneg).
  split.
  - intros s. rewrite <- (Rmin_left count 4000) in Hf by lra.
    unfold SimpleNBodySimulation.setParticleCount,
      SimpleNBodySimulation.initializeParticles.
    cbn [SimpleNBodySimulation.particleCount
         SimpleNBodySimulation.set_particleCount].
    set (n := floor (Rmin count 4000)) in *.
    replace (Z.to_nat n) with 0%nat by lia.
    cbn [for_loop mbind result_bind length].
    destruct (decide (0 < 0)%nat) as [H0 | _]; [lia |].
    eexists. split; [reflexivity |].
    cbn [SimpleNBodySimulation.particleCount SimpleNBodySimulation.particles
         SimpleNBodySimulation.set_particles
         SimpleNBodySimulation.set_particleCount].
    split; [exact Hf |]. split; [reflexivity |]. split.
    + unfold SimpleNBodySimulation.updateParticleBuffer.
      cbn [SimpleNBodySimulation.particleCount
           SimpleNBodySimulation.set_particles
           SimpleNBodySimulation.set_particleCount].
      destruct (decide (n * 8 < 0)%Z) as [_ | Hge]; [reflexivity | lia].
    + intros deltaTime. unfold SimpleNBodySimulation.updatePhysics,
        SimpleNBodySimulation.calculateForces.
      cbn [SimpleNBodySimulation.particleCount
           SimpleNBodySimulation.set_particles
           SimpleNBodySimulation.set_particleCount].
      replace (Z.to_nat n) with 0%nat by lia. reflexivity.
  - intros s. split; [exact Hf |].
    unfold NBodySimulation.setParticleCount, NBodySimulation.initResources,
      NBodySimulation.particleBufferSize.
    cbn [NBodySimulation.particleCount NBodySimulation.set_particleCount].
    destruct (decide (floor count * 8 * 4 < 0)%Z) as [_ | Hge]; [| lia].
    split; reflexivity.
Qed.

Lemma X30_negative_count_request_witness :
  NBodySimulation.setParticleCount still (-1)
    (NBodySimulation.mkSim 1000 1 1 0.999 []) 0%nat
  = Ok (NBodySimulation.mkSim (-1) 1 1 0.999 [], 0%nat).
Proof.
  destruct (X30_negative_count_request still (-1) 0%nat) as [_ Hgpu];
    [lra |].
  destruct (Hgpu (NBodySimulation.mkSim 1000 1 1 0.999 [])) as (_ & _ & H).
  rewrite floor_IZR in H. exact H.
Defined.

(** *** One frame of the CPU version *)

Lemma draw_loop particles uniforms : forall n k vertices,
  (k + n <= 6 * length particles)%nat ->
  exists vertices',
    for_loop
      (fun vertexIndex vertices =>
         output ← QuadShader.vs_main particles uniforms vertexIndex;
         mret (vertices ++ [output]))
      k n vertices = Ok vertices' /\
    length vertices' = (length vertices + n)%nat.
Proof.
  induction n as [| n IH]; intros k vertices Hk.
  - exists vertices. split; [reflexivity | lia].
  - destruct (vs_main_ok particles uniforms k ltac:(lia))
      as (p & output & _ & Hv).
    cbn [for_loop]. rewrite Hv. cbn [mbind result_bind mret result_ret].
    destruct (IH (S k) (vertices ++ [output]) ltac:(lia))
      as (vertices' & Hrun & Hlen).
    exists vertices'. split; [exact Hrun |].
    rewrite Hlen, length_app. simpl. lia.
Qed.

Lemma draw_ok particles uniforms :
  exists vertices,
    QuadShader.draw particles uniforms (6 * length particles) = Ok vertices /\
    length vertices = (6 * length particles)%nat.
Proof.
  destruct (draw_loop particles uniforms (6 * length particles) 0 [])
    as (vertices & Hrun & Hlen); [lia |].
  exists vertices. split; [exact Hrun | exact Hlen].
Qed.

(** X23.  One frame of the CPU version.  With a finite projection, a
    non-negative count equal to the number of particles and non-zero masses,
    [render] steps the controller and the physics, uploads both buffers and
    draws six vertices per particle without a fault; the conditions on the
    simulation hold again after the frame. *)
Theorem X23_a_frame_completes :
  forall (time : R) (l : SimpleNBodyRender.lens) (proj : mat4x4)
         (cameraController : option Camera.CameraController)
         (camera : Camera.camera) (s : SimpleNBodySimulation.sim),
    GlMatrix.mat4.perspective GlMatrix.mat4.create (SimpleNBodyRender.fovy l)
      (SimpleNBodyRender.aspect l) (SimpleNBodyRender.near l)
      (SimpleNBodyRender.far l) = Ok proj ->
    (0 <= SimpleNBodySimulation.particleCount s)%Z ->
    Z.to_nat (SimpleNBodySimulation.particleCount s)
      = length (SimpleNBodySimulation.particles s) ->
    Forall (fun p => SimpleNBodySimulation.mass p <> 0)
      (SimpleNBodySimulation.particles s) ->
    exists s' vertices,
      SimpleNBodyRender.render time l cameraController camera s
      = Ok (Camera.update <$> cameraController, s', vertices) /\
      SimpleNBodySimulation.updatePhysics 0.016 s = Ok s' /\
      length vertices = (6 * length (SimpleNBodySimulation.particles s))%nat /\
      SimpleNBodySimulation.particleCount s'
      = SimpleNBodySimulation.particleCount s /\
      Z.to_nat (SimpleNBodySimulation.particleCount s')
      = length (SimpleNBodySimulation.particles s') /\
      Forall (fun p => SimpleNBodySimulation.mass p <> 0)
        (SimpleNBodySimulation.particles s').
Proof.
  intros time l proj cameraController camera s Hproj H0 Hn Hm.
  destruct (cpu_step_invariants 0.016 s Hn Hm)
    as (s' & Hs' & Hc' & _ & _ & _ & Hm' & _).
  assert (Hlen : length (SimpleNBodySimulation.particles s')
                 = length (SimpleNBodySimulation.particles s)).
  { rewrite <- (length_fmap SimpleNBodySimulation.mass), Hm'.
    apply length_fmap. }
  assert (Hn' : Z.to_nat (SimpleNBodySimulation.particleCount s')
                = length (SimpleNBodySimulation.particles s'))
    by (rewrite Hc', Hlen; exact Hn).
  assert (Hmass : Forall (fun p => SimpleNBodySimulation.mass p <> 0)
                    (SimpleNBodySimulation.particles s'))
    by (eapply masses_nonzero; eassumption).
  destruct (updateParticleBuffer_ok s') as (data & Hdata & _ & Hstore);
    [lia | lia |].
  rewrite Hn', firstn_all in Hstore.
  set (camera' := match Camera.update <$> cameraController with
                  | Some c => Camera.cam c
                  | None => camera
                  end).
  destruct (lookAt_total GlMatrix.mat4.create (Camera.position camera')
              (SimpleNBodyRender.target l) (Camera.up camera'))
    as [view Hview].
  pose proof (simple_updateUniforms_closed camera' l time view proj
                Hview Hproj) as Huni.
  destruct (draw_ok (Layout.storage data)
              (QuadShader.mkUniforms
                 (GlMatrix.mat4.multiply GlMatrix.mat4.create proj view)
                 view (Camera.position camera') time))
    as (vertices & Hdraw & Hvlen).
  assert (Hslen : length (Layout.storage data)
                  = length (SimpleNBodySimulation.particles s)).
  { rewrite Hstore, length_fmap. exact Hlen. }
  rewrite Hslen in Hdraw, Hvlen.
  exists s', vertices. split.
  - unfold SimpleNBodyRender.render. fold camera'.
    rewrite Hs'. cbn [mbind result_bind].
    rewrite Hdata. cbn [mbind result_bind].
    rewrite Huni. cbn [mbind result_bind].
    rewrite uniformsOf_layout. cbn [mbind result_bind].
    replace (Z.to_nat (SimpleNBodySimulation.particleCount s' * 6))
      with (6 * length (SimpleNBodySimulation.particles s))%nat by lia.
    rewrite Hdraw. reflexivity.
  - split; [exact Hs' |]. split; [exact Hvlen |]. split; [exact Hc' |].
    split; [exact Hn' | exact Hmass].
Qed.

Lemma X23_a_frame_completes_witness :
  exists l s' vertices,
    SimpleNBodyRender.init 4 3 = Ok l /\
    SimpleNBodyRender.render 0 l
      (Some (Camera.constructor (Camera.mkCamera vzero vzero)))
      (Camera.mkCamera vzero vzero) twoBodies
    = Ok (Some (Camera.update
                  (Camera.constructor (Camera.mkCamera vzero vzero))),
          s', vertices) /\
    length vertices = 12%nat.
Proof.
  destruct (init_perspective 4 3) as (l & proj & Hl & _ & Hp); [lra | lra |].
  destruct (X23_a_frame_completes 0 l proj
              (Some (Camera.constructor (Camera.mkCamera vzero vzero)))
              (Camera.mkCamera vzero vzero) twoBodies Hp)
    as (s' & vertices & Hr & _ & Hv & _).
  - simpl. lia.
  - reflexivity.
  - repeat constructor; simpl; lra.
  - exists l, s', vertices. auto.
Defined.
